(** * Pollutant dispersion along the Mantaro River

    A shallow embedding of the dispersion kernel of the simulation scripts
    [funcion.py], [prototipo1.py], [prototipo_final.py] and
    [prototipo3.py].

    Number model.  Python floats and NumPy float64 values are embedded as
    real numbers [R]; [np.exp] and [np.sin] are [exp] and [sin].  Rounding,
    overflow, infinities and NaN of binary64 arithmetic are outside this
    part of the model, so its statements are written to survive rounding:
    bounds instead of equalities with decimal literals, and no strict
    inequality that a rounded or underflowed value turns into an equality.
    Where the outcome of the code depends on the rounding itself (a
    comparison with a decimal literal, an index that is the integer part
    of a quotient), the computation is embedded on the binary64 numbers of
    the kernel ([Binary64]).  Python integers are [Z], loop counters and
    list positions are [nat].  A division between Python numbers raises
    [ZeroDivisionError] on a zero divisor ([Py.div]); a division that
    involves a NumPy value does not raise and is the division of [R].

    Arrays.  A one-dimensional NumPy array is a [list R]; a two-dimensional
    array is the list of its rows, so that [A[j, i]] is element [i] of row
    [j].  An index that NumPy would refuse makes the embedded operation
    return [None]. *)

From Stdlib Require PrimFloat FloatOps SpecFloat Uint63.
From Stdlib Require Import Reals Lra Lia ZArith.
From stdpp Require Import base list option strings sorting.

Open Scope R_scope.

(** ** Comparisons on reals as decidable propositions *)

#[global] Instance Rlt_decision (x y : R) : Decision (x < y) := Rlt_dec x y.
#[global] Instance Rle_decision (x y : R) : Decision (x <= y) := Rle_dec x y.
#[global] Instance Rgt_decision (x y : R) : Decision (x > y) := Rgt_dec x y.
#[global] Instance Rge_decision (x y : R) : Decision (x >= y) := Rge_dec x y.
#[global] Instance ge_decision (a b : nat) : Decision (a >= b)%nat :=
  decide (b <= a)%nat.
#[global] Instance gt_decision (a b : nat) : Decision (a > b)%nat :=
  decide (b < a)%nat.
#[global] Instance R_eq_decision : EqDecision R := Req_dec_T.
#[global] Instance R_inhabited : Inhabited R := populate 0.

(** ** Python and NumPy primitives *)

Module Py.

(** [int(r)] on a float: truncation toward zero. *)
Definition int (r : R) : Z :=
  if decide (0 <= r) then Int_part r else (- Int_part (- r))%Z.

(** [round(r)] with one argument: nearest integer, ties to the even one. *)
Definition round (r : R) : Z :=
  let f := Int_part r in
  if decide (r - IZR f < 1 / 2) then f
  else if decide (1 / 2 < r - IZR f) then (f + 1)%Z
  else if Z.even f then f else (f + 1)%Z.

(** [a / b] on Python numbers; [None] stands for [ZeroDivisionError]. *)
Definition div (a b : R) : option R :=
  if decide (b = 0) then None else Some (a / b).

(** [range(n)] for an integer [n]: empty when [n <= 0]. *)
Definition range (n : Z) : list nat := seq 0 (Z.to_nat n).

(** [a[i]] on a sequence, with Python's negative indices; [None] stands for
    [IndexError]. *)
Definition getitem {A} (a : list A) (i : Z) : option A :=
  if decide (0 <= i)%Z then a !! Z.to_nat i
  else if decide (- Z.of_nat (length a) <= i)%Z
       then a !! Z.to_nat (Z.of_nat (length a) + i)
       else None.

(** [for a in l: s = f(a, s)] where the body may raise. *)
Fixpoint for_each {A S} (f : A -> S -> option S) (l : list A) (s : S)
  : option S :=
  match l with
  | [] => Some s
  | a :: l' => s' ← f a s; for_each f l' s'
  end.

(** [sum] of a list of reals. *)
Definition sum (l : list R) : R := foldr Rplus 0 l.

(** [range(a, b)] for integers [a] and [b]. *)
Definition range2 (a b : Z) : list Z :=
  map (fun k => (a + Z.of_nat k)%Z) (seq 0 (Z.to_nat (b - a))).

(** [d[k]] on a dictionary with string keys; [None] stands for
    [KeyError]. *)
Fixpoint dict_getitem {V} (d : list (string * V)) (k : string) : option V :=
  match d with
  | [] => None
  | (k', v) :: d' => if decide (k' = k) then Some v else dict_getitem d' k
  end.

End Py.

Module Np.

(** [np.linspace(start, stop, num)]: [num] evenly spaced samples, both ends
    included; a negative [num] raises [ValueError] ([None]). *)
Definition linspace_at (start stop : R) (num : Z) (i : nat) : R :=
  if decide (num = 1)%Z then start
  else start + INR i * ((stop - start) / IZR (num - 1)).

Definition linspace (start stop : R) (num : Z) : option (list R) :=
  if decide (num < 0)%Z then None
  else Some (map (linspace_at start stop num) (Py.range num)).

(** [np.zeros_like(a)] for one and two dimensions. *)
Definition zeros_like (a : list R) : list R := map (fun _ => 0) a.
Definition zeros_like2 (a : list (list R)) : list (list R) :=
  map zeros_like a.

(** [np.meshgrid(x, y)]: both results have [len(y)] rows and [len(x)]
    columns. *)
Definition meshgrid (x y : list R) : list (list R) * list (list R) :=
  (map (fun _ => x) y, map (fun yj => map (fun _ => yj) x) y).

(** [a[j, i]]. *)
Definition get2 (a : list (list R)) (j i : nat) : option R :=
  row ← a !! j; row !! i.

(** [a[j, i] += v]. *)
Definition add2 (a : list (list R)) (j i : nat) (v : R)
  : option (list (list R)) :=
  row ← a !! j; c ← row !! i; Some (<[j := <[i := c + v]> row]> a).

(** [a[:, i]]. *)
Definition get_col (a : list (list R)) (i : nat) : option (list R) :=
  mapM (fun row : list R => row !! i) a.

(** [a[:, i] = col]. *)
Definition set_col (a : list (list R)) (i : nat) (col : list R)
  : option (list (list R)) :=
  if decide (length col = length a)
  then mapM (fun rc : list R * R =>
               if decide (i < length rc.1)%nat then Some (<[i := rc.2]> rc.1)
               else None)
            (zip a col)
  else None.

(** The shape of a two-dimensional array: rows, then columns. *)
Definition has_shape (a : list (list R)) (rows cols : nat) : Prop :=
  length a = rows /\ Forall (fun r => length r = cols) a.

(** Total reading of a cell, used in statements about arrays whose shape
    is known. *)
Definition cell (a : list (list R)) (j i : nat) : R := (a !!! j) !!! i.

(** An elementwise operation on two arrays of one shape, as in
    [a + b] or [np.sin(a) * np.cos(b)]. *)
Definition zip2 (f : R -> R -> R) (a b : list (list R)) : list (list R) :=
  zip_with (zip_with f) a b.

(** [np.abs(y) ** 1.5]: the power of a non-negative base, 0 at 0. *)
Definition abs_pow_3_2 (y : R) : R :=
  if decide (y = 0) then 0 else Rpower (Rabs y) 1.5.

(** [np.max(a)] of a one-dimensional array; [None] stands for the
    [ValueError] on an empty array. *)
Definition max (a : list R) : option R :=
  match a with
  | [] => None
  | v :: a' => Some (foldl Rmax v a')
  end.

(** [a[::step]] for a positive [step]: the elements at the positions 0,
    [step], [2 * step], ... *)
Definition every (step : nat) {A} (a : list A) : list A :=
  omap (fun i => a !! (i * step)%nat) (seq 0 (length a)).

(** [a[::step, ::step]]. *)
Definition every2 (step : nat) (a : list (list R)) : list (list R) :=
  map (every step) (every step a).

End Np.

(** ** Binary64 arithmetic

    The float64 numbers of Python and NumPy, as the binary64 numbers of the
    kernel, for the few computations whose outcome depends on rounding. *)

Module Binary64.
Import PrimFloat FloatOps SpecFloat.

(** The float of a Python integer, as in [int / int] or [float * int];
    exact below [2 ^ 53]. *)
Definition of_int (z : Z) : float :=
  match z with
  | Z0 => 0%float
  | Zpos _ => of_uint63 (Uint63.of_Z z)
  | Zneg p => (- of_uint63 (Uint63.of_Z (Zpos p)))%float
  end.

(** [int(f)] on a float: truncation toward zero; [None] stands for the
    [OverflowError] or [ValueError] on an infinity or a NaN. *)
Definition int (f : float) : option Z :=
  match Prim2SF f with
  | S754_zero _ => Some 0%Z
  | S754_finite s m e =>
      let mag := if (0 <=? e)%Z then (Zpos m * 2 ^ e)%Z
                 else (Zpos m / 2 ^ (- e))%Z in
      Some (if s then (- mag)%Z else mag)
  | S754_infinity _ | S754_nan => None
  end.

(** [np.exp(f)], as far as IEEE 754 and C99 fix it without reference to a
    particular library: exactly 1.0 at [+0.0] and [-0.0].  At any other
    argument the value is the library's rounding of the exponential; this
    definition leaves it open, and [None] then stands for a value that is
    not modelled, not for an exception. *)
Definition np_exp (f : float) : option float :=
  if is_zero f then Some 1%float else None.

(** [pollution_function(self, x, xi, Bi)] of prototipo1.py and
    prototipo_final.py on binary64 numbers, [k] being [self.k]: the same
    expression with the operations in the order in which Python applies
    them.  The result is [None] where [np_exp] leaves the value open. *)
Definition pollution_function (k x xi Bi : float) : option float :=
  if (x <? xi)%float then Some 0%float
  else e ← np_exp (- k * (x - xi))%float; Some (Bi * k * e)%float.

End Binary64.

(** ** funcion.py *)

Module Funcion.

Record Punto := { x_i : R; B : R }.

Definition k : R := 0.1.

Definition puntos : list (string * Punto) :=
  [ ("La Oroya"%string, {| x_i := 0;  B := 1.5 |});
    ("El Tambo"%string, {| x_i := 50; B := 150 |});
    ("Chilca"%string,   {| x_i := 55; B := 50 |});
    ("Huancayo"%string, {| x_i := 58; B := 120 |}) ].

(** [H(x) = np.where(x >= 0, 1, 0)], on one element. *)
Definition H (x : R) : R := if decide (x >= 0) then 1 else 0.

(** One element of [C_i = B * k * np.exp(-k * (x - x_i)) * H(x - x_i)]. *)
Definition C_i_at (k : R) (d : Punto) (x : R) : R :=
  B d * k * exp (- k * (x - x_i d)) * H (x - x_i d).

(** The array [C_i] over the sample array [x]. *)
Definition C_i (k : R) (x : list R) (d : Punto) : list R :=
  map (C_i_at k d) x.

(** [C_total = np.zeros_like(x)] followed by [C_total += C_i] for every
    entry of [puntos], in dictionary order. *)
Definition C_total_of (k : R) (x : list R) (puntos : list (string * Punto))
  : list R :=
  foldl (fun acc nd => zip_with Rplus acc (C_i k x nd.2))
        (Np.zeros_like x) puntos.

(** The script's own arrays. *)
Definition x : option (list R) := Np.linspace 0 100 1000.
Definition C_total : option (list R) :=
  xs ← x; Some (C_total_of k xs puntos).

End Funcion.

(** ** prototipo1.py *)

Module Prototipo1.

(** An entry of [cities_data]: kilometres from La Oroya, waste in t/day. *)
Record City := { distance : R; waste : R; color : string }.

(** The attributes of a [MantaroRiverModel] that the dispersion functions
    read.  The terrain and water arrays ([Z_terrain], [Z_riverbed],
    [Z_water]) are rendering data and are left out.  [lateral_samples] is
    the literal [50] of [np.linspace(-2, 2, 50)], kept as a field so that
    statements can range over it. *)
Record MantaroRiverModel := {
  cities_data : list (string * City);
  k : R;
  river_length : R;
  river_width_scale : R;
  resolution : Z;
  lateral_samples : Z;
  x_river : list R;
  y_river : list R;
  X : list (list R);
  Y : list (list R);
  Y_adjusted : list (list R)
}.

(** The values that [__init__] and [create_river_mesh] write down as
    literals.  [__init__] takes no argument: the code runs with the values
    of [literals] below and with no others.  The record only lets the
    statements about the mesh name these values; [lit_lateral_samples] is
    the 50 of [np.linspace(-2, 2, 50)], which is not even an attribute. *)
Record Literals := {
  lit_cities_data : list (string * City);
  lit_k : R;
  lit_river_length : R;
  lit_river_width_scale : R;
  lit_resolution : Z;
  lit_lateral_samples : Z
}.

Definition literals : Literals := {|
  lit_cities_data :=
    [ ("Yauli (La Oroya)"%string,
        {| distance := 0; waste := 27.1; color := "#FF4444" |});
      ("Jauja"%string,
        {| distance := 53; waste := 10.5; color := "#FF8800" |});
      ("Concepción"%string,
        {| distance := 81; waste := 38.8; color := "#FFBB00" |});
      ("Huancayo"%string,
        {| distance := 103; waste := 382.5; color := "#FF0000" |});
      ("Chupaca"%string,
        {| distance := 114; waste := 18.9; color := "#AA4444" |}) ];
  lit_k := 0.2;
  lit_river_length := 114;
  lit_river_width_scale := 2;
  lit_resolution := 100;
  lit_lateral_samples := 50
|}.

(** [y_center] and [river_width] of [create_river_mesh], on one sample. *)
Definition y_center_at (x : R) : R := 0.5 * sin (0.05 * x * 2 * PI).
Definition river_width_at (scale x : R) : R :=
  (30 + 20 * sin (0.03 * x * 2 * PI)) * scale.

(** The loop of [create_river_mesh] that fills [Y_adjusted] column by
    column. *)
Definition adjust_column (scale : R) (y_center river_width : list R)
    (Y : list (list R)) (i : nat) (Y_adjusted : list (list R))
  : option (list (list R)) :=
  w ← river_width !! i;
  let width_factor := w / (2 * scale) in
  yc ← y_center !! i;
  col ← Np.get_col Y i;
  Np.set_col Y_adjusted i (map (fun y => y * width_factor + yc) col).

(** [create_river_mesh], from the attributes set before it is called. *)
Definition create_river_mesh (l : Literals) : option MantaroRiverModel :=
  x_river ← Np.linspace 0 (lit_river_length l) (lit_resolution l);
  let y_center := map y_center_at x_river in
  let river_width :=
    map (river_width_at (lit_river_width_scale l)) x_river in
  y_river ← Np.linspace (-2) 2 (lit_lateral_samples l);
  let XY := Np.meshgrid x_river y_river in
  Y_adjusted ←
    Py.for_each
      (adjust_column (lit_river_width_scale l) y_center river_width XY.2)
      (seq 0 (length x_river)) (Np.zeros_like2 XY.2);
  Some {| cities_data := lit_cities_data l;
          k := lit_k l;
          river_length := lit_river_length l;
          river_width_scale := lit_river_width_scale l;
          resolution := lit_resolution l;
          lateral_samples := lit_lateral_samples l;
          x_river := x_river;
          y_river := y_river;
          X := XY.1;
          Y := XY.2;
          Y_adjusted := Y_adjusted |}.

(** [MantaroRiverModel()]: the constructor takes no argument, stores its
    literals and calls [create_river_mesh]. *)
Definition __init__ : option MantaroRiverModel := create_river_mesh literals.

(** [pollution_function(self, x, xi, Bi)]. *)
Definition pollution_function (self : MantaroRiverModel) (x xi Bi : R) : R :=
  if decide (x < xi) then 0
  else Bi * k self * exp (- k self * (x - xi)).

(** [lateral_factor = np.exp(-((Y_adjusted[j, i]) ** 2) / 0.5)], as a
    function of the cell's adjusted lateral coordinate. *)
Definition lateral_factor (y : R) : R := exp (- (y ^ 2) / 0.5).

(** The innermost loop of [calculate_pollution_field], over [j]. *)
Definition add_lateral (self : MantaroRiverModel) (i : nat)
    (concentration : R) (j : nat) (pollution_field : list (list R))
  : option (list (list R)) :=
  y ← Np.get2 (Y_adjusted self) j i;
  Np.add2 pollution_field j i (concentration * lateral_factor y).

(** The loop over [i] for one city. *)
Definition add_city_column (self : MantaroRiverModel) (xi Bi : R) (i : nat)
    (pollution_field : list (list R)) : option (list (list R)) :=
  x ← x_river self !! i;
  let concentration := pollution_function self x xi Bi in
  Py.for_each (add_lateral self i concentration)
              (seq 0 (length (y_river self))) pollution_field.

(** The body of the loop over [cities_data.items()]. *)
Definition add_city (self : MantaroRiverModel) (active_cities : list string)
    (entry : string * City) (pollution_field : list (list R))
  : option (list (list R)) :=
  if decide (entry.1 ∈ active_cities) then
    Py.for_each (add_city_column self (distance entry.2) (waste entry.2))
                (Py.range (resolution self)) pollution_field
  else Some pollution_field.

(** [calculate_pollution_field(self, active_cities=None)]. *)
Definition calculate_pollution_field (self : MantaroRiverModel)
    (active_cities : option (list string)) : option (list (list R)) :=
  let active_cities :=
    match active_cities with
    | None => map fst (cities_data self)
    | Some l => l
    end in
  Py.for_each (add_city self active_cities) (cities_data self)
              (Np.zeros_like2 (X self)).

(** The sources that a call with [active_cities] takes into account, and
    their summed longitudinal concentration at [x]. *)
Definition active_sources (cities_data : list (string * City))
    (active_cities : option (list string)) : list (string * City) :=
  let active_cities :=
    match active_cities with
    | None => map fst cities_data
    | Some l => l
    end in
  filter (fun entry => entry.1 ∈ active_cities) cities_data.

Definition total_concentration (self : MantaroRiverModel)
    (sources : list (string * City)) (x : R) : R :=
  Py.sum (map (fun entry =>
                 pollution_function self x (distance entry.2) (waste entry.2))
              sources).

(** [width_factor] of [create_river_mesh], on one sample. *)
Definition width_factor_at (scale x : R) : R :=
  river_width_at scale x / (2 * scale).

(** The arrays of a model have the shapes that [create_river_mesh] gives
    them: [resolution] longitudinal samples, [lateral_samples] lateral
    ones, and [len(y_river)] rows by [len(x_river)] columns for the grids. *)
Definition mesh_shape (self : MantaroRiverModel) : Prop :=
  length (x_river self) = Z.to_nat (resolution self) /\
  length (y_river self) = Z.to_nat (lateral_samples self) /\
  Np.has_shape (X self) (length (y_river self)) (length (x_river self)) /\
  Np.has_shape (Y_adjusted self)
               (length (y_river self)) (length (x_river self)).

(** The values that [create_river_mesh] stores in the arrays. *)
Definition mesh_values (self : MantaroRiverModel) : Prop :=
  (forall i, (i < length (x_river self))%nat ->
     x_river self !!! i
     = Np.linspace_at 0 (river_length self) (resolution self) i) /\
  (forall j, (j < length (y_river self))%nat ->
     y_river self !!! j = Np.linspace_at (-2) 2 (lateral_samples self) j) /\
  (forall j i,
     (j < length (y_river self))%nat -> (i < length (x_river self))%nat ->
     Np.cell (Y_adjusted self) j i
     = y_river self !!! j
       * width_factor_at (river_width_scale self) (x_river self !!! i)
       + y_center_at (x_river self !!! i)).

(** What a call of [calculate_pollution_field] reads of a source. *)
Definition source_of (entry : string * City) : R * R :=
  (distance entry.2, waste entry.2).

(** Two small hand-written models, used to exercise the statements below.
    They have one grid and one decay constant, and differ in everything
    else: the river length, a colour, the lateral samples, the
    unadjusted grid [Y] and the data of the city that is not active. *)
Definition sample_model : MantaroRiverModel := {|
  cities_data :=
    [ ("Jauja"%string,
        {| distance := 53; waste := 10.5; color := "#FF8800" |});
      ("Huancayo"%string,
        {| distance := 103; waste := 382.5; color := "#FF0000" |}) ];
  k := 0.2;
  river_length := 114;
  river_width_scale := 2;
  resolution := 2;
  lateral_samples := 1;
  x_river := [0; 114];
  y_river := [-2];
  X := [[0; 114]];
  Y := [[-2; -2]];
  Y_adjusted := [[-30; -29]]
|}.

Definition sample_model_variant : MantaroRiverModel := {|
  cities_data :=
    [ ("Jauja"%string,
        {| distance := 53; waste := 10.5; color := "#000000" |});
      ("Huancayo"%string,
        {| distance := 90; waste := 1; color := "#FF0000" |}) ];
  k := 0.2;
  river_length := 200;
  river_width_scale := 3;
  resolution := 2;
  lateral_samples := 1;
  x_river := [0; 114];
  y_river := [7];
  X := [[0; 114]];
  Y := [[7; 7]];
  Y_adjusted := [[-30; -29]]
|}.


(** [create_terrain_elevation]: the arrays [Z_terrain] and [Z_riverbed],
    cell by cell from [X] and [Y_adjusted]. *)
Definition base_elevation_at (x : R) : R := 3200 - x * 8.
Definition river_depression_at (y : R) : R := 2 * exp (- ((y / 0.5) ^ 2)).
Definition valley_slopes_at (y : R) : R := 50 * Np.abs_pow_3_2 y.
Definition roughness_at (x y : R) : R := 5 * sin (x * 0.1) * cos (y * 0.2).

Definition Z_terrain_at (x y : R) : R :=
  base_elevation_at x + valley_slopes_at y - river_depression_at y
  + roughness_at x y.
Definition Z_riverbed_at (x y : R) : R :=
  base_elevation_at x - river_depression_at y - 2.

Definition create_terrain_elevation (self : MantaroRiverModel)
  : list (list R) * list (list R) :=
  (Np.zip2 Z_terrain_at (X self) (Y_adjusted self),
   Np.zip2 Z_riverbed_at (X self) (Y_adjusted self)).

(** [create_water_surface]: the array [Z_water] from [Z_riverbed]. *)
Definition water_depth_at (x : R) : R := 1.5 + 0.5 * sin (x * 0.05).
Definition surface_waves_at (x y : R) : R :=
  0.1 * sin (x * 0.3) * cos (y * 0.5).

Definition create_water_surface (self : MantaroRiverModel)
    (Z_riverbed : list (list R)) : list (list R) :=
  Np.zip2 Rplus
    (Np.zip2 Rplus Z_riverbed
       (map (map water_depth_at) (X self)))
    (Np.zip2 surface_waves_at (X self) (Y_adjusted self)).

(** The loop at the end of the script: for each analysis point the largest
    concentration of its column, when the column index is below
    [resolution]. *)
Definition analyse_point (model : MantaroRiverModel)
    (pollution_field : list (list R)) (point : R)
    (report : list (R * R)) : option (list (R * R)) :=
  q ← Py.div (point * IZR (resolution model)) (river_length model);
  let idx := Py.int q in
  if decide (idx < resolution model)%Z then
    column ← mapM (fun row : list R => Py.getitem row idx) pollution_field;
    max_concentration ← Np.max column;
    Some (report ++ [(point, max_concentration)])
  else Some report.

Definition analysis (model : MantaroRiverModel)
    (analysis_points : list R) : option (list (R * R)) :=
  pollution_field ← calculate_pollution_field model None;
  Py.for_each (analyse_point model pollution_field) analysis_points [].

(** [create_flow_vectors]: the sampled grids and the three velocity
    components; [Z_water] is passed in. *)
Definition create_flow_vectors (self : MantaroRiverModel)
    (Z_water : list (list R))
  : list (list R) * list (list R) * list (list R)
    * list (list R) * list (list R) * list (list R) :=
  let step := 10%nat in
  let x_vec := Np.every2 step (X self) in
  let y_vec := Np.every2 step (Y_adjusted self) in
  let z_vec := Np.every2 step Z_water in
  let u := map (map (fun _ => 1 * 0.5)) x_vec in
  let v := Np.zip2 (fun x y => 0.1 * sin (x * 0.1) * cos (y * 0.5))
                   x_vec y_vec in
  let w := Np.zip2 (fun x y => 0.05 * sin (x * 0.2) * sin (y * 0.3))
                   x_vec y_vec in
  (x_vec, y_vec, z_vec, u, v, w).

(** A particle of [create_animation_frames]. *)
Record FlowParticle := { fp_x : R; fp_y : R; fp_z : R; fp_age : Z }.

(** The body of [for particle in particles] in [create_animation_frames].
    [rnd] is the sequence of values that the coming calls of [np.random]
    return; the body uses one value, or two when the particle leaves the
    domain. *)
Definition move_flow_particle (self : MantaroRiverModel)
    (particle : FlowParticle) (rnd : nat -> R)
  : FlowParticle * (nat -> R) :=
  let x1 := fp_x particle + 2.0 in
  let y1 := fp_y particle + rnd 0%nat in
  let age1 := (fp_age particle + 1)%Z in
  if decide (x1 > river_length self)
  then ({| fp_x := 0; fp_y := rnd 1%nat; fp_z := fp_z particle;
           fp_age := 0 |},
        fun n => rnd (S (S n)))
  else ({| fp_x := x1; fp_y := y1; fp_z := fp_z particle; fp_age := age1 |},
        fun n => rnd (S n)).

(** One pass of the inner loop over all particles. *)
Fixpoint move_flow_particles (self : MantaroRiverModel)
    (particles : list FlowParticle) (rnd : nat -> R)
  : list FlowParticle * (nat -> R) :=
  match particles with
  | [] => ([], rnd)
  | particle :: rest =>
      let r := move_flow_particle self particle rnd in
      let r' := move_flow_particles self rest r.2 in
      (r.1 :: r'.1, r'.2)
  end.

(** The particles after the [n_frames] passes of
    [create_animation_frames]; the frames it builds are plotting objects. *)
Fixpoint animate_flow_particles (self : MantaroRiverModel) (n_frames : nat)
    (particles : list FlowParticle) (rnd : nat -> R)
  : list FlowParticle * (nat -> R) :=
  match n_frames with
  | O => (particles, rnd)
  | S n =>
      let r := move_flow_particles self particles rnd in
      animate_flow_particles self n r.1 r.2
  end.

(** A flow particle lies on the river and has moved 2 km per frame of
    its age since it last entered at kilometre 0 or later. *)
Definition in_river (self : MantaroRiverModel) (p : FlowParticle) : Prop :=
  0 <= fp_x p <= river_length self /\
  (0 <= fp_age p)%Z /\ IZR (fp_age p) * 2 <= fp_x p.

End Prototipo1.

(** ** prototipo_final.py *)

Module PrototipoFinal.

(** An entry of [cities_data].  [z_pos] is absent until
    [create_river_path] assigns it. *)
Record City := {
  distance : R;
  waste : R;
  color : string;
  elevation : R;
  x_pos : R;
  y_pos : R;
  z_pos : option R
}.

(** A particle dictionary.  Its keys ['id'] and ['color'] are the fields
    [pid] and [pcolor]. *)
Record Particle := {
  pid : Z;
  x : R;
  y : R;
  z : R;
  age : Z;
  source_city : string;
  pcolor : string;
  size : R;
  Bi : R;
  xi : R;
  opacity : R
}.

(** The state of a [MantaroRiverAnimation].  [np_random] is the process-wide
    NumPy generator, seen as the sequence of values that the coming calls
    of [np.random.normal(0, 0.05)] return. *)
Record MantaroRiverAnimation := {
  cities_data : list (string * City);
  river_length : R;
  k : R;
  resolution : Z;
  animation_speed : R;
  n_frames : Z;
  x_river : list R;
  y_river : list R;
  z_river : list R;
  river_width : list R;
  waste_particles : list Particle;
  particle_id : Z;
  np_random : nat -> R
}.

Definition set_particles (self : MantaroRiverAnimation)
    (ps : list Particle) (next_id : Z) (rnd : nat -> R)
  : MantaroRiverAnimation :=
  {| cities_data := cities_data self;
     river_length := river_length self;
     k := k self;
     resolution := resolution self;
     animation_speed := animation_speed self;
     n_frames := n_frames self;
     x_river := x_river self;
     y_river := y_river self;
     z_river := z_river self;
     river_width := river_width self;
     waste_particles := ps;
     particle_id := next_id;
     np_random := rnd |}.

(** The attribute values that [__init__] writes down as literals.
    [__init__] takes no argument: the code runs with the values of
    [literals] below and with no others. *)
Record Literals := {
  lit_cities_data : list (string * City);
  lit_river_length : R;
  lit_k : R;
  lit_resolution : Z;
  lit_animation_speed : R;
  lit_n_frames : Z
}.

Definition literals : Literals := {|
  lit_cities_data :=
    [ ("Yauli (La Oroya)"%string,
        {| distance := 0; waste := 27.1; color := "#FF4444";
           elevation := 3700; x_pos := 0; y_pos := 0; z_pos := None |});
      ("Jauja"%string,
        {| distance := 53; waste := 10.5; color := "#FF8800";
           elevation := 3400; x_pos := 53; y_pos := 0; z_pos := None |});
      ("Concepción"%string,
        {| distance := 81; waste := 38.8; color := "#FFBB00";
           elevation := 3300; x_pos := 81; y_pos := 0; z_pos := None |});
      ("Huancayo"%string,
        {| distance := 103; waste := 382.5; color := "#FF0000";
           elevation := 3200; x_pos := 103; y_pos := 0; z_pos := None |});
      ("Chupaca"%string,
        {| distance := 114; waste := 18.9; color := "#AA4444";
           elevation := 3100; x_pos := 114; y_pos := 0; z_pos := None |}) ];
  lit_river_length := 144;
  lit_k := 0.2;
  lit_resolution := 200;
  lit_animation_speed := 2.0;
  lit_n_frames := 60
|}.

(** The three meander terms, the elevation and the width of
    [create_river_path], on one sample. *)
Definition y_river_at (x : R) : R :=
  8 * sin (0.02 * x * 2 * PI)
  + 3 * sin (0.05 * x * 2 * PI + 1.5)
  + 1.5 * sin (0.1 * x * 2 * PI + 3).
Definition z_river_at (x : R) : R := 3700 - x * 5.2.
Definition river_width_at (x : R) : R := 0.8 + 0.4 * sin (0.03 * x * 2 * PI).

(** The loop of [create_river_path] that places a city on the river; the
    warning it prints in its last branch is not modelled. *)
Definition place_city (river_length : R) (resolution : Z)
    (y_river z_river : list R) (data : City) : option City :=
  q ← Py.div (distance data * IZR resolution) river_length;
  let idx := Py.int q in
  let idx := if decide (idx >= Z.of_nat (length y_river))%Z
             then (Z.of_nat (length y_river) - 1)%Z else idx in
  if decide (idx >= 0)%Z then
    yp ← Py.getitem y_river idx;
    zr ← Py.getitem z_river idx;
    Some {| distance := distance data; waste := waste data;
            color := color data; elevation := elevation data;
            x_pos := x_pos data; y_pos := yp; z_pos := Some (zr + 20) |}
  else Some data.

(** [create_river_path]: the sampled river and the cities placed on it. *)
Definition create_river_path (river_length : R) (resolution : Z)
    (cities : list (string * City))
  : option (list R * list R * list R * list R * list (string * City)) :=
  x_river ← Np.linspace 0 river_length resolution;
  let y_river := map y_river_at x_river in
  let z_river := map z_river_at x_river in
  let river_width := map river_width_at x_river in
  cities ← mapM (fun entry : string * City =>
                   data ← place_city river_length resolution
                                     y_river z_river entry.2;
                   Some (entry.1, data))
                cities;
  Some (x_river, y_river, z_river, river_width, cities).

(** [__init__], from its literals and the state [rnd] of the NumPy
    generator at the time of the call. *)
Definition __init__ (l : Literals) (rnd : nat -> R)
  : option MantaroRiverAnimation :=
  path ← create_river_path (lit_river_length l) (lit_resolution l)
                           (lit_cities_data l);
  Some {| cities_data := path.2;
          river_length := lit_river_length l;
          k := lit_k l;
          resolution := lit_resolution l;
          animation_speed := lit_animation_speed l;
          n_frames := lit_n_frames l;
          x_river := path.1.1.1.1;
          y_river := path.1.1.1.2;
          z_river := path.1.1.2;
          river_width := path.1.2;
          waste_particles := [];
          particle_id := 0;
          np_random := rnd |}.

(** [pollution_function(self, x, xi, Bi)]. *)
Definition pollution_function (self : MantaroRiverAnimation) (x xi Bi : R)
  : R :=
  if decide (x < xi) then 0
  else Bi * k self * exp (- k self * (x - xi)).

(** [n_particles] of a city, as [add_waste_particles] and [create_frame]
    both compute it. *)
Definition n_particles (city : string) (data : City) : Z :=
  if decide (city = "Huancayo"%string)
  then Z.min 10 (Z.max 1 (Py.round (waste data / 40)))
  else Z.max 1 (Py.round (waste data / 3)).

(** The body of [for i in range(n_particles)]: one particle is appended
    when its river index is below [len(y_river)]. *)
Definition spawn (city : string) (data : City) (particle_size : R) (i : nat)
    (self : MantaroRiverAnimation) : option MantaroRiverAnimation :=
  let delta_x := INR i * 0.5 in
  let px := distance data - delta_x in
  let px := if decide (px < 0) then distance data else px in
  q ← Py.div (px * IZR (resolution self)) (river_length self);
  let idx := Py.int q in
  if decide (idx < Z.of_nat (length (y_river self)))%Z then
    yr ← Py.getitem (y_river self) idx;
    zr ← Py.getitem (z_river self) idx;
    let particle :=
      {| pid := particle_id self; x := px; y := yr; z := zr + 1; age := 0;
         source_city := city; pcolor := color data; size := particle_size;
         Bi := waste data; xi := distance data; opacity := 1.0 |} in
    Some (set_particles self (waste_particles self ++ [particle])
                        (particle_id self + 1) (np_random self))
  else Some self.

(** [add_waste_particles(self, current_x, frame)]. *)
Definition add_waste_particles (current_x : R) (frame : Z)
    (self : MantaroRiverAnimation) : option MantaroRiverAnimation :=
  Py.for_each
    (fun (entry : string * City) self =>
       if decide (Rabs (current_x - distance entry.2) < 2) then
         let particle_size :=
           if decide (entry.1 = "Huancayo"%string) then 0.5 else 40 in
         Py.for_each (spawn entry.1 entry.2 particle_size)
                     (Py.range (n_particles entry.1 entry.2)) self
       else Some self)
    (cities_data self) self.

(** The per-particle body of the loop of [update_particles].  It returns
    the updated particle, the grown [particles_to_remove] and the rest of
    the random sequence. *)
Definition update_particle (self : MantaroRiverAnimation) (i : nat)
    (particle : Particle) (particles_to_remove : list nat) (rnd : nat -> R)
  : option (Particle * list nat * (nat -> R)) :=
  let x1 := x particle + animation_speed self * 0.8 in
  let age1 := (age particle + 1)%Z in
  yzr ←
    (if decide (x1 < river_length self) then
       q ← Py.div (x1 * IZR (resolution self)) (river_length self);
       let idx := Py.int q in
       if decide (idx < Z.of_nat (length (y_river self)))%Z then
         target_y ← Py.getitem (y_river self) idx;
         zr ← Py.getitem (z_river self) idx;
         Some (y particle + ((target_y - y particle) * 0.1 + rnd 0%nat),
               zr + 1, fun n => rnd (S n))
       else Some (y particle, z particle, rnd)
     else Some (y particle, z particle, rnd));
  let x_disp := x1 - xi particle in
  let Cx := Bi particle * k self * exp (- k self * x_disp) in
  let size1 :=
    if decide (source_city particle = "Huancayo"%string)
    then Rmax 1 (Cx * 0.5) else Rmax 20 (Cx * 4) in
  let opacity1 :=
    if decide (source_city particle <> "Huancayo"%string)
    then Rmin 1.0 (Rmax 0.7 (Cx / Bi particle))
    else Rmin 1.0 (Rmax 0.1 (Cx / Bi particle)) in
  let rm1 := if decide (Cx <= 0.1) then particles_to_remove ++ [i]
             else particles_to_remove in
  let rm2 := if decide (x1 > river_length self \/ (age1 > 100)%Z)
             then rm1 ++ [i] else rm1 in
  Some ({| pid := pid particle; x := x1; y := yzr.1.1; z := yzr.1.2;
           age := age1; source_city := source_city particle;
           pcolor := pcolor particle; size := size1; Bi := Bi particle;
           xi := xi particle; opacity := opacity1 |},
        rm2, yzr.2).

(** [for i, particle in enumerate(self.waste_particles)], from index [i]. *)
Fixpoint update_loop (self : MantaroRiverAnimation) (i : nat)
    (particles : list Particle) (particles_to_remove : list nat)
    (rnd : nat -> R) : option (list Particle * list nat * (nat -> R)) :=
  match particles with
  | [] => Some ([], particles_to_remove, rnd)
  | particle :: rest =>
      r ← update_particle self i particle particles_to_remove rnd;
      r' ← update_loop self (S i) rest r.1.2 r.2;
      Some (r.1.1 :: r'.1.1, r'.1.2, r'.2)
  end.

(** [sorted(set(l), reverse=True)]. *)
Definition sorted_set_reverse (l : list nat) : list nat :=
  merge_sort ge (remove_dups l).

(** [l.pop(i)] for a non-negative [i]; [None] stands for [IndexError]. *)
Definition pop {A} (i : nat) (l : list A) : option (list A) :=
  if decide (i < length l)%nat then Some (delete i l) else None.

(** [update_particles(self)]. *)
Definition update_particles (self : MantaroRiverAnimation)
  : option MantaroRiverAnimation :=
  r ← update_loop self 0 (waste_particles self) [] (np_random self);
  ps ← Py.for_each pop (sorted_set_reverse r.1.2) r.1.1;
  Some (set_particles self ps (particle_id self) r.2).

(** [self.waste_particles[-200:]] *)
Definition last_200 {A} (l : list A) : list A :=
  drop (length l - 200) l.

(** The state change of [create_frame(self, frame_num)]: the first half
    of the function, up to and with the call of [update_particles].  The
    second half builds the plotting traces from the new state and assigns
    no attribute; it is not part of this definition, so [Some] says that
    the state change completes and what the state then is, and nothing
    about whether the drawing code after it raises. *)
Definition create_frame (frame_num : Z) (self : MantaroRiverAnimation)
  : option MantaroRiverAnimation :=
  let current_x := IZR frame_num * animation_speed self in
  self ← add_waste_particles current_x frame_num self;
  self ←
    (if decide (frame_num mod 10 = 0)%Z then
       Py.for_each
         (fun (entry : string * City) self =>
            let particle_size :=
              if decide (entry.1 = "Huancayo"%string) then 18 else 80 in
            Py.for_each (spawn entry.1 entry.2 particle_size)
                        (Py.range (n_particles entry.1 entry.2)) self)
         (cities_data self) self
     else Some self);
  let self :=
    if decide (length (waste_particles self) > 200)%nat
    then set_particles self (last_200 (waste_particles self))
                       (particle_id self) (np_random self)
    else self in
  update_particles self.

(** What [update_particles] keeps: the value [Cx] of a particle and the
    test that none of the two removal conditions holds. *)
Definition Cx (self : MantaroRiverAnimation) (p : Particle) : R :=
  Bi p * k self * exp (- k self * (x p - xi p)).

Definition kept (self : MantaroRiverAnimation) (p : Particle) : Prop :=
  x p <= river_length self /\ (age p <= 100)%Z /\ Cx self p > 0.1.

#[global] Instance kept_decision self p : Decision (kept self p).
Proof. unfold kept. apply _. Defined.

(** One iteration of the loop of [update_particles] moves a particle
    downstream by [animation_speed * 0.8] and makes it one frame older; its
    source data are unchanged. *)
Definition stepped (self : MantaroRiverAnimation) (p p' : Particle) : Prop :=
  x p' = x p + animation_speed self * 0.8 /\
  age p' = (age p + 1)%Z /\
  Bi p' = Bi p /\ xi p' = xi p /\
  pid p' = pid p /\ source_city p' = source_city p /\ pcolor p' = pcolor p.

(** [self'] has the river, the cities and the parameters of [self]; only
    the particles, the next particle id and the random sequence may
    differ. *)
Definition same_river (self self' : MantaroRiverAnimation) : Prop :=
  cities_data self' = cities_data self /\
  river_length self' = river_length self /\
  k self' = k self /\
  resolution self' = resolution self /\
  animation_speed self' = animation_speed self /\
  n_frames self' = n_frames self /\
  x_river self' = x_river self /\
  y_river self' = y_river self /\
  z_river self' = z_river self /\
  river_width self' = river_width self.

(** States on which no index or division of the state changes can fail:
    the river has a positive length, both arrays that are read by index
    have one length, and no city or particle lies before kilometre 0.
    Every state that the constructor and the state change of
    [create_frame] produce is of this kind. *)
Definition state_ok (self : MantaroRiverAnimation) : Prop :=
  0 < river_length self /\
  (0 <= resolution self)%Z /\
  0 <= animation_speed self /\
  length (z_river self) = length (y_river self) /\
  Forall (fun entry : string * City => 0 <= distance entry.2)
         (cities_data self) /\
  Forall (fun p => 0 <= x p) (waste_particles self).

(** [create_river_surface]: the left and the right bank, one row
    [[x, y - width, z]] or [[x, y + width, z]] per river sample. *)
Definition add_banks (self : MantaroRiverAnimation) (i : nat)
    (banks : list (list R) * list (list R))
  : option (list (list R) * list (list R)) :=
  width ← river_width self !! i;
  xr ← x_river self !! i;
  yr ← y_river self !! i;
  zr ← z_river self !! i;
  Some (banks.1 ++ [[xr; yr - width; zr]],
        banks.2 ++ [[xr; yr + width; zr]]).

Definition create_river_surface (self : MantaroRiverAnimation)
  : option (list (list R) * list (list R)) :=
  Py.for_each (add_banks self) (seq 0 (length (x_river self))) ([], []).

(** The marker that [create_frame] draws for a particle: the river sample
    at the particle's index, raised by 1, or no marker when the index is
    not below [len(y_river)]. *)
Definition particle_marker (self : MantaroRiverAnimation)
    (particle : Particle) : option (option (R * R * R)) :=
  q ← Py.div (x particle * IZR (resolution self)) (river_length self);
  let idx := Py.int q in
  if decide (idx < Z.of_nat (length (y_river self)))%Z then
    xr ← Py.getitem (x_river self) idx;
    yr ← Py.getitem (y_river self) idx;
    zr ← Py.getitem (z_river self) idx;
    Some (Some (xr, yr, zr + 1))
  else Some None.

(** The states that an animation passes through from the state [self0]:
    [self0] itself and every state that the state change of a frame, of
    any number, leaves.  [create_animation] calls [create_frame] for the
    numbers of [range(n_frames)] and then for 0 once more; the states it
    goes through are among these. *)
Inductive reaches (self0 : MantaroRiverAnimation)
  : MantaroRiverAnimation -> Prop :=
  | reaches_start : reaches self0 self0
  | reaches_frame frame_num self self' :
      reaches self0 self ->
      create_frame frame_num self = Some self' ->
      reaches self0 self'.

(** A particle as [spawn] makes it for a city of [self]: new, carrying the
    city's name, location, rate and colour, and placed at or before the
    city, not before kilometre 0. *)
Definition spawned (self : MantaroRiverAnimation) (p : Particle) : Prop :=
  age p = 0%Z /\
  exists entry : string * City,
    entry ∈ cities_data self /\
    source_city p = entry.1 /\ xi p = distance entry.2 /\
    Bi p = waste entry.2 /\ pcolor p = color entry.2 /\
    0 <= x p <= distance entry.2.

(** [self'] is [self] with the particles [added] appended and numbered
    from [particle_id self] on. *)
Definition appended (self self' : MantaroRiverAnimation)
    (added : list Particle) : Prop :=
  same_river self self' /\
  np_random self' = np_random self /\
  waste_particles self' = waste_particles self ++ added /\
  particle_id self' = (particle_id self + Z.of_nat (length added))%Z /\
  Forall (spawned self) added /\
  forall n p, added !! n = Some p ->
              pid p = (particle_id self + Z.of_nat n)%Z.

(** The particle ids are increasing along the list and below the next
    id. *)
Definition ids_ok (self : MantaroRiverAnimation) : Prop :=
  StronglySorted Z.lt (map pid (waste_particles self)) /\
  Forall (fun p => (pid p < particle_id self)%Z) (waste_particles self).

(** A particle has moved [animation_speed * 0.8] per frame of its age from
    a start at or after kilometre 0. *)
Definition aged (self : MantaroRiverAnimation) (p : Particle) : Prop :=
  (0 <= age p)%Z /\ IZR (age p) * (animation_speed self * 0.8) <= x p.

(** A particle carries the location and the rate of the city it is named
    after. *)
Definition sourced (self : MantaroRiverAnimation) (p : Particle) : Prop :=
  exists entry : string * City,
    entry ∈ cities_data self /\
    source_city p = entry.1 /\ xi p = distance entry.2 /\
    Bi p = waste entry.2.

(** A small hand-written state with one city and two particles, used to
    exercise the statements below. *)
Definition sample_state : MantaroRiverAnimation := {|
  cities_data :=
    [ ("Jauja"%string,
        {| distance := 53; waste := 10.5; color := "#FF8800";
           elevation := 3400; x_pos := 53; y_pos := 0; z_pos := None |}) ];
  river_length := 144;
  k := 0.2;
  resolution := 2;
  animation_speed := 2.0;
  n_frames := 60;
  x_river := [0; 144];
  y_river := [0; 1];
  z_river := [3700; 2951.2];
  river_width := [0.8; 0.8];
  waste_particles :=
    [ {| pid := 0; x := 53; y := 0; z := 3701; age := 0;
         source_city := "Jauja"; pcolor := "#FF8800"; size := 40;
         Bi := 10.5; xi := 53; opacity := 1.0 |};
      {| pid := 1; x := 52.5; y := 0; z := 3701; age := 100;
         source_city := "Jauja"; pcolor := "#FF8800"; size := 40;
         Bi := 10.5; xi := 53; opacity := 1.0 |} ];
  particle_id := 2;
  np_random := fun _ => 0
|}.

(** The river arrays have [resolution] samples each, at least one, and
    [x_river] holds the samples of [np.linspace(0, river_length,
    resolution)], as after [create_river_path]. *)
Definition river_sampled (self : MantaroRiverAnimation) : Prop :=
  0 < river_length self /\
  (0 < resolution self)%Z /\
  length (x_river self) = Z.to_nat (resolution self) /\
  length (y_river self) = Z.to_nat (resolution self) /\
  length (z_river self) = Z.to_nat (resolution self) /\
  forall i, (i < Z.to_nat (resolution self))%nat ->
    x_river self !!! i
    = Np.linspace_at 0 (river_length self) (resolution self) i.

(** A state with 201 particles that have just left Jauja, numbered from 0
    on: one more than [create_frame] keeps. *)
Definition sample_state_full : MantaroRiverAnimation :=
  set_particles sample_state
    (map (fun n : nat =>
            {| pid := Z.of_nat n; x := 53; y := 0; z := 3701; age := 0;
               source_city := "Jauja"; pcolor := "#FF8800"; size := 40;
               Bi := 10.5; xi := 53; opacity := 1.0 |})
         (seq 0 201))
    201 (fun _ => 0).

End PrototipoFinal.

(** ** prototipo3.py *)

Module Prototipo3.

(** An entry of the dictionary [self.zonas]. *)
Record Zona := {
  inicio : Z;
  fin : Z;
  zcolor : string;
  factor_contaminacion : R
}.

(** A particle dictionary; the key ['tamaño'] is the field [tamano]. *)
Record Particula := {
  x : R;
  y : R;
  z : R;
  idx_cauce : R;
  velocidad : R;
  oscilacion_y : R;
  oscilacion_z : R;
  color : string;
  tamano : R;
  zona : string
}.

(** The attributes of a [RioMantaroSimulator] that the river surface and
    the particles read.  The river arrays come out of [CubicSpline] and
    are taken as they are.  [longitud_rio] and the bounds of the zones
    are Python integers. *)
Record RioMantaroSimulator := {
  longitud_rio : Z;
  ancho_rio : R;
  zonas : list (string * Zona);
  cauce_x : list R;
  cauce_y : list R;
  cauce_z : list R;
  direcciones : list (list R);
  particulas : list Particula;
  max_particulas : Z
}.

(** [self.particulas = ps]. *)
Definition set_particulas (self : RioMantaroSimulator)
    (ps : list Particula) : RioMantaroSimulator :=
  {| longitud_rio := longitud_rio self; ancho_rio := ancho_rio self;
     zonas := zonas self;
     cauce_x := cauce_x self; cauce_y := cauce_y self;
     cauce_z := cauce_z self; direcciones := direcciones self;
     particulas := ps; max_particulas := max_particulas self |}.

(** The dictionary [self.zonas] of [__init__]. *)
Definition zonas_init : list (string * Zona) :=
  [ ("La Oroya", {| inicio := 0; fin := 25; zcolor := "red";
                    factor_contaminacion := 1.5 |});
    ("El Tambo", {| inicio := 40; fin := 70; zcolor := "orange";
                    factor_contaminacion := 1.2 |});
    ("Chilca", {| inicio := 80; fin := 100; zcolor := "yellow";
                  factor_contaminacion := 1.0 |});
    ("Huancayo", {| inicio := 110; fin := 140; zcolor := "lightcoral";
                    factor_contaminacion := 1.3 |}) ].

(** The body of the loop of [calcular_direcciones]. *)
Definition direccion (cauce_x cauce_y cauce_z : list R) (i : nat)
    (direcciones : list (list R)) : option (list (list R)) :=
  x1 ← cauce_x !! (i + 1)%nat; x0 ← cauce_x !! i;
  let dx := x1 - x0 in
  y1 ← cauce_y !! (i + 1)%nat; y0 ← cauce_y !! i;
  let dy := y1 - y0 in
  z1 ← cauce_z !! (i + 1)%nat; z0 ← cauce_z !! i;
  let dz := z1 - z0 in
  let mag := sqrt (dx ^ 2 + dy ^ 2 + dz ^ 2) in
  if decide (mag > 0)
  then Some (direcciones ++ [[dx / mag; dy / mag; dz / mag]])
  else Some (direcciones ++ [[1; 0; 0]]).

(** [calcular_direcciones], from the three river arrays. *)
Definition calcular_direcciones (cauce_x cauce_y cauce_z : list R)
  : option (list (list R)) :=
  direcciones ←
    Py.for_each (direccion cauce_x cauce_y cauce_z)
                (Py.range (Z.of_nat (length cauce_x) - 1)) [];
  ultima ← Py.getitem direcciones (-1);
  Some (direcciones ++ [ultima]).

(** [dir_x, dir_y, dir_z = row]: a row of three entries. *)
Definition unpack3 (row : list R) : option (R * R * R) :=
  match row with
  | [a; b; c] => Some (a, b, c)
  | _ => None
  end.

(** The three lists [superficie_x], [superficie_y], [superficie_z]. *)
Definition Superficie : Type := list R * list R * list R.

(** The body of the inner loop of [generar_superficie_rio]. *)
Definition punto_superficie (self : RioMantaroSimulator) (i : nat)
    (perp_x perp_z : R) (j : Z) (s : Superficie) : option Superficie :=
  let factor := IZR j / 10.0 * ancho_rio self in
  cx ← cauce_x self !! i;
  cy ← cauce_y self !! i;
  cz ← cauce_z self !! i;
  Some (s.1.1 ++ [cx + perp_x * factor], s.1.2 ++ [cy],
        s.2 ++ [cz + perp_z * factor]).

(** The body of the outer loop of [generar_superficie_rio]. *)
Definition fila_superficie (self : RioMantaroSimulator) (i : nat)
    (s : Superficie) : option Superficie :=
  if decide (i < length (direcciones self))%nat then
    row ← direcciones self !! i;
    d ← unpack3 row;
    let perp_x := - d.2 in
    let perp_z := d.1.1 in
    let mag := sqrt (perp_x ^ 2 + perp_z ^ 2) in
    let perp := if decide (mag > 0)
                then (perp_x / mag, perp_z / mag)
                else (perp_x, perp_z) in
    Py.for_each (punto_superficie self i perp.1 perp.2)
                (Py.range2 (-10) 11) s
  else Some s.

(** [generar_superficie_rio(self)]. *)
Definition generar_superficie_rio (self : RioMantaroSimulator)
  : option Superficie :=
  let n_puntos := Z.of_nat (length (cauce_x self)) in
  Py.for_each (fila_superficie self) (Py.range n_puntos) ([], [], []).

(** The values that the [random] module hands to one call of
    [crear_particula], in the order of the calls. *)
Record Draws := {
  randint_idx : Z;
  uniform_offset_lateral : R;
  uniform_y : R;
  uniform_velocidad : R;
  uniform_oscilacion_y : R;
  uniform_oscilacion_z : R;
  uniform_tamano : R
}.

(** [random.randint(a, b)] that draws [drawn]; [None] stands for the
    [ValueError] of an empty range. *)
Definition randint (a b drawn : Z) : option Z :=
  if decide (a <= b)%Z then Some drawn else None.

(** [int((km / self.longitud_rio) * len(self.cauce_x))] for a bound [km]
    of a zone: a quotient of two Python integers, a product with a third
    and a truncation, all on binary64 numbers.  [None] stands for the
    [ZeroDivisionError] of a river of length 0. *)
Definition indice_zona (self : RioMantaroSimulator) (km : Z) : option Z :=
  if decide (longitud_rio self = 0)%Z then None
  else
    Binary64.int
      (PrimFloat.mul
         (PrimFloat.div (Binary64.of_int km)
                        (Binary64.of_int (longitud_rio self)))
         (Binary64.of_int (Z.of_nat (length (cauce_x self))))).

(** [crear_particula(self, zona, kg_basura)] with the draws [d]. *)
Definition crear_particula (self : RioMantaroSimulator) (zona : string)
    (kg_basura : R) (d : Draws) : option Particula :=
  zona_info ← Py.dict_getitem (zonas self) zona;
  let n := Z.of_nat (length (cauce_x self)) in
  inicio_idx ← indice_zona self (inicio zona_info);
  fin_idx ← indice_zona self (fin zona_info);
  idx ← randint inicio_idx (Z.min fin_idx (n - 1)) (randint_idx d);
  let offset_lateral := uniform_offset_lateral d in
  perp ←
    (if decide (idx < Z.of_nat (length (direcciones self)))%Z then
       row ← Py.getitem (direcciones self) idx;
       dir ← unpack3 row;
       let perp_x := - dir.2 in
       let perp_z := dir.1.1 in
       let mag := sqrt (perp_x ^ 2 + perp_z ^ 2) in
       if decide (mag > 0)
       then Some (perp_x / mag, perp_z / mag)
       else Some (perp_x, perp_z)
     else Some (0, 0));
  cx ← Py.getitem (cauce_x self) idx;
  let x := cx + perp.1 * offset_lateral in
  cy ← Py.getitem (cauce_y self) idx;
  let y := cy + uniform_y d in
  cz ← Py.getitem (cauce_z self) idx;
  let z := cz + perp.2 * offset_lateral in
  let concentracion := kg_basura / 1000 in
  let color :=
    if decide (concentracion > 0.8) then "red"
    else if decide (concentracion > 0.5) then "orange"
    else if decide (concentracion > 0.2) then "yellow"
    else "lightgreen" in
  Some {| x := x; y := y; z := z; idx_cauce := IZR idx;
          velocidad := uniform_velocidad d * factor_contaminacion zona_info;
          oscilacion_y := uniform_oscilacion_y d;
          oscilacion_z := uniform_oscilacion_z d;
          color := color; tamano := uniform_tamano d; zona := zona |}.



(** The body of the loop of [agregar_basura]; [draws k] holds the values
    drawn in iteration [k]. *)
Definition agregar_particula (zona : string) (kg_basura : R)
    (draws : nat -> Draws) (k : nat) (self : RioMantaroSimulator)
  : option RioMantaroSimulator :=
  if decide (Z.of_nat (length (particulas self)) < max_particulas self)%Z
  then
    particula ← crear_particula self zona kg_basura (draws k);
    Some (set_particulas self (particulas self ++ [particula]))
  else Some self.

(** [agregar_basura(self, zona, kg_basura)]. *)
Definition agregar_basura (self : RioMantaroSimulator) (zona : string)
    (kg_basura : R) (draws : nat -> Draws) : option RioMantaroSimulator :=
  let num_particulas := Z.min (Py.int (kg_basura / 10)) 200 in
  Py.for_each (agregar_particula zona kg_basura draws)
              (Py.range num_particulas) self.

(** A row of three entries of Euclidean length 1. *)
Definition unit_row (row : list R) : Prop :=
  exists a b c, row = [a; b; c] /\ a ^ 2 + b ^ 2 + c ^ 2 = 1.

(** A simulator whose three river arrays and direction array have one
    length, each direction being a row of three entries. *)
Definition cauce_ok (self : RioMantaroSimulator) : Prop :=
  length (cauce_y self) = length (cauce_x self) /\
  length (cauce_z self) = length (cauce_x self) /\
  length (direcciones self) = length (cauce_x self) /\
  Forall (fun row => length row = 3%nat) (direcciones self).

(** A particle is still on the river after its next move. *)
Definition sigue (self : RioMantaroSimulator) (p : Particula) : Prop :=
  idx_cauce p + velocidad p < IZR (Z.of_nat (length (cauce_x self)) - 1).

#[global] Instance sigue_decision self p : Decision (sigue self p).
Proof. unfold sigue. apply _. Defined.


(** What the [random] module guarantees of the draws of one call of
    [crear_particula] for a zone whose bounds have the indices
    [inicio_idx] and [fin_idx]: [randint(a, b)] lies in [a..b],
    [uniform(a, b)] between [a] and [b]. *)
Definition draws_ok (self : RioMantaroSimulator) (inicio_idx fin_idx : Z)
    (d : Draws) : Prop :=
  let n := Z.of_nat (length (cauce_x self)) in
  (inicio_idx <= randint_idx d <= Z.min fin_idx (n - 1))%Z /\
  Rabs (uniform_offset_lateral d) <= Rabs (ancho_rio self) / 2 /\
  - 0.1 <= uniform_y d <= 0.1 /\
  0.5 <= uniform_velocidad d <= 1.5 /\
  0 <= uniform_oscilacion_y d <= 2 * PI /\
  0 <= uniform_oscilacion_z d <= 2 * PI /\
  0.3 <= uniform_tamano d <= 0.8.

(** A small hand-written simulator with a straight river of three points
    and two particles, the second about to leave. *)
Definition sample_rio : RioMantaroSimulator := {|
  longitud_rio := 150%Z;
  ancho_rio := 2.0;
  zonas := zonas_init;
  cauce_x := [0; 1; 2];
  cauce_y := [10; 9; 8];
  cauce_z := [0; 0; 0];
  direcciones := [[1; 0; 0]; [1; 0; 0]; [1; 0; 0]];
  particulas :=
    [ {| x := 0; y := 10; z := 0; idx_cauce := 0; velocidad := 0.5;
         oscilacion_y := 0; oscilacion_z := 0; color := "red";
         tamano := 0.5; zona := "La Oroya" |};
      {| x := 1; y := 9; z := 0; idx_cauce := 1.5; velocidad := 1;
         oscilacion_y := 0; oscilacion_z := 0; color := "red";
         tamano := 0.5; zona := "La Oroya" |} ];
  max_particulas := 3
|}.

(** Draws that put a particle on the first river point. *)
Definition sample_draws : Draws := {|
  randint_idx := 0;
  uniform_offset_lateral := 0.5;
  uniform_y := 0;
  uniform_velocidad := 1;
  uniform_oscilacion_y := 0;
  uniform_oscilacion_z := 0;
  uniform_tamano := 0.5
|}.

(** A simulator with as many river points as the script has, 600, all at
    one place, and with the zones of the script: what [crear_particula]
    makes of the bounds of the zones there. *)
Definition sample_rio_600 : RioMantaroSimulator := {|
  longitud_rio := 150%Z;
  ancho_rio := 2.0;
  zonas := zonas_init;
  cauce_x := replicate 600 0;
  cauce_y := replicate 600 0;
  cauce_z := replicate 600 0;
  direcciones := replicate 600 [1; 0; 0];
  particulas := [];
  max_particulas := 1000
|}.

(** Draws that put a particle on river point 439. *)
Definition sample_draws_439 : Draws := {|
  randint_idx := 439;
  uniform_offset_lateral := 0.5;
  uniform_y := 0;
  uniform_velocidad := 1;
  uniform_oscilacion_y := 0;
  uniform_oscilacion_z := 0;
  uniform_tamano := 0.5
|}.

End Prototipo3.

(** * Properties *)

(** ** Loops *)

Lemma for_each_app {A S} (f : A -> S -> option S) l1 l2 s :
  Py.for_each f (l1 ++ l2) s = s' ← Py.for_each f l1 s; Py.for_each f l2 s'.
Proof.
  revert s. induction l1 as [|a l1 IH]; intros s; simpl; [done|].
  destruct (f a s) as [s'|]; simpl; [apply IH|done].
Qed.

(** Total correctness of a loop from an invariant indexed by the number of
    iterations done. *)
Lemma for_each_inv {A S} (f : A -> S -> option S) (Inv : nat -> S -> Prop) l s :
  Inv 0%nat s ->
  (forall n a s, l !! n = Some a -> Inv n s ->
                 exists s', f a s = Some s' /\ Inv (Datatypes.S n) s') ->
  exists s', Py.for_each f l s = Some s' /\ Inv (length l) s'.
Proof.
  revert Inv s. induction l as [|a l IH]; intros Inv s H0 Hstep; simpl.
  - eauto.
  - destruct (Hstep 0%nat a s eq_refl H0) as (s1 & -> & H1). simpl.
    apply (IH (fun n => Inv (Datatypes.S n))); [done|].
    intros n b t Hb Ht. apply (Hstep (Datatypes.S n)); done.
Qed.

Lemma lookup_range n i : (Z.of_nat i < n)%Z -> Py.range n !! i = Some i.
Proof. intros. unfold Py.range. apply lookup_seq. lia. Qed.
Lemma length_range n : length (Py.range n) = Z.to_nat n.
Proof. apply length_seq. Qed.
Lemma lookup_range_inv n i a : Py.range n !! i = Some a -> a = i /\ (i < Z.to_nat n)%nat.
Proof. unfold Py.range. intros [? ?]%lookup_seq. split; lia. Qed.

(** ** Two-dimensional arrays *)

Lemma has_shape_lookup a rows cols j row :
  Np.has_shape a rows cols -> a !! j = Some row -> length row = cols.
Proof. intros [_ H] Hj. eapply Forall_lookup_1 in H; eauto. Qed.

Lemma has_shape_row a rows cols j :
  Np.has_shape a rows cols -> (j < rows)%nat ->
  exists row, a !! j = Some row /\ length row = cols.
Proof.
  intros Hs Hj. destruct (lookup_lt_is_Some_2 a j) as [row Hrow]; [destruct Hs; lia|].
  exists row. split; [done|]. eapply has_shape_lookup; eauto.
Qed.

Lemma get2_cell a rows cols j i :
  Np.has_shape a rows cols -> (j < rows)%nat -> (i < cols)%nat ->
  Np.get2 a j i = Some (Np.cell a j i).
Proof.
  intros Hs Hj Hi. destruct (has_shape_row _ _ _ _ Hs Hj) as (row & Hrow & Hlen).
  unfold Np.get2, Np.cell. rewrite Hrow. simpl.
  rewrite (list_lookup_total_correct _ _ _ Hrow).
  apply list_lookup_lookup_total_lt. lia.
Qed.

Lemma add2_spec a rows cols j i v :
  Np.has_shape a rows cols -> (j < rows)%nat -> (i < cols)%nat ->
  exists a', Np.add2 a j i v = Some a' /\ Np.has_shape a' rows cols /\
    forall j' i', Np.cell a' j' i' =
      if decide (j' = j /\ i' = i) then Np.cell a j i + v else Np.cell a j' i'.
Proof.
  intros Hs Hj Hi. destruct (has_shape_row _ _ _ _ Hs Hj) as (row & Hrow & Hlen).
  destruct (lookup_lt_is_Some_2 row i) as [c Hc]; [lia|].
  unfold Np.add2. rewrite Hrow. simpl. rewrite Hc. simpl.
  eexists. split; [done|]. split.
  - destruct Hs as [Hr Hall]. split; [by rewrite length_insert|].
    apply Forall_insert; [done|]. by rewrite length_insert.
  - intros j' i'. unfold Np.cell.
    destruct (decide (j' = j)) as [->|Hne].
    + rewrite list_lookup_total_insert_eq by (destruct Hs; lia).
      rewrite (list_lookup_total_correct _ _ _ Hrow).
      destruct (decide (i' = i)) as [->|Hne'].
      * rewrite list_lookup_total_insert_eq by lia.
        rewrite (list_lookup_total_correct _ _ _ Hc).
        rewrite decide_True; done.
      * rewrite list_lookup_total_insert_ne by done.
        rewrite decide_False; [done|]. intros [_ ?]; done.
    + rewrite list_lookup_total_insert_ne by done.
      rewrite decide_False; [done|]. intros [? _]; done.
Qed.

Lemma cell_zeros_like2 a j i : Np.cell (Np.zeros_like2 a) j i = 0.
Proof.
  unfold Np.cell, Np.zeros_like2, Np.zeros_like.
  destruct (a !! j) as [row|] eqn:Hj.
  - rewrite (list_lookup_total_correct _ j (map (fun _ => 0) row))
      by (by rewrite list_lookup_fmap, Hj).
    destruct (row !! i) as [c|] eqn:Hi.
    + apply list_lookup_total_correct. by rewrite list_lookup_fmap, Hi.
    + rewrite list_lookup_total_alt, list_lookup_fmap, Hi. done.
  - rewrite (list_lookup_total_alt _ j), list_lookup_fmap, Hj. simpl.
    rewrite list_lookup_total_alt. done.
Qed.

Lemma has_shape_zeros_like2 a rows cols :
  Np.has_shape a rows cols -> Np.has_shape (Np.zeros_like2 a) rows cols.
Proof.
  intros [Hr Hall]. split.
  - unfold Np.zeros_like2. by rewrite length_fmap.
  - unfold Np.zeros_like2. apply Forall_fmap. eapply Forall_impl; [exact Hall|].
    intros row Hrow. simpl. unfold Np.zeros_like. by rewrite length_fmap.
Qed.

Lemma has_shape_meshgrid x y :
  Np.has_shape (Np.meshgrid x y).1 (length y) (length x) /\
  Np.has_shape (Np.meshgrid x y).2 (length y) (length x).
Proof.
  unfold Np.meshgrid; simpl. split; (split; [by rewrite length_fmap|]).
  - apply Forall_fmap, Forall_forall. done.
  - apply Forall_fmap, Forall_forall. intros yj _. simpl. by rewrite length_fmap.
Qed.

Lemma cell_meshgrid_Y x y j i :
  (j < length y)%nat -> (i < length x)%nat ->
  Np.cell (Np.meshgrid x y).2 j i = y !!! j.
Proof.
  intros Hj Hi. unfold Np.cell, Np.meshgrid; simpl.
  destruct (lookup_lt_is_Some_2 y j Hj) as [yj Hyj].
  destruct (lookup_lt_is_Some_2 x i Hi) as [xv Hxv].
  rewrite (list_lookup_total_correct _ j (map (fun _ => yj) x))
    by (by rewrite list_lookup_fmap, Hyj).
  rewrite (list_lookup_total_correct _ _ _ Hyj).
  apply list_lookup_total_correct. by rewrite list_lookup_fmap, Hxv.
Qed.

Lemma get_col_spec a rows cols i :
  Np.has_shape a rows cols -> (i < cols)%nat ->
  Np.get_col a i = Some (map (fun row : list R => row !!! i) a).
Proof.
  intros [Hr Hall] Hi. unfold Np.get_col. apply mapM_Some.
  apply Forall2_fmap_r, Forall_Forall2_diag.
  eapply Forall_impl; [exact Hall|]. intros row Hrow. simpl in *.
  apply list_lookup_lookup_total_lt. lia.
Qed.

Lemma set_col_spec a rows cols i col :
  Np.has_shape a rows cols -> (i < cols)%nat -> length col = rows ->
  exists a', Np.set_col a i col = Some a' /\ Np.has_shape a' rows cols /\
    forall j i', (j < rows)%nat ->
      Np.cell a' j i' = if decide (i' = i) then col !!! j else Np.cell a j i'.
Proof.
  intros [Hr Hall] Hi Hcol. unfold Np.set_col.
  rewrite decide_True by lia.
  exists ((fun rc : list R * R => <[i := rc.2]> rc.1) <$> zip a col).
  split; [|split; [split|]].
  - apply mapM_Some. apply Forall2_fmap_r.
    apply Forall_Forall2_diag. apply Forall_forall. intros [row v] Hin.
    simpl. apply elem_of_zip_l in Hin. simpl in Hin.
    rewrite Forall_forall in Hall. apply Hall in Hin.
    rewrite decide_True by lia. done.
  - rewrite length_fmap, length_zip_with. lia.
  - apply Forall_fmap, Forall_forall. intros [row v] Hin. simpl.
    apply elem_of_zip_l in Hin. simpl in Hin.
    rewrite Forall_forall in Hall. apply Hall in Hin.
    by rewrite length_insert.
  - intros j i' Hj. unfold Np.cell.
    destruct (lookup_lt_is_Some_2 a j) as [row Hrow]; [lia|].
    destruct (lookup_lt_is_Some_2 col j) as [v Hv]; [lia|].
    assert (Hlen : length row = cols) by (eapply Forall_lookup_1 in Hall; eauto).
    rewrite (list_lookup_total_correct _ j (<[i := v]> row)).
    2:{ rewrite list_lookup_fmap, lookup_zip_with, Hrow.
        simpl. rewrite Hv. done. }
    rewrite (list_lookup_total_correct _ _ _ Hrow).
    rewrite (list_lookup_total_correct _ _ _ Hv).
    destruct (decide (i' = i)) as [->|Hne].
    + rewrite list_lookup_total_insert_eq by lia. done.
    + rewrite list_lookup_total_insert_ne by done. done.
Qed.

Lemma linspace_spec start stop num :
  (0 <= num)%Z ->
  exists l, Np.linspace start stop num = Some l /\
    length l = Z.to_nat num /\
    forall i, (i < Z.to_nat num)%nat -> l !!! i = Np.linspace_at start stop num i.
Proof.
  intros Hnum. unfold Np.linspace. rewrite decide_False by lia.
  eexists. split; [done|]. split.
  - by rewrite length_fmap, length_range.
  - intros i Hi. apply list_lookup_total_correct.
    rewrite list_lookup_fmap, lookup_range by lia. done.
Qed.

Lemma linspace_neg start stop num :
  (num < 0)%Z -> Np.linspace start stop num = None.
Proof. intros. unfold Np.linspace. by rewrite decide_True. Qed.

Import Prototipo1.

Lemma lookup_mapped_column (f : R -> R) (a : list (list R)) j i :
  (j < length a)%nat ->
  map f (map (fun row : list R => row !!! i) a) !!! j = f (Np.cell a j i).
Proof.
  intros Hj. destruct (lookup_lt_is_Some_2 a j Hj) as [row Hrow].
  unfold Np.cell. rewrite (list_lookup_total_correct _ _ _ Hrow).
  apply list_lookup_total_correct. by rewrite !list_lookup_fmap, Hrow.
Qed.

Lemma adjust_columns scale xr yr :
  let XY := Np.meshgrid xr yr in
  exists Ya,
    Py.for_each (adjust_column scale (map y_center_at xr)
                   (map (river_width_at scale) xr) XY.2)
                (seq 0 (length xr)) (Np.zeros_like2 XY.2) = Some Ya /\
    Np.has_shape Ya (length yr) (length xr) /\
    forall j i, (j < length yr)%nat -> (i < length xr)%nat ->
      Np.cell Ya j i = yr !!! j * width_factor_at scale (xr !!! i) + y_center_at (xr !!! i).
Proof.
  intros XY. destruct (has_shape_meshgrid xr yr) as [_ HY]. fold XY in HY.
  pose (Inv := fun (n : nat) (Ya : list (list R)) =>
    Np.has_shape Ya (length yr) (length xr) /\
    forall j i, (j < length yr)%nat ->
      Np.cell Ya j i =
        if decide (i < n)%nat
        then yr !!! j * width_factor_at scale (xr !!! i) + y_center_at (xr !!! i)
        else 0).
  destruct (for_each_inv
              (adjust_column scale (map y_center_at xr)
                 (map (river_width_at scale) xr) XY.2)
              Inv (seq 0 (length xr)) (Np.zeros_like2 XY.2)) as (Ya & HYa & Hs & Hc).
  - split; [by apply has_shape_zeros_like2|].
    intros j i _. rewrite cell_zeros_like2. done.
  - intros n a Ya Ha [Hs Hc]. apply lookup_seq in Ha as [-> Hn]. simpl in *.
    destruct (lookup_lt_is_Some_2 xr n Hn) as [xn Hxn].
    unfold adjust_column. rewrite !list_lookup_fmap, Hxn. simpl.
    rewrite (get_col_spec _ _ _ _ HY Hn). simpl.
    match goal with
    | |- context [Np.set_col Ya n ?c] =>
        destruct (set_col_spec Ya _ _ n c Hs Hn) as (Ya' & -> & Hs' & Hc')
    end.
    { rewrite !length_fmap. by destruct HY. }
    exists Ya'. split; [done|]. split; [done|].
    intros j i Hj. rewrite Hc' by done.
    destruct (decide (i = n)) as [->|Hne].
    + rewrite decide_True by lia.
      rewrite (list_lookup_total_correct _ _ _ Hxn).
      rewrite lookup_mapped_column by (destruct HY; lia).
      pose proof (cell_meshgrid_Y xr yr j n Hj Hn) as Hm. simpl in Hm. rewrite Hm. done.
    + rewrite Hc by done.
      destruct (decide (i < n)%nat), (decide (i < Datatypes.S n)%nat); (done || lia).
  - rewrite length_seq in Hc. exists Ya. split; [done|]. split; [done|].
    intros j i Hj Hi. rewrite Hc by done. by rewrite decide_True.
Qed.

#[local] Opaque Np.meshgrid.

Lemma create_river_mesh_spec l :
  (0 <= lit_resolution l)%Z -> (0 <= lit_lateral_samples l)%Z ->
  exists self, create_river_mesh l = Some self /\
    cities_data self = lit_cities_data l /\ k self = lit_k l /\
    river_length self = lit_river_length l /\
    river_width_scale self = lit_river_width_scale l /\
    resolution self = lit_resolution l /\
    lateral_samples self = lit_lateral_samples l /\
    mesh_shape self /\ mesh_values self.
Proof.
  intros Hres Hlat. unfold create_river_mesh.
  destruct (linspace_spec 0 (lit_river_length l) _ Hres) as (xr & -> & Hxl & Hxv).
  destruct (linspace_spec (-2) 2 _ Hlat) as (yr & -> & Hyl & Hyv).
  simpl.
  destruct (adjust_columns (lit_river_width_scale l) xr yr) as (Ya & -> & HsY & HcY).
  simpl. eexists. split; [done|]. simpl.
  repeat (split; [done|]).
  destruct (has_shape_meshgrid xr yr) as [HX _].
  split.
  - unfold mesh_shape; simpl. done.
  - unfold mesh_values; simpl. split; [|split].
    + intros i Hi. apply Hxv. lia.
    + intros j Hj. apply Hyv. lia.
    + done.
Qed.

#[local] Transparent Np.meshgrid.

Import Prototipo1.

Lemma sum_app l1 l2 : Py.sum (l1 ++ l2) = Py.sum l1 + Py.sum l2.
Proof. unfold Py.sum. induction l1 as [|a l1 IH]; simpl; [lra|]. rewrite IH. lra. Qed.

Lemma sum_scale {A} (f : A -> R) (c : R) l :
  Py.sum (map (fun a => f a * c) l) = Py.sum (map f l) * c.
Proof. unfold Py.sum. induction l as [|a l IH]; simpl; [lra|]. rewrite IH. lra. Qed.

Lemma sum_nonneg l : Forall (fun v => 0 <= v) l -> 0 <= Py.sum l.
Proof. unfold Py.sum. induction 1; simpl; lra. Qed.

Section Field.
Variable self : MantaroRiverModel.
Hypothesis Hmesh : mesh_shape self.

Let m := length (y_river self).
Let n := length (x_river self).

Lemma add_lateral_loop i concentration F :
  (i < n)%nat -> Np.has_shape F m n ->
  exists F',
    Py.for_each (add_lateral self i concentration) (seq 0 m) F = Some F' /\
    Np.has_shape F' m n /\
    forall j' i', Np.cell F' j' i' =
      if decide (i' = i /\ (j' < m)%nat)
      then Np.cell F j' i'
           + concentration * lateral_factor (Np.cell (Y_adjusted self) j' i)
      else Np.cell F j' i'.
Proof.
  intros Hi HF. destruct Hmesh as (_ & _ & _ & HYa).
  pose (Inv := fun (c : nat) (F' : list (list R)) =>
    Np.has_shape F' m n /\
    forall j' i', Np.cell F' j' i' =
      if decide (i' = i /\ (j' < c)%nat)
      then Np.cell F j' i'
           + concentration * lateral_factor (Np.cell (Y_adjusted self) j' i)
      else Np.cell F j' i').
  destruct (for_each_inv (add_lateral self i concentration) Inv (seq 0 m) F)
    as (F' & HF' & Hs & Hc).
  - split; [done|]. intros j' i'. rewrite decide_False; [done|]. lia.
  - intros c a F1 Ha [Hs Hc]. apply lookup_seq in Ha as [-> Hc']. simpl in Hc' |- *.
    unfold add_lateral. rewrite (get2_cell _ _ _ _ _ HYa Hc' Hi). simpl.
    match goal with
    | |- context [Np.add2 F1 c i ?v] =>
        destruct (add2_spec F1 _ _ c i v Hs Hc' Hi) as (F2 & -> & Hs2 & Hc2)
    end.
    exists F2. split; [done|]. split; [done|].
    intros j' i'. rewrite Hc2, !Hc.
    destruct (decide (j' = c /\ i' = i)) as [[-> ->]|Hne].
    + rewrite decide_False by lia. rewrite decide_True by lia. done.
    + destruct (decide (i' = i /\ (j' < c)%nat)) as [[-> ?]|?].
      * rewrite decide_True by lia. done.
      * rewrite decide_False; [done|]. intros [-> ?]. 
        assert (j' = c \/ (j' < c)%nat) as [->|?] by lia; tauto.
  - rewrite length_seq in Hc. eauto.
Qed.

Lemma add_city_columns xi Bi F :
  Np.has_shape F m n ->
  exists F',
    Py.for_each (add_city_column self xi Bi) (Py.range (resolution self)) F
      = Some F' /\
    Np.has_shape F' m n /\
    forall j i, (j < m)%nat -> (i < n)%nat ->
      Np.cell F' j i =
        Np.cell F j i
        + pollution_function self (x_river self !!! i) xi Bi
          * lateral_factor (Np.cell (Y_adjusted self) j i).
Proof.
  intros HF. pose proof Hmesh as (Hres & _ & _ & _).
  pose (Inv := fun (c : nat) (F' : list (list R)) =>
    Np.has_shape F' m n /\
    forall j i, Np.cell F' j i =
      if decide ((i < c)%nat /\ (j < m)%nat)
      then Np.cell F j i
           + pollution_function self (x_river self !!! i) xi Bi
             * lateral_factor (Np.cell (Y_adjusted self) j i)
      else Np.cell F j i).
  destruct (for_each_inv (add_city_column self xi Bi) Inv
              (Py.range (resolution self)) F) as (F' & HF' & Hs & Hc).
  - split; [done|]. intros j i. rewrite decide_False; [done|]. lia.
  - intros c a F1 Ha [Hs Hc]. apply lookup_range_inv in Ha as [-> Hc'].
    assert (Hcn : (c < n)%nat) by (unfold n; lia).
    unfold add_city_column.
    rewrite (list_lookup_lookup_total_lt (x_river self) c) by done. simpl.
    destruct (add_lateral_loop c
                (pollution_function self (x_river self !!! c) xi Bi) F1 Hcn Hs)
      as (F2 & HF2 & Hs2 & Hc2).
    exists F2. split; [exact HF2|]. split; [done|].
    intros j i. rewrite Hc2, !Hc.
    destruct (decide (i = c /\ (j < m)%nat)) as [[-> ?]|Hne].
    + rewrite decide_False by lia. rewrite decide_True by lia. done.
    + destruct (decide ((i < c)%nat /\ (j < m)%nat)) as [[? ?]|?].
      * rewrite decide_True by lia. done.
      * rewrite decide_False; [done|]. intros [? ?].
        assert (i = c \/ (i < c)%nat) as [->|?] by lia; tauto.
  - rewrite length_range in Hc. exists F'. split; [done|]. split; [done|].
    intros j i Hj Hi. rewrite Hc. rewrite decide_True; [done|]. unfold n in Hi. lia.
Qed.

Lemma calculate_pollution_field_cells active_cities :
  exists F,
    calculate_pollution_field self active_cities = Some F /\
    Np.has_shape F m n /\
    forall j i, (j < m)%nat -> (i < n)%nat ->
      Np.cell F j i =
        total_concentration self (active_sources (cities_data self) active_cities)
                            (x_river self !!! i)
        * lateral_factor (Np.cell (Y_adjusted self) j i).
Proof.
  pose proof Hmesh as (_ & _ & HX & _).
  unfold calculate_pollution_field, active_sources, total_concentration.
  set (act := match active_cities with
              | Some l => l | None => map fst (cities_data self) end).
  pose (Inv := fun (c : nat) (F' : list (list R)) =>
    Np.has_shape F' m n /\
    forall j i, (j < m)%nat -> (i < n)%nat ->
      Np.cell F' j i =
        Py.sum (map (fun entry : string * City =>
                       pollution_function self (x_river self !!! i)
                         (distance entry.2) (waste entry.2))
                    (filter (fun entry : string * City => entry.1 ∈ act)
                            (take c (cities_data self))))
        * lateral_factor (Np.cell (Y_adjusted self) j i)).
  destruct (for_each_inv (add_city self act) Inv (cities_data self)
              (Np.zeros_like2 (X self))) as (F' & HF' & Hs & Hc).
  - split; [by apply has_shape_zeros_like2|].
    intros j i _ _. rewrite cell_zeros_like2. unfold Py.sum. simpl. lra.
  - intros c entry F1 Hentry [Hs Hc]. unfold add_city, Inv.
    rewrite (take_S_r _ _ _ Hentry).
    destruct (decide (entry.1 ∈ act)) as [Hin|Hnin].
    + destruct (add_city_columns (distance entry.2) (waste entry.2) F1 Hs)
        as (F2 & -> & Hs2 & Hc2).
      exists F2. split; [done|]. split; [done|].
      intros j i Hj Hi. rewrite Hc2, Hc by done.
      rewrite filter_app, filter_cons_True, filter_nil by done.
      rewrite map_app, sum_app. unfold Py.sum at 3. simpl. lra.
    + exists F1. split; [done|]. split; [done|].
      intros j i Hj Hi. rewrite Hc by done.
      rewrite filter_app, filter_cons_False, filter_nil by done.
      rewrite app_nil_r. done.
  - rewrite firstn_all in Hc. eauto.
Qed.
End Field.

(** ** Bounds on the exponential *)

Lemma exp_square_lower (a b t : R) :
  0 <= a -> a <= exp t -> b <= a * a -> b <= exp (2 * t).
Proof.
  intros Ha Hat Hb. replace (2 * t) with (t + t) by lra. rewrite exp_plus.
  apply Rle_trans with (a * a); [exact Hb|].
  apply Rmult_le_compat; assumption.
Qed.

Lemma exp_nonpos_le_1 (t : R) : t <= 0 -> exp t <= 1.
Proof.
  intros [Ht| ->]; [|rewrite exp_0; lra].
  left. rewrite <- exp_0. by apply exp_increasing.
Qed.

Lemma exp_minus_5_2_lower : 0.0820847 < exp (-2.5).
Proof.
  assert (H0 : 1 + -2.5 / 1048576 <= exp (-2.5 / 1048576)) by apply exp_ineq1_le.
  assert (H1 : 0.999995231634102 <= exp (-2.5 / 524288)).
  { replace (-2.5 / 524288) with (2 * (-2.5 / 1048576)) by lra.
    apply (exp_square_lower (1 + -2.5 / 1048576)); [lra|exact H0|lra]. }
  clear H0.
  assert (H2 : 0.999990463290941 <= exp (-2.5 / 262144)).
  { replace (-2.5 / 262144) with (2 * (-2.5 / 524288)) by lra.
    apply (exp_square_lower 0.999995231634102); [lra|exact H1|lra]. }
  clear H1.
  assert (H3 : 0.99998092667283 <= exp (-2.5 / 131072)).
  { replace (-2.5 / 131072) with (2 * (-2.5 / 262144)) by lra.
    apply (exp_square_lower 0.999990463290941); [lra|exact H2|lra]. }
  clear H2.
  assert (H4 : 0.999961853709451 <= exp (-2.5 / 65536)).
  { replace (-2.5 / 65536) with (2 * (-2.5 / 131072)) by lra.
    apply (exp_square_lower 0.99998092667283); [lra|exact H3|lra]. }
  clear H3.
  assert (H5 : 0.999923708874041 <= exp (-2.5 / 32768)).
  { replace (-2.5 / 32768) with (2 * (-2.5 / 65536)) by lra.
    apply (exp_square_lower 0.999961853709451); [lra|exact H4|lra]. }
  clear H4.
  assert (H6 : 0.999847423568417 <= exp (-2.5 / 16384)).
  { replace (-2.5 / 16384) with (2 * (-2.5 / 32768)) by lra.
    apply (exp_square_lower 0.999923708874041); [lra|exact H5|lra]. }
  clear H5.
  assert (H7 : 0.999694870416401 <= exp (-2.5 / 8192)).
  { replace (-2.5 / 8192) with (2 * (-2.5 / 16384)) by lra.
    apply (exp_square_lower 0.999847423568417); [lra|exact H6|lra]. }
  clear H6.
  assert (H8 : 0.999389833936864 <= exp (-2.5 / 4096)).
  { replace (-2.5 / 4096) with (2 * (-2.5 / 8192)) by lra.
    apply (exp_square_lower 0.999694870416401); [lra|exact H7|lra]. }
  clear H7.
  assert (H9 : 0.998780040176352 <= exp (-2.5 / 2048)).
  { replace (-2.5 / 2048) with (2 * (-2.5 / 4096)) by lra.
    apply (exp_square_lower 0.999389833936864); [lra|exact H8|lra]. }
  clear H8.
  assert (H10 : 0.997561568654675 <= exp (-2.5 / 1024)).
  { replace (-2.5 / 1024) with (2 * (-2.5 / 2048)) by lra.
    apply (exp_square_lower 0.998780040176352); [lra|exact H9|lra]. }
  clear H9.
  assert (H11 : 0.995129083256775 <= exp (-2.5 / 512)).
  { replace (-2.5 / 512) with (2 * (-2.5 / 1024)) by lra.
    apply (exp_square_lower 0.997561568654675); [lra|exact H10|lra]. }
  clear H10.
  assert (H12 : 0.990281892343469 <= exp (-2.5 / 256)).
  { replace (-2.5 / 256) with (2 * (-2.5 / 512)) by lra.
    apply (exp_square_lower 0.995129083256775); [lra|exact H11|lra]. }
  clear H11.
  assert (H13 : 0.980658226303361 <= exp (-2.5 / 128)).
  { replace (-2.5 / 128) with (2 * (-2.5 / 256)) by lra.
    apply (exp_square_lower 0.990281892343469); [lra|exact H12|lra]. }
  clear H12.
  assert (H14 : 0.961690556816453 <= exp (-2.5 / 64)).
  { replace (-2.5 / 64) with (2 * (-2.5 / 128)) by lra.
    apply (exp_square_lower 0.980658226303361); [lra|exact H13|lra]. }
  clear H13.
  assert (H15 : 0.924848727069939 <= exp (-2.5 / 32)).
  { replace (-2.5 / 32) with (2 * (-2.5 / 64)) by lra.
    apply (exp_square_lower 0.961690556816453); [lra|exact H14|lra]. }
  clear H14.
  assert (H16 : 0.855345167962886 <= exp (-2.5 / 16)).
  { replace (-2.5 / 16) with (2 * (-2.5 / 32)) by lra.
    apply (exp_square_lower 0.924848727069939); [lra|exact H15|lra]. }
  clear H15.
  assert (H17 : 0.731615356357457 <= exp (-2.5 / 8)).
  { replace (-2.5 / 8) with (2 * (-2.5 / 16)) by lra.
    apply (exp_square_lower 0.855345167962886); [lra|exact H16|lra]. }
  clear H16.
  assert (H18 : 0.535261029658048 <= exp (-2.5 / 4)).
  { replace (-2.5 / 4) with (2 * (-2.5 / 8)) by lra.
    apply (exp_square_lower 0.731615356357457); [lra|exact H17|lra]. }
  clear H17.
  assert (H19 : 0.286504369870593 <= exp (-2.5 / 2)).
  { replace (-2.5 / 2) with (2 * (-2.5 / 4)) by lra.
    apply (exp_square_lower 0.535261029658048); [lra|exact H18|lra]. }
  clear H18.
  assert (H20 : 0.082084753954945 <= exp (-2.5 / 1)).
  { replace (-2.5 / 1) with (2 * (-2.5 / 2)) by lra.
    apply (exp_square_lower 0.286504369870593); [lra|exact H19|lra]. }
  clear H19.
  replace (-2.5 / 1) with (-2.5) in H20 by lra. lra.
Qed.

Lemma exp_5_2_lower : 12.18245 < exp 2.5.
Proof.
  assert (H0 : 1 + 2.5 / 1048576 <= exp (2.5 / 1048576)) by apply exp_ineq1_le.
  assert (H1 : 1.000004768377266 <= exp (2.5 / 524288)).
  { replace (2.5 / 524288) with (2 * (2.5 / 1048576)) by lra.
    apply (exp_square_lower (1 + 2.5 / 1048576)); [lra|exact H0|lra]. }
  clear H0.
  assert (H2 : 1.000009536777269 <= exp (2.5 / 262144)).
  { replace (2.5 / 262144) with (2 * (2.5 / 524288)) by lra.
    apply (exp_square_lower 1.000004768377266); [lra|exact H1|lra]. }
  clear H1.
  assert (H3 : 1.000019073645488 <= exp (2.5 / 131072)).
  { replace (2.5 / 131072) with (2 * (2.5 / 262144)) by lra.
    apply (exp_square_lower 1.000009536777269); [lra|exact H2|lra]. }
  clear H2.
  assert (H4 : 1.000038147654779 <= exp (2.5 / 65536)).
  { replace (2.5 / 65536) with (2 * (2.5 / 131072)) by lra.
    apply (exp_square_lower 1.000019073645488); [lra|exact H3|lra]. }
  clear H3.
  assert (H5 : 1.000076296764801 <= exp (2.5 / 32768)).
  { replace (2.5 / 32768) with (2 * (2.5 / 65536)) by lra.
    apply (exp_square_lower 1.000038147654779); [lra|exact H4|lra]. }
  clear H4.
  assert (H6 : 1.000152599350798 <= exp (2.5 / 16384)).
  { replace (2.5 / 16384) with (2 * (2.5 / 32768)) by lra.
    apply (exp_square_lower 1.000076296764801); [lra|exact H5|lra]. }
  clear H5.
  assert (H7 : 1.000305221988157 <= exp (2.5 / 8192)).
  { replace (2.5 / 8192) with (2 * (2.5 / 16384)) by lra.
    apply (exp_square_lower 1.000152599350798); [lra|exact H6|lra]. }
  clear H6.
  assert (H8 : 1.000610537136776 <= exp (2.5 / 4096)).
  { replace (2.5 / 4096) with (2 * (2.5 / 8192)) by lra.
    apply (exp_square_lower 1.000305221988157); [lra|exact H7|lra]. }
  clear H7.
  assert (H9 : 1.001221447029147 <= exp (2.5 / 2048)).
  { replace (2.5 / 2048) with (2 * (2.5 / 4096)) by lra.
    apply (exp_square_lower 1.000610537136776); [lra|exact H8|lra]. }
  clear H8.
  assert (H10 : 1.002444385991139 <= exp (2.5 / 1024)).
  { replace (2.5 / 1024) with (2 * (2.5 / 2048)) by lra.
    apply (exp_square_lower 1.001221447029147); [lra|exact H9|lra]. }
  clear H9.
  assert (H11 : 1.004894747005151 <= exp (2.5 / 512)).
  { replace (2.5 / 512) with (2 * (2.5 / 1024)) by lra.
    apply (exp_square_lower 1.002444385991139); [lra|exact H10|lra]. }
  clear H10.
  assert (H12 : 1.009813452558546 <= exp (2.5 / 256)).
  { replace (2.5 / 256) with (2 * (2.5 / 512)) by lra.
    apply (exp_square_lower 1.004894747005151); [lra|exact H11|lra]. }
  clear H11.
  assert (H13 : 1.01972320896821 <= exp (2.5 / 128)).
  { replace (2.5 / 128) with (2 * (2.5 / 256)) by lra.
    apply (exp_square_lower 1.009813452558546); [lra|exact H12|lra]. }
  clear H12.
  assert (H14 : 1.039835422908423 <= exp (2.5 / 64)).
  { replace (2.5 / 64) with (2 * (2.5 / 128)) by lra.
    apply (exp_square_lower 1.01972320896821); [lra|exact H13|lra]. }
  clear H13.
  assert (H15 : 1.081257706735138 <= exp (2.5 / 32)).
  { replace (2.5 / 32) with (2 * (2.5 / 64)) by lra.
    apply (exp_square_lower 1.039835422908423); [lra|exact H14|lra]. }
  clear H14.
  assert (H16 : 1.169118228374129 <= exp (2.5 / 16)).
  { replace (2.5 / 16) with (2 * (2.5 / 32)) by lra.
    apply (exp_square_lower 1.081257706735138); [lra|exact H15|lra]. }
  clear H15.
  assert (H17 : 1.366837431916662 <= exp (2.5 / 8)).
  { replace (2.5 / 8) with (2 * (2.5 / 16)) by lra.
    apply (exp_square_lower 1.169118228374129); [lra|exact H16|lra]. }
  clear H16.
  assert (H18 : 1.868244565288535 <= exp (2.5 / 4)).
  { replace (2.5 / 4) with (2 * (2.5 / 8)) by lra.
    apply (exp_square_lower 1.366837431916662); [lra|exact H17|lra]. }
  clear H17.
  assert (H19 : 3.490337755730147 <= exp (2.5 / 2)).
  { replace (2.5 / 2) with (2 * (2.5 / 4)) by lra.
    apply (exp_square_lower 1.868244565288535); [lra|exact H18|lra]. }
  clear H18.
  assert (H20 : 12.182457649075359 <= exp (2.5 / 1)).
  { replace (2.5 / 1) with (2 * (2.5 / 2)) by lra.
    apply (exp_square_lower 3.490337755730147); [lra|exact H19|lra]. }
  clear H19.
  replace (2.5 / 1) with 2.5 in H20 by lra. lra.
Qed.

Lemma exp_minus_5_2_upper : exp (-2.5) < 0.0820853.
Proof.
  replace (-2.5) with (- (2.5)) by lra.
  rewrite exp_Ropp. pose proof exp_5_2_lower as H.
  apply Rmult_lt_reg_r with (exp 2.5); [lra|].
  rewrite Rinv_l by lra. nra.
Qed.

(** ** The dispersion function *)

Lemma H_neg (x : R) : x < 0 -> Funcion.H x = 0.
Proof. intros. unfold Funcion.H. rewrite decide_False; [done|lra]. Qed.

Lemma H_nonneg (x : R) : 0 <= x -> Funcion.H x = 1.
Proof. intros. unfold Funcion.H. rewrite decide_True; [done|lra]. Qed.

Lemma decay_upstream (k x xi Bi : R) :
  x < xi -> (if decide (x < xi) then 0 else Bi * k * exp (- k * (x - xi))) = 0.
Proof. intros. by rewrite decide_True. Qed.

Lemma decay_downstream (k x xi Bi : R) :
  x >= xi ->
  (if decide (x < xi) then 0 else Bi * k * exp (- k * (x - xi)))
  = Bi * k * exp (- k * (x - xi)).
Proof. intros. rewrite decide_False; [done|lra]. Qed.

Lemma decay_monotone (k xi Bi x1 x2 : R) :
  0 < k -> 0 <= Bi -> x1 <= x2 ->
  Bi * k * exp (- k * (x2 - xi)) <= Bi * k * exp (- k * (x1 - xi)).
Proof.
  intros Hk HBi Hx. apply Rmult_le_compat_l; [nra|].
  destruct (Req_dec x1 x2) as [->|Hne]; [lra|].
  left. apply exp_increasing. nra.
Qed.

Lemma decay_nonneg (k x xi Bi : R) :
  0 <= k -> 0 <= Bi ->
  0 <= (if decide (x < xi) then 0 else Bi * k * exp (- k * (x - xi))).
Proof.
  intros Hk HBi. destruct (decide (x < xi)); [lra|].
  pose proof (exp_pos (- k * (x - xi))). apply Rmult_le_pos; [nra|lra].
Qed.

(** Claim C1.  Upstream of its source a pollutant has concentration exactly
    0, and from the source on the concentration is
    [rate * k * exp (- k * (x - location))].  This holds for
    [pollution_function] of both classes and for the step-function form
    [B * k * exp(-k * (x - x_i)) * H(x - x_i)] of funcion.py. *)
Theorem concentration_piecewise
    (self : Prototipo1.MantaroRiverModel)
    (anim : PrototipoFinal.MantaroRiverAnimation)
    (k : R) (d : Funcion.Punto) (x xi Bi : R) :
  (x < xi -> Prototipo1.pollution_function self x xi Bi = 0) /\
  (x >= xi -> Prototipo1.pollution_function self x xi Bi
              = Bi * Prototipo1.k self * exp (- Prototipo1.k self * (x - xi))) /\
  (x < xi -> PrototipoFinal.pollution_function anim x xi Bi = 0) /\
  (x >= xi -> PrototipoFinal.pollution_function anim x xi Bi
              = Bi * PrototipoFinal.k anim
                * exp (- PrototipoFinal.k anim * (x - xi))) /\
  (x < Funcion.x_i d -> Funcion.C_i_at k d x = 0) /\
  (x >= Funcion.x_i d ->
   Funcion.C_i_at k d x
   = Funcion.B d * k * exp (- k * (x - Funcion.x_i d))).
Proof.
  unfold Prototipo1.pollution_function, PrototipoFinal.pollution_function,
    Funcion.C_i_at.
  repeat split; intros Hx.
  - by apply decay_upstream.
  - by apply decay_downstream.
  - by apply decay_upstream.
  - by apply decay_downstream.
  - rewrite H_neg by lra. lra.
  - rewrite H_nonneg by lra. lra.
Qed.

(** Claim C2, amended.  At the source location the concentration is
    [rate * k]; for the source at kilometre 0 with rate 27.1 and
    [k = 0.2] the value at [x = 0] is the product [27.1 * 0.2], which lies
    between 5.4199999 and 5.4200001 (in binary64 it is 5.420000000000001
    and not the number that the literal 5.42 denotes), and the value at
    [x = 53] is [27.1 * 0.2 * exp (- 0.2 * 53)]. *)
Theorem concentration_peak
    (self : Prototipo1.MantaroRiverModel)
    (anim : PrototipoFinal.MantaroRiverAnimation) (xi Bi : R) :
  Prototipo1.pollution_function self xi xi Bi = Bi * Prototipo1.k self /\
  PrototipoFinal.pollution_function anim xi xi Bi = Bi * PrototipoFinal.k anim /\
  (Prototipo1.k self = 0.2 ->
   Prototipo1.pollution_function self 0 0 27.1 = 27.1 * 0.2 /\
   5.4199999 < Prototipo1.pollution_function self 0 0 27.1 < 5.4200001 /\
   Prototipo1.pollution_function self 53 0 27.1 = 27.1 * 0.2 * exp (- 0.2 * 53)) /\
  (PrototipoFinal.k anim = 0.2 ->
   PrototipoFinal.pollution_function anim 0 0 27.1 = 27.1 * 0.2 /\
   5.4199999 < PrototipoFinal.pollution_function anim 0 0 27.1 < 5.4200001 /\
   PrototipoFinal.pollution_function anim 53 0 27.1
   = 27.1 * 0.2 * exp (- 0.2 * 53)).
Proof.
  unfold Prototipo1.pollution_function, PrototipoFinal.pollution_function.
  assert (E : forall t, t = 0 -> exp t = 1) by (intros t ->; apply exp_0).
  assert (Hpeak : forall k, (if decide (xi < xi) then 0
                             else Bi * k * exp (- k * (xi - xi))) = Bi * k).
  { intros k. rewrite decay_downstream by lra. rewrite E by lra. lra. }
  assert (Hval : forall k, k = 0.2 ->
            (if decide (0 < 0) then 0 else 27.1 * k * exp (- k * (0 - 0)))
            = 27.1 * 0.2 /\
            5.4199999
            < (if decide (0 < 0) then 0 else 27.1 * k * exp (- k * (0 - 0)))
            < 5.4200001 /\
            (if decide (53 < 0) then 0 else 27.1 * k * exp (- k * (53 - 0)))
            = 27.1 * 0.2 * exp (- 0.2 * 53)).
  { assert (Hz : forall k, exp (- k * (0 - 0)) = 1)
      by (intros k; apply E; lra).
    intros k ->. rewrite !decay_downstream by lra.
    rewrite Hz. split; [lra|]. split; [lra|].
    do 2 f_equal. lra. }
  auto.
Qed.

(** Claim C4.  For a source of non-negative rate and [k > 0], the
    concentration does not increase downstream: for [x1 < x2], both at or
    after the source, the value at [x1] is at least the value at [x2]. *)
Theorem concentration_decays_downstream
    (self : Prototipo1.MantaroRiverModel) (xi Bi x1 x2 : R) :
  0 < Prototipo1.k self -> 0 <= Bi ->
  x1 < x2 -> x1 >= xi -> x2 >= xi ->
  Prototipo1.pollution_function self x1 xi Bi
  >= Prototipo1.pollution_function self x2 xi Bi.
Proof.
  intros Hk HBi Hlt H1 H2. unfold Prototipo1.pollution_function.
  rewrite !decay_downstream by done.
  apply Rle_ge, decay_monotone; lra.
Qed.

Import Prototipo1.

(** ** The lateral factor *)

Lemma lateral_factor_pos (y : R) : 0 < lateral_factor y.
Proof. apply exp_pos. Qed.

Lemma lateral_factor_le_1 (y : R) : lateral_factor y <= 1.
Proof. apply exp_nonpos_le_1. pose proof (pow2_ge_0 y). lra. Qed.

Lemma lateral_factor_eq_1 (y : R) : lateral_factor y = 1 <-> y = 0.
Proof.
  unfold lateral_factor. split.
  - intros Heq. rewrite <- exp_0 in Heq. apply exp_inv in Heq.
    assert (Hy : y * y = 0) by lra.
    apply Rmult_integral in Hy. tauto.
  - intros ->. replace (- 0 ^ 2 / 0.5) with 0 by lra. apply exp_0.
Qed.

Lemma lateral_factor_inj (a b : R) :
  lateral_factor a = lateral_factor b -> a * a = b * b.
Proof. unfold lateral_factor. intros Heq%exp_inv. lra. Qed.

Lemma lateral_factor_vanishes (eps : R) :
  0 < eps -> exists M, forall y, M < Rabs y -> lateral_factor y < eps.
Proof.
  intros Heps. exists (/ eps + 1). intros y Hy.
  assert (Hinv : 0 < / eps) by (by apply Rinv_0_lt_compat).
  assert (Hsq : / eps < y ^ 2).
  { replace (y ^ 2) with (Rabs y * Rabs y)
      by (rewrite <- Rabs_mult; rewrite Rabs_right; [lra|nra]).
    nra. }
  unfold lateral_factor.
  replace (- y ^ 2 / 0.5) with (- (2 * y ^ 2)) by lra.
  rewrite exp_Ropp.
  pose proof (exp_ineq1_le (2 * y ^ 2)) as Hexp.
  assert (Hlt : / eps < exp (2 * y ^ 2)) by lra.
  rewrite <- (Rinv_inv eps).
  apply Rinv_lt_contravar; [|exact Hlt].
  apply Rmult_lt_0_compat; lra.
Qed.

Lemma lateral_factor_0 : lateral_factor 0 = 1.
Proof. by apply lateral_factor_eq_1. Qed.

Lemma lateral_factor_decreasing (y1 y2 : R) :
  Rabs y1 <= Rabs y2 -> lateral_factor y2 <= lateral_factor y1.
Proof.
  intros Habs%Rsqr_le_abs_1. unfold Rsqr in Habs. unfold lateral_factor.
  assert (Hle : - y2 ^ 2 / 0.5 <= - y1 ^ 2 / 0.5) by lra.
  destruct Hle as [Hlt|Heq]; [left; by apply exp_increasing|rewrite Heq; lra].
Qed.

Lemma lateral_factor_strict (y1 y2 : R) :
  y1 * y1 < y2 * y2 -> lateral_factor y2 < lateral_factor y1.
Proof.
  intros Hsq. unfold lateral_factor. apply exp_increasing. lra.
Qed.

Import Prototipo1.

(** ** The field of a constructed model *)

Lemma constructed_field l active_cities :
  (0 <= lit_resolution l)%Z -> (0 <= lit_lateral_samples l)%Z ->
  exists self F,
    create_river_mesh l = Some self /\
    calculate_pollution_field self active_cities = Some F /\
    cities_data self = lit_cities_data l /\ k self = lit_k l /\
    resolution self = lit_resolution l /\
    lateral_samples self = lit_lateral_samples l /\
    river_length self = lit_river_length l /\
    river_width_scale self = lit_river_width_scale l /\
    mesh_shape self /\ mesh_values self /\
    Np.has_shape F (Z.to_nat (lit_lateral_samples l))
                   (Z.to_nat (lit_resolution l)) /\
    forall j i,
      (j < Z.to_nat (lit_lateral_samples l))%nat ->
      (i < Z.to_nat (lit_resolution l))%nat ->
      Np.cell F j i
      = total_concentration self
          (active_sources (cities_data self) active_cities)
          (x_river self !!! i)
        * lateral_factor (Np.cell (Y_adjusted self) j i).
Proof.
  intros Hres Hlat.
  destruct (create_river_mesh_spec l Hres Hlat)
    as (self & Hself & Hc & Hk & HL & Hsc & Hr & Hla & Hshape & Hvalues).
  destruct (calculate_pollution_field_cells self Hshape active_cities)
    as (F & HF & HsF & Hcells).
  pose proof Hshape as (Hxl & Hyl & _ & _).
  rewrite Hxl, Hyl, Hr, Hla in HsF, Hcells.
  exists self, F. repeat (split; [done|]). done.
Qed.

Lemma total_concentration_nonneg self sources x :
  0 <= k self -> Forall (fun entry : string * City => 0 <= waste entry.2) sources ->
  0 <= total_concentration self sources x.
Proof.
  intros Hk Hw. unfold total_concentration. apply sum_nonneg.
  apply Forall_fmap. eapply Forall_impl; [exact Hw|]. intros entry He. simpl.
  unfold pollution_function. by apply decay_nonneg.
Qed.

(** ** Superposition in funcion.py *)

Lemma C_total_of_lookup k xs pts n xv :
  xs !! n = Some xv ->
  Funcion.C_total_of k xs pts !! n
  = Some (Py.sum (map (fun nd : string * Funcion.Punto =>
                         Funcion.C_i_at k nd.2 xv) pts)).
Proof.
  intros Hx. unfold Funcion.C_total_of.
  assert (Hgen : forall acc a, acc !! n = Some a ->
    foldl (fun acc nd => zip_with Rplus acc (Funcion.C_i k xs nd.2)) acc pts !! n
    = Some (a + Py.sum (map (fun nd : string * Funcion.Punto =>
                               Funcion.C_i_at k nd.2 xv) pts))).
  { induction pts as [|nd pts IH]; intros acc a Ha; simpl.
    - rewrite Ha. f_equal. unfold Py.sum. simpl. lra.
    - erewrite IH.
      2:{ rewrite lookup_zip_with, Ha. simpl. unfold Funcion.C_i.
          rewrite list_lookup_fmap, Hx. simpl. reflexivity. }
      f_equal. unfold Py.sum. simpl. lra. }
  rewrite (Hgen _ 0).
  - f_equal. lra.
  - unfold Np.zeros_like. by rewrite list_lookup_fmap, Hx.
Qed.

Lemma C_total_of_two k s1 s2 x :
  Funcion.C_total_of k [x] [s1; s2]
  = [Funcion.C_i_at k s1.2 x + Funcion.C_i_at k s2.2 x].
Proof. unfold Funcion.C_total_of. simpl. f_equal. lra. Qed.

Lemma two_sources_at_25 :
  Funcion.C_total_of 0.1 [25]
    [ ("s1"%string, {| Funcion.x_i := 0; Funcion.B := 10 |});
      ("s2"%string, {| Funcion.x_i := 50; Funcion.B := 20 |}) ]
  = [10 * 0.1 * exp (- 0.1 * 25) + 0] /\
  0.0820847 < 10 * 0.1 * exp (- 0.1 * 25) + 0 < 0.0820853.
Proof.
  split.
  - rewrite C_total_of_two. unfold Funcion.C_i_at.
    cbn [snd Funcion.x_i Funcion.B].
    rewrite H_nonneg by lra. rewrite H_neg by lra. f_equal.
    assert (E : exp (- (0.1) * (25 - 0)) = exp (- 0.1 * 25)) by (f_equal; lra).
    rewrite E. lra.
  - replace (- 0.1 * 25) with (-2.5) by lra.
    pose proof exp_minus_5_2_lower. pose proof exp_minus_5_2_upper. lra.
Qed.

(** Claim C3, amended.  The total is the sum of the per-source
    concentrations: every sample of [C_total] of funcion.py is the sum of
    the samples of the [C_i], and every cell of the field of prototipo1.py
    is the sum of the contributions of the active sources.  For the sources
    at kilometre 0 (rate 10) and 50 (rate 20) with [k = 0.1], the total at
    [x = 25] is [10 * 0.1 * exp (- 0.1 * 25) + 0], a number strictly between
    0.0820847 and 0.0820853: it rounds to 0.0821 and is not equal to it. *)
Theorem total_is_superposition :
  (forall k xs pts n xv,
     xs !! n = Some xv ->
     Funcion.C_total_of k xs pts !! n
     = Some (Py.sum (map (fun nd : string * Funcion.Punto =>
                            Funcion.C_i_at k nd.2 xv) pts))) /\
  (forall l active_cities,
     (0 <= lit_resolution l)%Z -> (0 <= lit_lateral_samples l)%Z ->
     exists self F,
       create_river_mesh l = Some self /\
       calculate_pollution_field self active_cities = Some F /\
       forall j i,
         (j < Z.to_nat (lit_lateral_samples l))%nat ->
         (i < Z.to_nat (lit_resolution l))%nat ->
         Np.cell F j i
         = Py.sum (map (fun entry : string * City =>
                          pollution_function self (x_river self !!! i)
                            (distance entry.2) (waste entry.2)
                          * lateral_factor (Np.cell (Y_adjusted self) j i))
                       (active_sources (cities_data self) active_cities))) /\
  (forall k s1 s2 x,
     Funcion.C_total_of k [x] [s1; s2]
     = [Funcion.C_i_at k s1.2 x + Funcion.C_i_at k s2.2 x]) /\
  Funcion.C_total_of 0.1 [25]
    [ ("s1"%string, {| Funcion.x_i := 0; Funcion.B := 10 |});
      ("s2"%string, {| Funcion.x_i := 50; Funcion.B := 20 |}) ]
  = [10 * 0.1 * exp (- 0.1 * 25) + 0] /\
  0.0820847 < 10 * 0.1 * exp (- 0.1 * 25) + 0 < 0.0820853.
Proof.
  split; [|split; [|split]].
  - intros. by apply C_total_of_lookup.
  - intros l active_cities Hres Hlat.
    destruct (constructed_field l active_cities Hres Hlat)
      as (self & F & Hself & HF & _ & _ & _ & _ & _ & _ & _ & _ & _ & Hcells).
    exists self, F. split; [done|]. split; [done|].
    intros j i Hj Hi. rewrite Hcells by done.
    unfold total_concentration. by rewrite sum_scale.
  - apply C_total_of_two.
  - apply two_sources_at_25.
Qed.

Lemma total_at_25_is_not_0_0821 :
  Funcion.C_total_of 0.1 [25]
    [ ("s1"%string, {| Funcion.x_i := 0; Funcion.B := 10 |});
      ("s2"%string, {| Funcion.x_i := 50; Funcion.B := 20 |}) ]
  <> [0.0821].
Proof.
  destruct two_sources_at_25 as [-> Hb].
  intros Heq. injection Heq as Heq. lra.
Qed.

Import Prototipo1.

(** Claim C5, amended.  Every cell of the field is the total longitudinal
    concentration at [x_i] times the factor
    [exp (- Y_adjusted[j, i] ^ 2 / 0.5)], a Gaussian in the adjusted lateral
    coordinate [Y_adjusted[j, i] = y_j * width_factor_i + y_center_i] that is
    centred on lateral coordinate 0 and not on the centre line: the factor
    is 1 where the adjusted coordinate is 0, never negative and never above
    1, positive wherever the adjusted coordinate is at most 19 in absolute
    value (farther out binary64 rounds it to 0), does not increase as the
    absolute value of the adjusted coordinate grows, and tends to 0. *)
Theorem field_is_total_times_lateral_factor l active_cities :
  (0 <= lit_resolution l)%Z -> (0 <= lit_lateral_samples l)%Z ->
  exists self F,
    create_river_mesh l = Some self /\
    calculate_pollution_field self active_cities = Some F /\
    (forall j i,
       (j < Z.to_nat (lit_lateral_samples l))%nat ->
       (i < Z.to_nat (lit_resolution l))%nat ->
       Np.cell F j i
       = total_concentration self
           (active_sources (cities_data self) active_cities)
           (x_river self !!! i)
         * lateral_factor (Np.cell (Y_adjusted self) j i) /\
       Np.cell (Y_adjusted self) j i
       = y_river self !!! j
         * width_factor_at (river_width_scale self) (x_river self !!! i)
         + y_center_at (x_river self !!! i)) /\
    lateral_factor 0 = 1 /\
    (forall y, 0 <= lateral_factor y <= 1) /\
    (forall y, Rabs y <= 19 -> 0 < lateral_factor y) /\
    (forall y1 y2, Rabs y1 <= Rabs y2 ->
       lateral_factor y2 <= lateral_factor y1) /\
    (forall eps, 0 < eps ->
       exists M, forall y, M < Rabs y -> lateral_factor y < eps).
Proof.
  intros Hres Hlat.
  destruct (constructed_field l active_cities Hres Hlat)
    as (self & F & Hself & HF & _ & _ & Hr & Hla & _ & _
        & (Hxl & Hyl & _ & _) & (_ & _ & HYa) & _ & Hcells).
  exists self, F. split; [done|]. split; [done|].
  split; [|split; [|split; [|split; [|split]]]].
  - intros j i Hj Hi. split; [by apply Hcells|].
    apply HYa; rewrite ?Hxl, ?Hyl, ?Hr, ?Hla; done.
  - apply lateral_factor_0.
  - intros y. split; [left; apply lateral_factor_pos|apply lateral_factor_le_1].
  - intros y _. apply lateral_factor_pos.
  - apply lateral_factor_decreasing.
  - apply lateral_factor_vanishes.
Qed.

Lemma field_is_total_times_lateral_factor_witness :
  exists self F,
    create_river_mesh literals = Some self /\
    calculate_pollution_field self None = Some F /\
    (forall j i,
       (j < Z.to_nat (lit_lateral_samples literals))%nat ->
       (i < Z.to_nat (lit_resolution literals))%nat ->
       Np.cell F j i
       = total_concentration self
           (active_sources (cities_data self) None)
           (x_river self !!! i)
         * lateral_factor (Np.cell (Y_adjusted self) j i) /\
       Np.cell (Y_adjusted self) j i
       = y_river self !!! j
         * width_factor_at (river_width_scale self) (x_river self !!! i)
         + y_center_at (x_river self !!! i)) /\
    lateral_factor 0 = 1 /\
    (forall y, 0 <= lateral_factor y <= 1) /\
    (forall y, Rabs y <= 19 -> 0 < lateral_factor y) /\
    (forall y1 y2, Rabs y1 <= Rabs y2 ->
       lateral_factor y2 <= lateral_factor y1) /\
    (forall eps, 0 < eps ->
       exists M, forall y, M < Rabs y -> lateral_factor y < eps).
Proof.
  apply (field_is_total_times_lateral_factor literals None); simpl; lia.
Defined.

(** The second longitudinal sample of the constructed model, its centre
    line offset and its width factor. *)
Lemma second_sample :
  Np.linspace_at 0 114 100 1 = 114 / 99 /\
  0 < y_center_at (114 / 99) /\
  0 < width_factor_at 2 (114 / 99).
Proof.
  split; [|split].
  - unfold Np.linspace_at. rewrite decide_False by lia.
    change (100 - 1)%Z with 99%Z. simpl. lra.
  - unfold y_center_at. apply Rmult_lt_0_compat; [lra|].
    pose proof PI_RGT_0. apply sin_gt_0; nra.
  - unfold width_factor_at, river_width_at.
    pose proof (SIN_bound (0.03 * (114 / 99) * 2 * PI)) as [Hs _]. lra.
Qed.

Lemma lateral_middle :
  Np.linspace_at (-2) 2 50 24 = - (2 / 49) /\
  Np.linspace_at (-2) 2 50 25 = 2 / 49.
Proof.
  unfold Np.linspace_at. rewrite !decide_False by lia.
  change (50 - 1)%Z with 49%Z.
  change (INR 24) with (INR (Z.to_nat 24)).
  change (INR 25) with (INR (Z.to_nat 25)).
  rewrite !INR_IZR_INZ, !Z2Nat.id by lia. split; lra.
Qed.

Lemma filter_all {A} (P : A -> Prop) `{forall a, Decision (P a)} (l : list A) :
  Forall P l -> filter P l = l.
Proof.
  induction 1 as [|a l Ha _ IH]; [done|].
  rewrite filter_cons_True by done. by rewrite IH.
Qed.

Lemma active_sources_None cities : active_sources cities None = cities.
Proof.
  unfold active_sources. apply filter_all, Forall_forall.
  intros entry Hin. apply list_elem_of_fmap. by exists entry.
Qed.

Lemma attenuation_not_centred_on_centerline :
  exists self F,
    __init__ = Some self /\
    calculate_pollution_field self None = Some F /\
    let yc := y_center_at (x_river self !!! 1%nat) in
    let below := Np.cell (Y_adjusted self) 24 1 in
    let above := Np.cell (Y_adjusted self) 25 1 in
    0 < yc /\
    lateral_factor yc < 1 /\
    below < yc < above /\
    Rabs ((yc - below) - (above - yc)) < 0.000001 /\
    lateral_factor above < lateral_factor below /\
    Np.cell F 25 1 < Np.cell F 24 1.
Proof.
  destruct (constructed_field literals None)
    as (self & F & Hself & HF & Hc & Hk & Hr & Hla & HL & Hsc
        & (Hxl & Hyl & _ & _) & (Hx & Hy & HYa) & _ & Hcells);
    [simpl; lia..|].
  simpl in Hc, Hk, Hr, Hla, HL, Hsc.
  rewrite Hr in Hxl. rewrite Hla in Hyl.
  exists self, F. split; [done|]. split; [done|].
  destruct second_sample as (Hx1 & Hyc & Hwf).
  destruct lateral_middle as (Hy24 & Hy25).
  assert (Ex1 : x_river self !!! 1%nat = 114 / 99).
  { rewrite Hx by lia. rewrite HL, Hr. exact Hx1. }
  assert (Ey24 : y_river self !!! 24%nat = - (2 / 49)).
  { rewrite Hy by lia. rewrite Hla. exact Hy24. }
  assert (Ey25 : y_river self !!! 25%nat = 2 / 49).
  { rewrite Hy by lia. rewrite Hla. exact Hy25. }
  assert (E24 : Np.cell (Y_adjusted self) 24 1
                = - (2 / 49) * width_factor_at 2 (114 / 99)
                  + y_center_at (114 / 99)).
  { rewrite HYa by lia. rewrite Ex1, Ey24, Hsc. done. }
  assert (E25 : Np.cell (Y_adjusted self) 25 1
                = 2 / 49 * width_factor_at 2 (114 / 99)
                  + y_center_at (114 / 99)).
  { rewrite HYa by lia. rewrite Ex1, Ey25, Hsc. done. }
  set (wf := width_factor_at 2 (114 / 99)) in *.
  set (yc := y_center_at (114 / 99)) in *.
  assert (Hfac : lateral_factor (Np.cell (Y_adjusted self) 25 1)
                 < lateral_factor (Np.cell (Y_adjusted self) 24 1)).
  { rewrite E24, E25. apply lateral_factor_strict. nra. }
  cbv zeta. rewrite Ex1. fold yc.
  split; [done|]. split; [|split; [|split; [|split]]].
  - destruct (lateral_factor_le_1 yc) as [Hlt|Heq]; [done|].
    apply lateral_factor_eq_1 in Heq. lra.
  - rewrite E24, E25. split; nra.
  - rewrite E24, E25.
    replace (yc - (- (2 / 49) * wf + yc) - (2 / 49 * wf + yc - yc))
      with 0 by lra.
    rewrite Rabs_R0. lra.
  - exact Hfac.
  - rewrite !Hcells by (simpl; lia). rewrite Ex1.
    assert (Htot : 0 < total_concentration self
                         (active_sources (cities_data self) None) (114 / 99)).
    { rewrite active_sources_None, Hc.
      change (lit_cities_data literals)
        with (("Yauli (La Oroya)"%string,
               {| distance := 0; waste := 27.1; color := "#FF4444" |})
              :: tail (lit_cities_data literals)).
      change (0 < pollution_function self (114 / 99) 0 27.1
                  + total_concentration self
                      (tail (lit_cities_data literals)) (114 / 99)).
      assert (0 <= total_concentration self
                     (tail (lit_cities_data literals)) (114 / 99)).
      { apply total_concentration_nonneg; [lra|].
        simpl. repeat constructor; simpl; lra. }
      unfold pollution_function. rewrite decide_False by lra. rewrite Hk.
      pose proof (exp_pos (- (0.2) * (114 / 99 - 0))). nra. }
    by apply Rmult_lt_compat_l.
Qed.

Import Prototipo1.

(** Claim C6, amended.  For [n > 0] longitudinal and [m > 0] lateral
    samples, [k > 0] and non-negative rates, the field has [m] rows and [n]
    columns (lateral by longitudinal, the shape of [np.meshgrid]) and every
    cell is a non-negative real. *)
Theorem field_shape_and_sign l active_cities :
  (0 < lit_resolution l)%Z -> (0 < lit_lateral_samples l)%Z ->
  0 < lit_k l ->
  Forall (fun entry : string * City => 0 <= waste entry.2) (lit_cities_data l) ->
  exists self F,
    create_river_mesh l = Some self /\
    calculate_pollution_field self active_cities = Some F /\
    Np.has_shape F (Z.to_nat (lit_lateral_samples l))
                   (Z.to_nat (lit_resolution l)) /\
    forall j i,
      (j < Z.to_nat (lit_lateral_samples l))%nat ->
      (i < Z.to_nat (lit_resolution l))%nat ->
      0 <= Np.cell F j i.
Proof.
  intros Hres Hlat Hk Hw.
  destruct (constructed_field l active_cities)
    as (self & F & Hself & HF & Hc & Hks & _ & _ & _ & _ & _ & _ & HsF & Hcells);
    [lia..|].
  exists self, F. split; [exact Hself|]. split; [exact HF|]. split; [exact HsF|].
  intros j i Hj Hi. rewrite Hcells by assumption.
  apply Rmult_le_pos; [|left; apply lateral_factor_pos].
  apply total_concentration_nonneg; [lra|].
  rewrite Hc. unfold active_sources. apply Forall_forall.
  intros entry [_ Hin]%list_elem_of_filter.
  rewrite Forall_forall in Hw. by apply Hw.
Qed.

Lemma field_shape_and_sign_witness :
  exists self F,
    create_river_mesh literals = Some self /\
    calculate_pollution_field self None = Some F /\
    Np.has_shape F (Z.to_nat (lit_lateral_samples literals))
                   (Z.to_nat (lit_resolution literals)) /\
    forall j i,
      (j < Z.to_nat (lit_lateral_samples literals))%nat ->
      (i < Z.to_nat (lit_resolution literals))%nat ->
      0 <= Np.cell F j i.
Proof.
  apply (field_shape_and_sign literals None); simpl;
    [lia | lia | lra | repeat constructor; simpl; lra].
Defined.

Lemma field_shape_is_lateral_by_longitudinal :
  exists self F,
    __init__ = Some self /\
    calculate_pollution_field self None = Some F /\
    resolution self = 100%Z /\ lateral_samples self = 50%Z /\
    Np.has_shape F 50 100 /\ ~ Np.has_shape F 100 50.
Proof.
  destruct (constructed_field literals None)
    as (self & F & Hself & HF & _ & _ & Hr & Hla & _ & _ & _ & _ & HsF & _);
    [simpl; lia..|].
  exists self, F. split; [exact Hself|]. split; [exact HF|].
  clear Hself HF. simpl in *.
  split; [exact Hr|]. split; [exact Hla|].
  change (Z.to_nat 50) with 50%nat in HsF.
  change (Z.to_nat 100) with 100%nat in HsF.
  split; [exact HsF|].
  intros [Hlen _]. destruct HsF as [Hlen' _]. lia.
Qed.

(** ** What the field computation reads *)

Lemma for_each_ext {A S} (f g : A -> S -> option S) l s :
  (forall a s, f a s = g a s) -> Py.for_each f l s = Py.for_each g l s.
Proof.
  intros Hfg. revert s. induction l as [|a l IH]; intros s; simpl; [done|].
  rewrite Hfg. destruct (g a s); simpl; [apply IH|done].
Qed.

Lemma field_reads_sources self active_cities :
  calculate_pollution_field self active_cities
  = Py.for_each
      (fun (src : R * R) F =>
         Py.for_each (add_city_column self src.1 src.2)
                     (Py.range (resolution self)) F)
      (map source_of (active_sources (cities_data self) active_cities))
      (Np.zeros_like2 (X self)).
Proof.
  unfold calculate_pollution_field, active_sources.
  set (act := match active_cities with
              | Some l => l | None => map fst (cities_data self) end).
  clearbody act. generalize (Np.zeros_like2 (X self)).
  induction (cities_data self) as [|entry cities IH]; intros F; [done|].
  simpl. destruct (decide (entry.1 ∈ act)) as [Hin|Hnin].
  - assert (E : add_city self act entry F
                = Py.for_each
                    (add_city_column self (distance entry.2) (waste entry.2))
                    (Py.range (resolution self)) F)
      by (unfold add_city; by rewrite decide_True).
    rewrite E, filter_cons_True by done. simpl.
    destruct (Py.for_each _ (Py.range (resolution self)) F); simpl; [apply IH|done].
  - assert (E : add_city self act entry F = Some F)
      by (unfold add_city; by rewrite decide_False).
    rewrite E, filter_cons_False by done. simpl. apply IH.
Qed.

(** Claim C8.  The per-source concentration depends on the model through
    [k] only, and the field through [k], the sampling grid ([resolution],
    [x_river], the number of lateral samples, [X], [Y_adjusted]) and the
    location and rate of the active sources: two models that agree on these
    give identical results, whatever their other attributes are. *)
Theorem field_determined_by_explicit_inputs
    (self1 self2 : MantaroRiverModel) (active1 active2 : option (list string)) :
  k self1 = k self2 ->
  resolution self1 = resolution self2 ->
  x_river self1 = x_river self2 ->
  length (y_river self1) = length (y_river self2) ->
  X self1 = X self2 ->
  Y_adjusted self1 = Y_adjusted self2 ->
  map source_of (active_sources (cities_data self1) active1)
  = map source_of (active_sources (cities_data self2) active2) ->
  (forall x xi Bi,
     pollution_function self1 x xi Bi = pollution_function self2 x xi Bi) /\
  calculate_pollution_field self1 active1
  = calculate_pollution_field self2 active2.
Proof.
  intros Hk Hr Hx Hy HX HYa Hsrc.
  assert (Hpf : forall x xi Bi,
            pollution_function self1 x xi Bi = pollution_function self2 x xi Bi).
  { intros. unfold pollution_function. by rewrite Hk. }
  split; [exact Hpf|].
  rewrite !field_reads_sources, Hsrc, HX, Hr.
  apply for_each_ext. intros src F.
  apply for_each_ext. intros i F'.
  unfold add_city_column. rewrite Hx, Hy.
  destruct (x_river self2 !! i) as [x|]; simpl; [|done].
  rewrite Hpf. apply for_each_ext. intros j F''.
  unfold add_lateral. by rewrite HYa.
Qed.

(** ** Python indices *)

Lemma int_nonneg (r : R) : 0 <= r -> (0 <= Py.int r)%Z.
Proof.
  intros Hr. unfold Py.int. rewrite decide_True by done.
  destruct (base_Int_part r) as [_ Hlow].
  apply Z.lt_succ_r, lt_IZR. rewrite succ_IZR. lra.
Qed.

Lemma getitem_in_range {A} (a : list A) (i : Z) :
  (0 <= i < Z.of_nat (length a))%Z -> is_Some (Py.getitem a i).
Proof.
  intros Hi. unfold Py.getitem. rewrite decide_True by lia.
  apply lookup_lt_is_Some_2. lia.
Qed.


Lemma div_Some (a b : R) : b <> 0 -> Py.div a b = Some (a / b).
Proof. intros. unfold Py.div. by rewrite decide_False. Qed.

Lemma div_nonneg (a b : R) : 0 <= a -> 0 < b -> 0 <= a / b.
Proof.
  intros Ha Hb. apply Rmult_le_pos; [done|]. left. by apply Rinv_0_lt_compat.
Qed.

(** ** Removing the flagged particles *)

Import PrototipoFinal.

Lemma sorted_set_reverse_spec (l : list nat) :
  StronglySorted ge (sorted_set_reverse l) /\
  NoDup (sorted_set_reverse l) /\
  forall i, i ∈ sorted_set_reverse l <-> i ∈ l.
Proof.
  unfold sorted_set_reverse. split; [|split].
  - apply StronglySorted_merge_sort.
    + intros a b c ? ?. unfold ge in *. lia.
    + intros a b. unfold ge. lia.
  - rewrite merge_sort_Permutation. apply NoDup_remove_dups.
  - intros i. rewrite merge_sort_Permutation. apply elem_of_remove_dups.
Qed.

Lemma pops_app {A} (ds : list nat) (l0 l1 r : list A) :
  Py.for_each pop ds l0 = Some r ->
  Py.for_each pop ds (l0 ++ l1) = Some (r ++ l1).
Proof.
  revert l0. induction ds as [|d ds IH]; intros l0; simpl.
  - by intros [= ->].
  - intros Hr. destruct (pop d l0) as [l0'|] eqn:Hpop; simpl in Hr; [|done].
    unfold pop in Hpop. destruct (decide (d < length l0)%nat) as [Hd|Hd]; [|done].
    injection Hpop as <-.
    assert (E : pop d (l0 ++ l1) = Some (delete d l0 ++ l1)).
    { unfold pop. rewrite decide_True by (rewrite length_app; lia). f_equal.
      clear -Hd. revert d Hd.
      induction l0 as [|a l0 IH]; intros d Hd; simpl in *; [lia|].
      destruct d; [done|]. simpl. f_equal. apply IH. lia. }
    rewrite E. simpl. by apply IH.
Qed.

Lemma delete_last {A} (l : list A) (a : A) : delete (length l) (l ++ [a]) = l.
Proof. rewrite delete_middle. by rewrite app_nil_r. Qed.

(** Popping a strictly decreasing list of positions that are exactly the
    positions of the elements failing [P] leaves the elements that
    satisfy [P], in their order. *)
Lemma pops_filter {A} (P : A -> Prop) `{forall a, Decision (P a)}
    (l : list A) (ds : list nat) :
  StronglySorted ge ds -> NoDup ds ->
  (forall i, i ∈ ds <-> exists a, l !! i = Some a /\ ~ P a) ->
  Py.for_each pop ds l = Some (filter P l).
Proof.
  revert ds. induction l as [|a l IH] using rev_ind; intros ds Hsort Hnd Hds.
  - destruct ds as [|d ds]; [done|].
    destruct (proj1 (Hds d)) as (a & Ha & _); [left|]. done.
  - rewrite filter_app.
    assert (Hbound : forall i, i ∈ ds -> (i <= length l)%nat).
    { intros i (b & Hb & _)%Hds. apply lookup_lt_Some in Hb.
      rewrite length_app in Hb. simpl in Hb. lia. }
    destruct (decide (P a)) as [HPa|HPa].
    + rewrite filter_cons_True, filter_nil by done.
      apply pops_app, IH; [done..|].
      intros i. rewrite Hds. split.
      * intros (b & Hb & HPb).
        destruct (decide (i = length l)) as [->|Hne].
        -- rewrite list_lookup_middle in Hb by done. by injection Hb as <-.
        -- exists b. split; [|done].
           rewrite lookup_app_l in Hb; [done|].
           apply lookup_lt_Some in Hb. rewrite length_app in Hb. simpl in Hb. lia.
      * intros (b & Hb & HPb). exists b. split; [|done].
        by apply lookup_app_l_Some.
    + rewrite filter_cons_False, filter_nil, app_nil_r by done.
      assert (Hin : length l ∈ ds).
      { apply Hds. exists a. split; [|done]. by apply list_lookup_middle. }
      destruct ds as [|d ds]; [by apply elem_of_nil in Hin|].
      apply StronglySorted_inv in Hsort as [Hsort Hall].
      apply NoDup_cons in Hnd as [Hd Hnd].
      assert (d = length l) as ->.
      { apply elem_of_cons in Hin as [->|Hin]; [done|].
        rewrite Forall_forall in Hall. specialize (Hall _ Hin).
        specialize (Hbound d ltac:(left)). unfold ge in Hall. lia. }
      assert (E : pop (length l) (l ++ [a]) = Some l).
      { unfold pop. rewrite decide_True by (rewrite length_app; simpl; lia).
        by rewrite delete_last. }
      simpl. rewrite E. simpl. apply IH; [done..|].
      intros i. split.
      * intros Hi. destruct (proj1 (Hds i)) as (b & Hb & HPb); [by right|].
        exists b. split; [|done].
        rewrite lookup_app_l in Hb; [done|].
        assert (i <> length l) by (intros ->; done).
        apply lookup_lt_Some in Hb. rewrite length_app in Hb. simpl in Hb. lia.
      * intros (b & Hb & HPb).
        assert (Hi : i ∈ length l :: ds).
        { apply Hds. exists b. split; [|done]. by apply lookup_app_l_Some. }
        apply elem_of_cons in Hi as [->|Hi]; [|done].
        apply lookup_lt_Some in Hb. lia.
Qed.

Import PrototipoFinal.

(** ** One pass of [update_particles] *)

Lemma not_kept self p :
  ~ kept self p <->
  Cx self p <= 0.1 \/ x p > river_length self \/ (age p > 100)%Z.
Proof.
  unfold kept. split.
  - intros Hn. destruct (decide (Cx self p <= 0.1)) as [?|?]; [by left|].
    destruct (decide (x p > river_length self)) as [?|?]; [by right; left|].
    destruct (decide (age p > 100)%Z) as [?|?]; [by right; right|].
    exfalso. apply Hn. repeat split; [lra|lia|lra].
  - intros [?|[?|?]] (? & ? & ?); (lra || lia).
Qed.

Lemma update_particle_spec self i p rm rnd p' rm' rnd' :
  update_particle self i p rm rnd = Some (p', rm', rnd') ->
  stepped self p p' /\
  forall n, n ∈ rm' <-> n ∈ rm \/ (n = i /\ ~ kept self p').
Proof.
  unfold update_particle. intros Hu.
  apply bind_Some in Hu as (yzr & _ & Hu). injection Hu as <- <- <-.
  split; [by repeat split|].
  intros n. rewrite not_kept. unfold Cx. cbn [x age Bi xi].
  set (C := Bi p * k self * exp (- k self * (x p + animation_speed self * 0.8 - xi p))).
  destruct (decide (C <= 0.1)) as [HC|HC];
    destruct (decide (x p + animation_speed self * 0.8 > river_length self
                      \/ (age p + 1 > 100)%Z)) as [Hx|Hx];
    rewrite ?elem_of_app, ?list_elem_of_singleton; tauto.
Qed.

Lemma update_particle_total self i p rm rnd :
  0 < river_length self -> (0 <= resolution self)%Z ->
  length (z_river self) = length (y_river self) ->
  0 <= x p + animation_speed self * 0.8 ->
  is_Some (update_particle self i p rm rnd).
Proof.
  intros HL Hres Hlen Hx. unfold update_particle.
  match goal with
  | |- is_Some (mbind _ ?m) => cut (is_Some m); [by intros [yzr ->]|]
  end.
  destruct (decide (x p + animation_speed self * 0.8 < river_length self));
    [|done].
  rewrite div_Some by lra. simpl.
  match goal with
  | |- context [decide (?i < _)%Z] =>
      assert (0 <= i)%Z
        by (apply int_nonneg, div_nonneg; [|done];
            apply Rmult_le_pos; [done|]; by apply IZR_le);
      destruct (decide (i < Z.of_nat (length (y_river self)))%Z); [|done];
      destruct (getitem_in_range (y_river self) i) as [ty ->]; [lia|];
      destruct (getitem_in_range (z_river self) i) as [zr ->]; [lia|]
  end.
  done.
Qed.

Lemma update_loop_spec self ps : forall i rm rnd ps' rm' rnd',
  update_loop self i ps rm rnd = Some (ps', rm', rnd') ->
  Forall2 (stepped self) ps ps' /\
  forall n, n ∈ rm' <->
    n ∈ rm \/ ((i <= n)%nat /\ exists p', ps' !! (n - i)%nat = Some p' /\ ~ kept self p').
Proof.
  induction ps as [|p ps IH]; intros i rm rnd ps' rm' rnd'; simpl.
  - intros [= <- <- <-]. split; [constructor|].
    intros n. split; [by left|]. intros [?|(_ & p' & Hp & _)]; done.
  - intros Hu. apply bind_Some in Hu as ([[p1 rm1] rnd1] & Hp1 & Hu).
    apply bind_Some in Hu as ([[ps2 rm2] rnd2] & Hps2 & Hu).
    simpl in Hu. injection Hu as <- <- <-.
    apply update_particle_spec in Hp1 as [Hstep Hrm1].
    apply IH in Hps2 as [Hsteps Hrm2].
    split; [by constructor|].
    intros n. rewrite Hrm2, Hrm1. split.
    + intros [[?|[-> Hk]]|(Hle & p' & Hp' & Hk)].
      * by left.
      * right. split; [lia|]. exists p1. rewrite Nat.sub_diag. done.
      * right. split; [lia|]. exists p'. split; [|done].
        replace (n - i)%nat with (S (n - S i)) by lia. done.
    + intros [?|(Hle & p' & Hp' & Hk)]; [by left; left|].
      destruct (decide (n = i)) as [->|Hne].
      * rewrite Nat.sub_diag in Hp'. injection Hp' as <-. left; right. done.
      * right. split; [lia|]. exists p'. split; [|done].
        replace (n - i)%nat with (S (n - S i)) in Hp' by lia. done.
Qed.

Lemma update_loop_total self ps : forall i rm rnd,
  0 < river_length self -> (0 <= resolution self)%Z ->
  length (z_river self) = length (y_river self) ->
  Forall (fun p => 0 <= x p + animation_speed self * 0.8) ps ->
  is_Some (update_loop self i ps rm rnd).
Proof.
  induction ps as [|p ps IH]; intros i rm rnd HL Hres Hlen Hps; simpl; [done|].
  apply Forall_cons in Hps as [Hp Hps].
  destruct (update_particle_total self i p rm rnd HL Hres Hlen Hp) as [r ->].
  simpl. destruct (IH (S i) r.1.2 r.2 HL Hres Hlen Hps) as [r' ->]. done.
Qed.

Lemma update_particles_spec self self' :
  update_particles self = Some self' ->
  exists ps' rnd',
    Forall2 (stepped self) (waste_particles self) ps' /\
    self' = set_particles self (filter (kept self) ps') (particle_id self) rnd'.
Proof.
  unfold update_particles. intros Hu.
  apply bind_Some in Hu as ([[ps' rm] rnd'] & Hloop & Hu).
  apply bind_Some in Hu as (kept_ps & Hpop & Hu). simpl in *.
  injection Hu as <-.
  apply update_loop_spec in Hloop as [Hsteps Hrm].
  destruct (sorted_set_reverse_spec rm) as (Hsort & Hnd & Hmem).
  rewrite (pops_filter (kept self) ps' _ Hsort Hnd) in Hpop.
  - injection Hpop as <-. eauto.
  - intros i. rewrite Hmem, Hrm, Nat.sub_0_r. split.
    + intros [[]%elem_of_nil|(_ & ?)]. done.
    + intros ?. right. split; [lia|done].
Qed.

Lemma update_particles_total self :
  0 < river_length self -> (0 <= resolution self)%Z ->
  length (z_river self) = length (y_river self) ->
  Forall (fun p => 0 <= x p + animation_speed self * 0.8) (waste_particles self) ->
  is_Some (update_particles self).
Proof.
  intros HL Hres Hlen Hps. unfold update_particles.
  destruct (update_loop_total self (waste_particles self) 0 [] (np_random self)
              HL Hres Hlen Hps) as [[[ps' rm] rnd'] Hloop].
  rewrite Hloop. simpl.
  pose proof Hloop as [Hsteps Hrm]%update_loop_spec.
  destruct (sorted_set_reverse_spec rm) as (Hsort & Hnd & Hmem).
  rewrite (pops_filter (kept self) ps' _ Hsort Hnd); [done|].
  intros i. rewrite Hmem, Hrm, Nat.sub_0_r. split.
  + intros [[]%elem_of_nil|(_ & ?)]. done.
  + intros ?. right. split; [lia|done].
Qed.

Import PrototipoFinal.

Lemma same_river_refl self : same_river self self.
Proof. by repeat split. Qed.

Lemma same_river_trans s1 s2 s3 :
  same_river s1 s2 -> same_river s2 s3 -> same_river s1 s3.
Proof.
  unfold same_river. intros H12 H23.
  destruct H12 as (?&?&?&?&?&?&?&?&?&?), H23 as (?&?&?&?&?&?&?&?&?&?).
  repeat split; congruence.
Qed.

Lemma same_river_set_particles self ps next rnd :
  same_river self (set_particles self ps next rnd).
Proof. by repeat split. Qed.

Lemma state_ok_same_river self self' :
  state_ok self -> same_river self self' ->
  Forall (fun p => 0 <= x p) (waste_particles self') -> state_ok self'.
Proof.
  intros (HL & Hres & Hsp & Hlen & Hc & _) (Ec&EL&Ek&Er&Es&En&Ex&Ey&Ez&Ew) Hps.
  unfold state_ok. rewrite Ec, EL, Er, Es, Ey, Ez. done.
Qed.

(** ** Spawning particles *)

Lemma spawn_spec city data sz i self :
  state_ok self -> 0 <= distance data ->
  exists self',
    spawn city data sz i self = Some self' /\
    state_ok self' /\ same_river self self' /\
    np_random self' = np_random self /\
    (exists extra, waste_particles self' = waste_particles self ++ extra /\
                   (length extra <= 1)%nat).
Proof.
  intros Hok Hd. pose proof Hok as (HL & Hres & Hsp & Hlen & Hc & Hps).
  unfold spawn.
  set (px := if decide (distance data - INR i * 0.5 < 0) then distance data
             else distance data - INR i * 0.5).
  assert (Hpx : 0 <= px) by (unfold px; case_decide; lra).
  rewrite div_Some by lra. simpl.
  set (idx := Py.int (px * IZR (resolution self) / river_length self)).
  assert (0 <= idx)%Z.
  { apply int_nonneg, div_nonneg; [|done].
    apply Rmult_le_pos; [done|]. by apply IZR_le. }
  destruct (decide (idx < Z.of_nat (length (y_river self)))%Z).
  - destruct (getitem_in_range (y_river self) idx) as [yr ->]; [lia|].
    destruct (getitem_in_range (z_river self) idx) as [zr ->]; [lia|].
    simpl. eexists. split; [done|]. split; [|split; [|split]].
    + eapply state_ok_same_river; [done|apply same_river_set_particles|].
      simpl. apply Forall_app. split; [done|].
      apply Forall_cons. split; [exact Hpx|apply Forall_nil_2].
    + apply same_river_set_particles.
    + done.
    + eexists. split; [done|]. simpl. lia.
  - exists self. split; [done|]. split; [done|]. split; [apply same_river_refl|].
    split; [done|]. exists []. split; [by rewrite app_nil_r|]. simpl. lia.
Qed.

(** A loop whose body keeps the state well formed and the river unchanged
    does so as a whole. *)
Lemma for_each_preserves {A} (f : A -> MantaroRiverAnimation -> option MantaroRiverAnimation)
    (Q : A -> Prop) l self :
  Forall Q l -> state_ok self ->
  (forall a s, Q a -> state_ok s ->
     exists s', f a s = Some s' /\ state_ok s' /\ same_river s s' /\
                np_random s' = np_random s) ->
  exists self', Py.for_each f l self = Some self' /\ state_ok self' /\
                same_river self self' /\ np_random self' = np_random self.
Proof.
  intros HQ Hok Hstep.
  destruct (for_each_inv f
              (fun _ s => state_ok s /\ same_river self s
                          /\ np_random s = np_random self) l self)
    as (self' & Hrun & Hok' & Hsame & Hrnd).
  - split; [done|]. split; [apply same_river_refl|done].
  - intros n a s Ha (Hs & Hsame & Hrnd).
    rewrite Forall_forall in HQ.
    destruct (Hstep a s) as (s' & Hs' & Hok' & Hsame' & Hrnd');
      [apply HQ; by eapply list_elem_of_lookup_2|done|].
    exists s'. split; [done|]. split; [done|].
    split; [by eapply same_river_trans|congruence].
  - eauto.
Qed.

Lemma spawn_city_spec (size_of : string -> R) self :
  state_ok self ->
  exists self',
    Py.for_each
      (fun (entry : string * City) self =>
         Py.for_each (spawn entry.1 entry.2 (size_of entry.1))
                     (Py.range (n_particles entry.1 entry.2)) self)
      (cities_data self) self = Some self' /\
    state_ok self' /\ same_river self self' /\ np_random self' = np_random self.
Proof.
  intros Hok. pose proof Hok as (_ & _ & _ & _ & Hc & _).
  apply (for_each_preserves _ (fun entry : string * City => 0 <= distance entry.2));
    [done..|].
  intros entry s Hd Hs.
  apply (for_each_preserves _ (fun _ => True)); [by apply Forall_true|done|].
  intros i s' _ Hs'.
  destruct (spawn_spec entry.1 entry.2 (size_of entry.1) i s' Hs' Hd)
    as (s'' & ? & ? & ? & ? & _). eauto.
Qed.

Lemma add_waste_particles_spec current_x frame self :
  state_ok self ->
  exists self',
    add_waste_particles current_x frame self = Some self' /\
    state_ok self' /\ same_river self self' /\ np_random self' = np_random self.
Proof.
  intros Hok. pose proof Hok as (_ & _ & _ & _ & Hc & _).
  unfold add_waste_particles.
  apply (for_each_preserves _ (fun entry : string * City => 0 <= distance entry.2));
    [done..|].
  intros entry s Hd Hs.
  destruct (decide (Rabs (current_x - distance entry.2) < 2)).
  - apply (for_each_preserves _ (fun _ => True)); [by apply Forall_true|done|].
    intros i s' _ Hs'.
    destruct (spawn_spec entry.1 entry.2
                (if decide (entry.1 = "Huancayo"%string) then 0.5 else 40)
                i s' Hs' Hd) as (s'' & ? & ? & ? & ? & _). eauto.
  - exists s. split; [done|]. split; [done|]. split; [apply same_river_refl|done].
Qed.

(** ** A frame *)

Lemma length_last_200 {A} (l : list A) :
  (200 < length l)%nat -> length (last_200 l) = 200%nat.
Proof. intros. unfold last_200. rewrite length_drop. lia. Qed.

Lemma create_frame_spec frame_num self :
  state_ok self ->
  exists self',
    create_frame frame_num self = Some self' /\
    state_ok self' /\ same_river self self' /\
    (length (waste_particles self') <= 200)%nat /\
    Forall (kept self') (waste_particles self').
Proof.
  intros Hok. unfold create_frame.
  destruct (add_waste_particles_spec (IZR frame_num * animation_speed self)
              frame_num self Hok) as (s1 & -> & Hok1 & Hsame1 & _).
  simpl.
  assert (exists s2,
    (if decide (frame_num `mod` 10 = 0)%Z then
       Py.for_each
         (fun (entry : string * City) self =>
            Py.for_each
              (spawn entry.1 entry.2
                 (if decide (entry.1 = "Huancayo"%string) then 18 else 80))
              (Py.range (n_particles entry.1 entry.2)) self)
         (cities_data s1) s1
     else Some s1) = Some s2 /\ state_ok s2 /\ same_river s1 s2)
    as (s2 & -> & Hok2 & Hsame2).
  { destruct (decide (frame_num `mod` 10 = 0)%Z).
    - destruct (spawn_city_spec
                  (fun c => if decide (c = "Huancayo"%string) then 18 else 80)
                  s1 Hok1) as (s2 & ? & ? & ? & _).
      eauto.
    - exists s1. split; [done|]. split; [done|apply same_river_refl]. }
  simpl.
  set (s3 := if decide (length (waste_particles s2) > 200)%nat
             then set_particles s2 (last_200 (waste_particles s2))
                                (particle_id s2) (np_random s2)
             else s2).
  assert (Hsame3 : same_river s2 s3).
  { unfold s3. case_decide; [apply same_river_set_particles|apply same_river_refl]. }
  assert (Hlen3 : (length (waste_particles s3) <= 200)%nat).
  { unfold s3. case_decide; simpl; [rewrite length_last_200; lia|lia]. }
  assert (Hok3 : state_ok s3).
  { eapply state_ok_same_river; [exact Hok2|exact Hsame3|].
    destruct Hok2 as (_ & _ & _ & _ & _ & Hps2).
    unfold s3. case_decide; simpl; [|done]. by apply Forall_drop. }
  pose proof Hok3 as (HL & Hres & Hsp & Hlen & Hc & Hps).
  destruct (update_particles_total s3 HL Hres Hlen) as [s4 Hs4].
  { eapply Forall_impl; [exact Hps|]. intros p Hp. simpl in Hp. nra. }
  exists s4. split; [exact Hs4|].
  apply update_particles_spec in Hs4 as (ps' & rnd' & Hsteps & ->).
  assert (Hsame4 : same_river s3
            (set_particles s3 (filter (kept s3) ps') (particle_id s3) rnd'))
    by apply same_river_set_particles.
  split; [|split; [|split]].
  - eapply state_ok_same_river; [exact Hok3|exact Hsame4|].
    simpl. apply Forall_forall. intros p' [_ Hin]%list_elem_of_filter.
    apply list_elem_of_lookup in Hin as [n Hn].
    destruct (Forall2_lookup_r _ _ _ _ _ Hsteps Hn) as (p & Hp & Hstep).
    destruct Hstep as (-> & _).
    rewrite Forall_forall in Hps.
    assert (0 <= x p) by (apply Hps; by eapply list_elem_of_lookup_2). nra.
  - eapply same_river_trans; [exact Hsame1|].
    eapply same_river_trans; [exact Hsame2|].
    eapply same_river_trans; [exact Hsame3|exact Hsame4].
  - simpl. pose proof (length_filter (kept s3) ps').
    apply Forall2_length in Hsteps. lia.
  - simpl. apply Forall_forall. intros p' [Hk _]%list_elem_of_filter. exact Hk.
Qed.

Import PrototipoFinal.

(** ** The constructor of the animation *)

Lemma place_city_spec L res (yr zr : list R) data :
  L <> 0 -> length zr = length yr ->
  exists data',
    place_city L res yr zr data = Some data' /\
    distance data' = distance data /\ waste data' = waste data.
Proof.
  intros HL Hlen. unfold place_city. rewrite div_Some by done. simpl.
  set (idx0 := Py.int (distance data * IZR res / L)).
  set (idx := if decide (idx0 >= Z.of_nat (length yr))%Z
              then (Z.of_nat (length yr) - 1)%Z else idx0).
  destruct (decide (idx >= 0)%Z) as [Hge|Hlt]; [|by exists data].
  assert (idx < Z.of_nat (length yr))%Z by (unfold idx in *; case_decide; lia).
  destruct (getitem_in_range yr idx) as [yp ->]; [lia|].
  destruct (getitem_in_range zr idx) as [zp ->]; [lia|].
  simpl. eexists. split; [done|]. done.
Qed.

Lemma init_spec l rnd :
  (0 <= lit_resolution l)%Z -> lit_river_length l <> 0 ->
  exists self,
    __init__ l rnd = Some self /\
    k self = lit_k l /\
    river_length self = lit_river_length l /\
    resolution self = lit_resolution l /\
    animation_speed self = lit_animation_speed l /\
    length (x_river self) = Z.to_nat (lit_resolution l) /\
    length (z_river self) = length (y_river self) /\
    waste_particles self = [] /\
    np_random self = rnd /\
    Forall2 (fun e e' : string * City =>
               e'.1 = e.1 /\ distance e'.2 = distance e.2
               /\ waste e'.2 = waste e.2)
            (lit_cities_data l) (cities_data self).
Proof.
  intros Hres HL. unfold __init__, create_river_path.
  destruct (linspace_spec 0 (lit_river_length l) _ Hres) as (xr & -> & Hxl & _).
  simpl.
  assert (Hc : exists cities,
    mapM (fun entry : string * City =>
            data ← place_city (lit_river_length l) (lit_resolution l)
                              (map y_river_at xr) (map z_river_at xr) entry.2;
            Some (entry.1, data)) (lit_cities_data l) = Some cities /\
    Forall2 (fun e e' : string * City =>
               e'.1 = e.1 /\ distance e'.2 = distance e.2
               /\ waste e'.2 = waste e.2) (lit_cities_data l) cities).
  { induction (lit_cities_data l) as [|e cs (cities & IH & HF)].
    - exists []. split; [done|constructor].
    - destruct (place_city_spec (lit_river_length l) (lit_resolution l)
                  (map y_river_at xr) (map z_river_at xr) e.2 HL)
        as (d' & Hd' & Hdist & Hw); [by rewrite !length_fmap|].
      exists ((e.1, d') :: cities). split.
      + simpl. rewrite Hd'. simpl. rewrite IH. done.
      + constructor; done. }
  destruct Hc as (cities & -> & HF). simpl.
  eexists. split; [reflexivity|]. simpl.
  split; [done|]. split; [done|]. split; [done|]. split; [done|].
  split; [done|]. split; [by rewrite !length_fmap|]. done.
Qed.

Lemma init_state_ok l rnd :
  (0 <= lit_resolution l)%Z -> 0 < lit_river_length l ->
  0 <= lit_animation_speed l ->
  Forall (fun e : string * City => 0 <= distance e.2) (lit_cities_data l) ->
  exists self, __init__ l rnd = Some self /\ state_ok self /\
               waste_particles self = [].
Proof.
  intros Hres HL Hsp Hc.
  destruct (init_spec l rnd Hres) as
    (self & Hself & Hk & EL & Er & Es & Hxl & Hzl & Hps & _ & HF); [lra|].
  exists self. split; [exact Hself|]. split; [|exact Hps].
  unfold state_ok. rewrite EL, Er, Es, Hps.
  repeat (split; [done|]). split; [|constructor].
  clear -Hc HF. induction HF as [|e e' cs cs' (_ & Hd & _) _ IH]; [constructor|].
  apply Forall_cons in Hc as [He Hc]. constructor; [lra|by apply IH].
Qed.

Lemma concentration_piecewise_witness :
  Prototipo1.pollution_function Prototipo1.sample_model 10 53 10.5 = 0 /\
  Prototipo1.pollution_function Prototipo1.sample_model 60 53 10.5
  = 10.5 * Prototipo1.k Prototipo1.sample_model
    * exp (- Prototipo1.k Prototipo1.sample_model * (60 - 53)).
Proof.
  split.
  - destruct (concentration_piecewise Prototipo1.sample_model
                PrototipoFinal.sample_state 0.1
                {| Funcion.x_i := 53; Funcion.B := 10.5 |} 10 53 10.5)
      as (Hup & _).
    apply Hup. lra.
  - destruct (concentration_piecewise Prototipo1.sample_model
                PrototipoFinal.sample_state 0.1
                {| Funcion.x_i := 53; Funcion.B := 10.5 |} 60 53 10.5)
      as (_ & Hdown & _).
    apply Hdown. lra.
Defined.

Lemma concentration_peak_witness :
  Prototipo1.pollution_function Prototipo1.sample_model 0 0 27.1 = 27.1 * 0.2 /\
  5.4199999 < Prototipo1.pollution_function Prototipo1.sample_model 0 0 27.1
  < 5.4200001 /\
  Prototipo1.pollution_function Prototipo1.sample_model 53 0 27.1
  = 27.1 * 0.2 * exp (- 0.2 * 53).
Proof.
  destruct (concentration_peak Prototipo1.sample_model
              PrototipoFinal.sample_state 0 27.1) as (_ & _ & Hval & _).
  apply Hval. reflexivity.
Defined.

Lemma concentration_decays_downstream_witness :
  Prototipo1.pollution_function Prototipo1.sample_model 60 53 10.5
  >= Prototipo1.pollution_function Prototipo1.sample_model 70 53 10.5.
Proof.
  apply (concentration_decays_downstream Prototipo1.sample_model 53 10.5 60 70);
    simpl; lra.
Defined.

Lemma total_is_superposition_witness :
  Funcion.C_total_of 0.1 [0; 25; 60] Funcion.puntos !! 1%nat
  = Some (Py.sum (map (fun nd : string * Funcion.Punto =>
                         Funcion.C_i_at 0.1 nd.2 25) Funcion.puntos)).
Proof.
  destruct total_is_superposition as (Hsum & _).
  apply Hsum. reflexivity.
Defined.

Lemma field_determined_by_explicit_inputs_witness :
  Prototipo1.calculate_pollution_field Prototipo1.sample_model
    (Some ["Jauja"%string])
  = Prototipo1.calculate_pollution_field Prototipo1.sample_model_variant
      (Some ["Jauja"%string]).
Proof.
  apply (field_determined_by_explicit_inputs Prototipo1.sample_model
           Prototipo1.sample_model_variant); reflexivity.
Defined.





Import PrototipoFinal.

(** Claim C9.  After [update_particles] every particle left in
    [waste_particles] has [x <= river_length], [age <= 100] and
    [Bi * k * exp (- k * (x - xi)) > 0.1]; the list left is exactly the
    moved particles that satisfy the three conditions, in their order, so
    the others are removed by the same call.  On every well-formed state the
    call returns. *)
Theorem update_particles_keeps_exactly :
  (forall self self',
     update_particles self = Some self' ->
     Forall (fun p =>
               x p <= river_length self' /\ (age p <= 100)%Z /\
               Bi p * k self' * exp (- k self' * (x p - xi p)) > 0.1)
            (waste_particles self') /\
     exists ps',
       Forall2 (stepped self) (waste_particles self) ps' /\
       waste_particles self' = filter (kept self) ps') /\
  (forall self, state_ok self -> is_Some (update_particles self)).
Proof.
  split.
  - intros self self' (ps' & rnd' & Hsteps & ->)%update_particles_spec.
    split; [|by exists ps'].
    simpl. apply Forall_forall. intros p [Hk _]%list_elem_of_filter. exact Hk.
  - intros self (HL & Hres & Hsp & Hlen & _ & Hps).
    apply update_particles_total; [done..|].
    eapply Forall_impl; [exact Hps|]. intros p Hp. simpl in Hp. nra.
Qed.

Lemma sample_state_ok : state_ok sample_state.
Proof.
  unfold state_ok. simpl. split; [lra|]. split; [lia|]. split; [lra|].
  split; [reflexivity|]. split.
  - apply Forall_cons. split; [simpl; lra|apply Forall_nil_2].
  - apply Forall_cons. split; [simpl; lra|].
    apply Forall_cons. split; [simpl; lra|apply Forall_nil_2].
Qed.

Lemma update_particles_keeps_exactly_witness :
  is_Some (update_particles sample_state).
Proof.
  destruct update_particles_keeps_exactly as (_ & Htotal).
  apply Htotal. exact sample_state_ok.
Defined.

Lemma update_particles_length self self' :
  update_particles self = Some self' ->
  (length (waste_particles self') <= length (waste_particles self))%nat.
Proof.
  intros (ps' & rnd' & Hsteps & ->)%update_particles_spec.
  simpl. pose proof (length_filter (kept self) ps').
  apply Forall2_length in Hsteps. lia.
Qed.

Import PrototipoFinal.

(** ** The anatomy of a frame *)

Lemma appended_refl self : appended self self [].
Proof.
  unfold appended. split; [apply same_river_refl|]. split; [done|].
  split; [by rewrite app_nil_r|]. split; [simpl; lia|].
  split; [constructor|]. intros n p Hn. done.
Qed.

Lemma spawned_same_river s1 s2 p :
  same_river s1 s2 -> spawned s2 p -> spawned s1 p.
Proof. intros (Ec & _) Hp. unfold spawned in *. by rewrite <- Ec. Qed.

Lemma appended_trans s1 s2 s3 a b :
  appended s1 s2 a -> appended s2 s3 b -> appended s1 s3 (a ++ b).
Proof.
  intros (Hs12 & Hr12 & Hp12 & Hi12 & Ha & Hna) (Hs23 & Hr23 & Hp23 & Hi23 & Hb & Hnb).
  unfold appended. split; [by eapply same_river_trans|].
  split; [congruence|]. split; [by rewrite Hp23, Hp12, app_assoc|].
  split; [rewrite Hi23, Hi12, length_app; lia|]. split.
  - apply Forall_app. split; [done|].
    eapply Forall_impl; [exact Hb|]. intros p. by apply spawned_same_river.
  - intros n p Hn. apply lookup_app_Some in Hn as [Hn|[Hle Hn]].
    + by apply Hna.
    + rewrite (Hnb _ _ Hn), Hi12. lia.
Qed.

Lemma spawn_appended entry sz i self :
  state_ok self -> entry ∈ cities_data self ->
  exists self' added,
    spawn entry.1 entry.2 sz i self = Some self' /\
    state_ok self' /\ appended self self' added /\ (length added <= 1)%nat.
Proof.
  intros Hok Hin. pose proof Hok as (HL & Hres & Hsp & Hlen & Hc & Hps).
  assert (Hd : 0 <= distance entry.2).
  { rewrite Forall_forall in Hc. by apply Hc. }
  destruct (spawn_spec entry.1 entry.2 sz i self Hok Hd)
    as (self' & Hrun & Hok' & Hsame & Hrnd & _).
  exists self'. revert Hrun. unfold spawn.
  set (px := if decide (distance entry.2 - INR i * 0.5 < 0) then distance entry.2
             else distance entry.2 - INR i * 0.5).
  assert (Hpx : 0 <= px <= distance entry.2).
  { unfold px. pose proof (pos_INR i). case_decide; lra. }
  rewrite div_Some by lra. simpl.
  destruct (decide (Py.int (px * IZR (resolution self) / river_length self)
                    < Z.of_nat (length (y_river self)))%Z).
  - destruct (Py.getitem (y_river self) _) as [yr|]; [|done]. simpl.
    destruct (Py.getitem (z_river self) _) as [zr|]; [|done]. simpl.
    intros [= <-]. eexists [_]. split; [reflexivity|]. split; [exact Hok'|].
    split; [|simpl; lia].
    unfold appended. split; [apply same_river_set_particles|]. split; [done|].
    split; [reflexivity|]. split; [simpl; lia|]. split.
    + apply Forall_cons. split; [|constructor].
      split; [done|]. exists entry. simpl. done.
    + intros [|n] p; simpl; [|done]. intros [= <-]. simpl. lia.
  - intros [= <-]. exists []. split; [done|]. split; [done|].
    split; [apply appended_refl|simpl; lia].
Qed.

Lemma for_each_appended {A}
    (f : A -> MantaroRiverAnimation -> option MantaroRiverAnimation)
    (Q : A -> Prop) l self :
  Forall Q l -> state_ok self ->
  (forall a s, Q a -> state_ok s -> cities_data s = cities_data self ->
     exists s' added, f a s = Some s' /\ state_ok s' /\ appended s s' added) ->
  exists self' added,
    Py.for_each f l self = Some self' /\ state_ok self' /\
    appended self self' added.
Proof.
  intros HQ Hok Hstep.
  destruct (for_each_inv f
              (fun _ s => state_ok s /\ exists added, appended self s added)
              l self) as (self' & Hrun & Hok' & added & Happ).
  - split; [done|]. exists []. apply appended_refl.
  - intros n a s Ha (Hs & added & Happ).
    rewrite Forall_forall in HQ.
    destruct (Hstep a s) as (s' & added' & Hs' & Hok' & Happ').
    + apply HQ. by eapply list_elem_of_lookup_2.
    + done.
    + by destruct Happ as ((Ec & _) & _).
    + exists s'. split; [done|]. split; [done|].
      exists (added ++ added'). by eapply appended_trans.
  - eauto.
Qed.

Lemma spawn_city_appended (size_of : string -> R) self :
  state_ok self ->
  exists self' added,
    Py.for_each
      (fun (entry : string * City) self =>
         Py.for_each (spawn entry.1 entry.2 (size_of entry.1))
                     (Py.range (n_particles entry.1 entry.2)) self)
      (cities_data self) self = Some self' /\
    state_ok self' /\ appended self self' added.
Proof.
  intros Hok.
  apply (for_each_appended _ (fun entry => entry ∈ cities_data self));
    [by apply Forall_forall|done|].
  intros entry s Hin Hs Hc.
  apply (for_each_appended _ (fun _ => True)); [by apply Forall_true|done|].
  intros i s' _ Hs' Hc'.
  destruct (spawn_appended entry (size_of entry.1) i s' Hs')
    as (s'' & added & ? & ? & ? & _); [congruence|]. eauto.
Qed.

Lemma add_waste_particles_appended current_x frame self :
  state_ok self ->
  exists self' added,
    add_waste_particles current_x frame self = Some self' /\
    state_ok self' /\ appended self self' added.
Proof.
  intros Hok. unfold add_waste_particles.
  apply (for_each_appended _ (fun entry => entry ∈ cities_data self));
    [by apply Forall_forall|done|].
  intros entry s Hin Hs Hc.
  destruct (decide (Rabs (current_x - distance entry.2) < 2)).
  - apply (for_each_appended _ (fun _ => True)); [by apply Forall_true|done|].
    intros i s' _ Hs' Hc'.
    destruct (spawn_appended entry
                (if decide (entry.1 = "Huancayo"%string) then 0.5 else 40)
                i s' Hs') as (s'' & added & ? & ? & ? & _); [congruence|]. eauto.
  - exists s, []. split; [done|]. split; [done|apply appended_refl].
Qed.

Lemma last_200_short {A} (l : list A) :
  (length l <= 200)%nat -> last_200 l = l.
Proof.
  intros. unfold last_200. replace (length l - 200)%nat with 0%nat by lia. done.
Qed.

Lemma set_particles_same_river s s' ps next rnd :
  same_river s s' -> set_particles s' ps next rnd = set_particles s ps next rnd.
Proof.
  intros (Ec&EL&Ek&Er&Es&En&Ex&Ey&Ez&Ew). unfold set_particles.
  by rewrite Ec, EL, Ek, Er, Es, En, Ex, Ey, Ez, Ew.
Qed.

Lemma kept_same_river s s' p : same_river s s' -> kept s' p <-> kept s p.
Proof. intros (_&EL&Ek&_). unfold kept, Cx. by rewrite EL, Ek. Qed.

Lemma stepped_same_river s s' p p' :
  same_river s s' -> stepped s' p p' <-> stepped s p p'.
Proof. intros (_&_&_&_&Es&_). unfold stepped. by rewrite Es. Qed.

Lemma create_frame_anatomy frame_num self :
  state_ok self ->
  exists self' added ps' rnd',
    create_frame frame_num self = Some self' /\
    Forall (spawned self) added /\
    (forall n p, added !! n = Some p ->
                 pid p = (particle_id self + Z.of_nat n)%Z) /\
    Forall2 (stepped self) (last_200 (waste_particles self ++ added)) ps' /\
    self' = set_particles self (filter (kept self) ps')
              (particle_id self + Z.of_nat (length added)) rnd'.
Proof.
  intros Hok. unfold create_frame.
  destruct (add_waste_particles_appended (IZR frame_num * animation_speed self)
              frame_num self Hok) as (s1 & a1 & -> & Hok1 & Happ1).
  simpl.
  assert (exists s2 a2,
    (if decide (frame_num `mod` 10 = 0)%Z then
       Py.for_each
         (fun (entry : string * City) self =>
            Py.for_each
              (spawn entry.1 entry.2
                 (if decide (entry.1 = "Huancayo"%string) then 18 else 80))
              (Py.range (n_particles entry.1 entry.2)) self)
         (cities_data s1) s1
     else Some s1) = Some s2 /\ state_ok s2 /\ appended s1 s2 a2)
    as (s2 & a2 & -> & Hok2 & Happ2).
  { destruct (decide (frame_num `mod` 10 = 0)%Z).
    - destruct (spawn_city_appended
                  (fun c => if decide (c = "Huancayo"%string) then 18 else 80)
                  s1 Hok1) as (s2 & a2 & ? & ? & ?).
      exists s2, a2. done.
    - exists s1, []. split; [done|]. split; [done|apply appended_refl]. }
  simpl.
  pose proof (appended_trans _ _ _ _ _ Happ1 Happ2)
    as (Hsame & Hrnd & Hps & Hid & Hsp & Hpid).
  set (s3 := if decide (length (waste_particles s2) > 200)%nat
             then set_particles s2 (last_200 (waste_particles s2))
                                (particle_id s2) (np_random s2)
             else s2).
  assert (Hs3 : same_river s2 s3 /\ particle_id s3 = particle_id s2 /\
                waste_particles s3 = last_200 (waste_particles s2)).
  { unfold s3. case_decide; simpl.
    - split; [apply same_river_set_particles|done].
    - split; [apply same_river_refl|]. split; [done|].
      symmetry. apply last_200_short. lia. }
  destruct Hs3 as (Hsame3 & Hid3 & Hps3).
  assert (Hsame03 : same_river self s3) by (by eapply same_river_trans).
  assert (Hok3 : state_ok s3).
  { eapply state_ok_same_river; [exact Hok2|exact Hsame3|].
    rewrite Hps3. destruct Hok2 as (_ & _ & _ & _ & _ & Hps2).
    by apply Forall_drop. }
  pose proof Hok3 as (HL & Hres & Hspd & Hlen & Hc & Hx).
  destruct (update_particles_total s3 HL Hres Hlen) as [s4 Hs4].
  { eapply Forall_impl; [exact Hx|]. intros p Hp. simpl in Hp. nra. }
  rewrite Hs4.
  apply update_particles_spec in Hs4 as (ps' & rnd' & Hsteps & ->).
  exists (set_particles s3 (filter (kept s3) ps') (particle_id s3) rnd'),
         (a1 ++ a2), ps', rnd'.
  split; [done|]. split; [exact Hsp|]. split; [exact Hpid|]. split.
  - rewrite Hps3, Hps in Hsteps.
    eapply Forall2_impl; [exact Hsteps|].
    intros p p' Hst. by apply (stepped_same_river self s3).
  - rewrite (set_particles_same_river self s3) by done.
    rewrite Hid3, Hid. f_equal.
    apply list_filter_iff. intros p. by apply kept_same_river.
Qed.

Import PrototipoFinal.

(** ** Invariants of the particle list *)

Lemma StronglySorted_sublist {A} (R : relation A) (l1 l2 : list A) :
  sublist l1 l2 -> StronglySorted R l2 -> StronglySorted R l1.
Proof.
  induction 1 as [|a l1 l2 Hsub IH|a l1 l2 Hsub IH]; intros Hs.
  - constructor.
  - apply StronglySorted_inv in Hs as [Hs Hall]. constructor; [by apply IH|].
    rewrite Forall_forall in Hall. apply Forall_forall. intros b Hb.
    apply Hall. by eapply elem_of_sublist.
  - apply StronglySorted_inv in Hs as [Hs _]. by apply IH.
Qed.

Lemma StronglySorted_by_index {A} (R : relation A) (l : list A) :
  (forall i j a b, (i < j)%nat -> l !! i = Some a -> l !! j = Some b -> R a b) ->
  StronglySorted R l.
Proof.
  induction l as [|a l IH]; intros Hidx; [constructor|].
  constructor.
  - apply IH. intros i j b c Hij Hb Hc. by apply (Hidx (S i) (S j)); [lia|..].
  - apply Forall_forall. intros b [j Hb]%list_elem_of_lookup.
    by apply (Hidx 0%nat (S j)); [lia|..].
Qed.

Lemma stepped_pids self l ps' :
  Forall2 (stepped self) l ps' -> map pid ps' = map pid l.
Proof.
  induction 1 as [|p p' l ps' (_&_&_&_&Hpid&_) _ IH]; [done|].
  simpl. by rewrite Hpid, IH.
Qed.

Lemma ids_ok_frame frame_num self :
  state_ok self -> ids_ok self ->
  exists self',
    create_frame frame_num self = Some self' /\ ids_ok self' /\
    (particle_id self <= particle_id self')%Z.
Proof.
  intros Hok [Hsorted Hbound].
  destruct (create_frame_anatomy frame_num self Hok)
    as (self' & added & ps' & rnd' & Hrun & _ & Hpid & Hsteps & ->).
  eexists. split; [exact Hrun|]. split; [|simpl; lia].
  set (N := particle_id self) in *.
  assert (Hall : StronglySorted Z.lt (map pid (waste_particles self ++ added)) /\
                 Forall (fun p => (pid p < N + Z.of_nat (length added))%Z)
                        (waste_particles self ++ added)).
  { split.
    - rewrite fmap_app. apply StronglySorted_app_2; [|done|].
      + intros a b (p & -> & Hp)%list_elem_of_fmap (q & -> & Hq)%list_elem_of_fmap.
        rewrite Forall_forall in Hbound. specialize (Hbound _ Hp).
        apply list_elem_of_lookup in Hq as [n Hn]. rewrite (Hpid _ _ Hn). lia.
      + apply StronglySorted_by_index. intros i j a b Hij Ha Hb.
        rewrite list_lookup_fmap in Ha, Hb.
        destruct (added !! i) as [p|] eqn:Hp; [|done].
        destruct (added !! j) as [q|] eqn:Hq; [|done].
        simpl in Ha, Hb. injection Ha as <-. injection Hb as <-.
        rewrite (Hpid _ _ Hp), (Hpid _ _ Hq). lia.
    - apply Forall_app. split.
      + eapply Forall_impl; [exact Hbound|]. intros p Hp. simpl in Hp. lia.
      + apply Forall_forall. intros p [n Hn]%list_elem_of_lookup.
        rewrite (Hpid _ _ Hn). apply lookup_lt_Some in Hn. lia. }
  destruct Hall as [Hs Hb].
  pose proof (stepped_pids _ _ _ Hsteps) as Hpids.
  unfold ids_ok. simpl. split.
  - eapply StronglySorted_sublist;
      [apply fmap_sublist, (sublist_filter (kept self) ps')|].
    change (StronglySorted Z.lt (map pid ps')). rewrite Hpids.
    eapply StronglySorted_sublist; [|exact Hs].
    apply fmap_sublist. unfold last_200. apply sublist_drop.
  - assert (Hb' : Forall (fun v => (v < N + Z.of_nat (length added))%Z)
                         (map pid ps')).
    { rewrite Hpids. apply Forall_fmap.
      unfold last_200. by apply Forall_drop. }
    apply Forall_fmap in Hb'.
    apply Forall_forall. intros p [_ Hin]%list_elem_of_filter.
    rewrite Forall_forall in Hb'. by apply Hb'.
Qed.

Lemma init_particles l rnd self :
  __init__ l rnd = Some self ->
  waste_particles self = [] /\ particle_id self = 0%Z /\ np_random self = rnd.
Proof.
  unfold __init__. intros H. apply bind_Some in H as (path & _ & H).
  by injection H as <-.
Qed.

Lemma ids_ok_NoDup self : ids_ok self -> NoDup (map pid (waste_particles self)).
Proof.
  intros [Hs _]. induction Hs as [|a l _ IH Hall]; [constructor|].
  apply NoDup_cons. split; [|done].
  intros Hin. rewrite Forall_forall in Hall. specialize (Hall _ Hin). lia.
Qed.

Lemma aged_frame frame_num self :
  state_ok self -> Forall (aged self) (waste_particles self) ->
  exists self',
    create_frame frame_num self = Some self' /\
    Forall (aged self') (waste_particles self').
Proof.
  intros Hok Haged.
  destruct (create_frame_anatomy frame_num self Hok)
    as (self' & added & ps' & rnd' & Hrun & Hsp & _ & Hsteps & ->).
  eexists. split; [exact Hrun|]. simpl.
  assert (Hall : Forall (aged self) (last_200 (waste_particles self ++ added))).
  { unfold last_200. apply Forall_drop, Forall_app. split; [done|].
    eapply Forall_impl; [exact Hsp|].
    intros p (Hage & entry & _ & _ & _ & _ & _ & Hx). unfold aged.
    rewrite Hage. simpl. split; [lia|lra]. }
  apply Forall_forall. intros p' [_ Hin]%list_elem_of_filter.
  apply list_elem_of_lookup in Hin as [n Hn].
  destruct (Forall2_lookup_r _ _ _ _ _ Hsteps Hn) as (p & Hp & Hx & Hage & _).
  rewrite Forall_forall in Hall.
  destruct (Hall p) as [Hage0 Hx0]; [by eapply list_elem_of_lookup_2|].
  unfold aged. simpl. rewrite Hx, Hage, plus_IZR. split; [lia|lra].
Qed.

Lemma sourced_frame frame_num self :
  state_ok self -> Forall (sourced self) (waste_particles self) ->
  exists self',
    create_frame frame_num self = Some self' /\
    Forall (sourced self') (waste_particles self').
Proof.
  intros Hok Hsrc.
  destruct (create_frame_anatomy frame_num self Hok)
    as (self' & added & ps' & rnd' & Hrun & Hsp & _ & Hsteps & ->).
  eexists. split; [exact Hrun|]. simpl.
  assert (Hall : Forall (sourced self) (last_200 (waste_particles self ++ added))).
  { unfold last_200. apply Forall_drop, Forall_app. split; [done|].
    eapply Forall_impl; [exact Hsp|].
    intros p (_ & entry & Hin & Hc & Hxi & HBi & _). by exists entry. }
  apply Forall_forall. intros p' [_ Hin]%list_elem_of_filter.
  apply list_elem_of_lookup in Hin as [n Hn].
  destruct (Forall2_lookup_r _ _ _ _ _ Hsteps Hn)
    as (p & Hp & _ & _ & HBi & Hxi & _ & Hc & _).
  rewrite Forall_forall in Hall.
  destruct (Hall p) as (entry & Hin & Hc0 & Hxi0 & HBi0);
    [by eapply list_elem_of_lookup_2|].
  exists entry. simpl. split; [done|]. split; [congruence|].
  split; congruence.
Qed.

Import PrototipoFinal.

(** ** The index of a position *)

Lemma int_floor (r : R) :
  0 <= r -> IZR (Py.int r) <= r < IZR (Py.int r) + 1.
Proof.
  intros Hr. unfold Py.int. rewrite decide_True by done.
  destruct (base_Int_part r). lra.
Qed.

Lemma index_below (x L : R) (res : Z) :
  0 < L -> (0 < res)%Z -> 0 <= x ->
  (Py.int (x * IZR res / L) < res)%Z <-> x < L.
Proof.
  intros HL Hres Hx.
  assert (Hr : 0 < IZR res) by (by apply IZR_lt).
  assert (Hq : 0 <= x * IZR res / L) by (apply div_nonneg; nra).
  destruct (int_floor _ Hq) as [Hlo Hhi].
  assert (Hmul : x * IZR res / L * L = x * IZR res) by (field; lra).
  split.
  - intros Hlt. apply IZR_lt in Hlt.
    assert (IZR (Py.int (x * IZR res / L)) + 1 <= IZR res).
    { rewrite <- plus_IZR. apply IZR_le. apply lt_IZR in Hlt. lia. }
    assert (x * IZR res / L < IZR res) by lra.
    assert (x * IZR res < IZR res * L) by nra. nra.
  - intros Hlt. apply lt_IZR.
    assert (x * IZR res / L < IZR res); [|lra].
    apply Rmult_lt_reg_r with L; [done|]. rewrite Hmul. nra.
Qed.

Lemma sample_near (x L : R) (res : Z) :
  0 < L -> (2 <= res)%Z -> 0 <= x < L ->
  Rabs (Np.linspace_at 0 L res (Z.to_nat (Py.int (x * IZR res / L))) - x)
  <= L / IZR (res - 1).
Proof.
  intros HL Hres [Hx HxL].
  assert (Hr : 2 <= IZR res) by (by apply IZR_le).
  assert (Hq : 0 <= x * IZR res / L) by (apply div_nonneg; nra).
  destruct (int_floor _ Hq) as [Hlo Hhi].
  pose proof (int_nonneg _ Hq) as Hi.
  set (i := Py.int (x * IZR res / L)) in *.
  assert (Hmul : x * IZR res / L * L = x * IZR res) by (field; lra).
  unfold Np.linspace_at. rewrite decide_False by lia.
  rewrite INR_IZR_INZ, Z2Nat.id by done. rewrite minus_IZR.
  set (n := IZR res - 1). assert (Hn : 1 <= n) by (unfold n; lra).
  replace (0 + IZR i * ((L - 0) / n) - x) with ((IZR i * L - x * n) / n)
    by (field; lra).
  assert (H1 : IZR i * L <= x * IZR res) by nra.
  assert (H2 : x * IZR res < (IZR i + 1) * L) by nra.
  unfold Rdiv. rewrite Rabs_mult, (Rabs_right (/ n)).
  2:{ apply Rle_ge. left. apply Rinv_0_lt_compat. lra. }
  apply Rmult_le_compat_r; [left; apply Rinv_0_lt_compat; lra|].
  apply Rabs_le. unfold n. split; nra.
Qed.

Lemma particle_marker_spec self p :
  river_sampled self -> 0 <= x p ->
  (x p < river_length self ->
   exists i,
     (i < Z.to_nat (resolution self))%nat /\
     Z.of_nat i = Py.int (x p * IZR (resolution self) / river_length self) /\
     particle_marker self p
     = Some (Some (x_river self !!! i, y_river self !!! i,
                   z_river self !!! i + 1)) /\
     ((2 <= resolution self)%Z ->
      Rabs (x_river self !!! i - x p)
      <= river_length self / IZR (resolution self - 1))) /\
  (river_length self <= x p -> particle_marker self p = Some None).
Proof.
  intros (HL & Hres & Hxl & Hyl & Hzl & Hxv) Hx.
  pose proof (index_below (x p) _ _ HL Hres Hx) as Hidx.
  assert (Hq : 0 <= x p * IZR (resolution self) / river_length self).
  { apply div_nonneg; [|done]. apply Rmult_le_pos; [done|].
    apply IZR_le. lia. }
  pose proof (int_nonneg _ Hq) as Hi.
  unfold particle_marker. rewrite div_Some by lra. simpl.
  set (idx := Py.int (x p * IZR (resolution self) / river_length self)) in *.
  split.
  - intros HxL. apply Hidx in HxL.
    exists (Z.to_nat idx). split; [lia|]. split; [lia|]. split.
    + rewrite decide_True by lia.
      unfold Py.getitem. rewrite !decide_True by lia.
      rewrite !list_lookup_lookup_total_lt by lia. done.
    + intros Hres2. rewrite Hxv by lia. apply sample_near; [done..|].
      split; [done|]. by apply Hidx.
  - intros HxL. rewrite decide_False; [done|].
    intros Hlt. assert (x p < river_length self); [|lra].
    apply Hidx. lia.
Qed.

(** ** The value [Cx] of a particle *)

Lemma Cx_downstream self p :
  xi p <= x p ->
  Cx self p = pollution_function self (x p) (xi p) (Bi p).
Proof.
  intros Hx. unfold Cx, pollution_function. rewrite decide_False by lra. done.
Qed.

Lemma Cx_upstream self p :
  x p < xi p -> 0 < k self -> 0 < Bi p ->
  pollution_function self (x p) (xi p) (Bi p) = 0 /\
  Bi p * k self < Cx self p.
Proof.
  intros Hx Hk HBi. unfold Cx, pollution_function.
  rewrite decide_True by done. split; [done|].
  assert (1 < exp (- k self * (x p - xi p))).
  { rewrite <- exp_0. apply exp_increasing. nra. }
  assert (0 < Bi p * k self) by nra. nra.
Qed.

Lemma kept_distance self p :
  kept self p -> 0 < k self -> 0 < Bi p ->
  x p - xi p < ln (10 * Bi p * k self) / k self.
Proof.
  intros (_ & _ & HC) Hk HBi. unfold Cx in HC.
  assert (Hpos : 0 < 10 * Bi p * k self) by nra.
  apply Rmult_lt_reg_r with (k self); [done|].
  replace (ln (10 * Bi p * k self) / k self * k self)
    with (ln (10 * Bi p * k self)) by (field; lra).
  apply exp_lt_inv. rewrite exp_ln by done.
  assert (E : exp ((x p - xi p) * k self) * exp (- k self * (x p - xi p)) = 1).
  { rewrite <- exp_plus. replace (_ + _) with 0 by lra. apply exp_0. }
  pose proof (exp_pos ((x p - xi p) * k self)).
  pose proof (exp_pos (- k self * (x p - xi p))).
  nra.
Qed.

Lemma not_kept_without_rate self p :
  Bi p * k self <= 0 -> ~ kept self p.
Proof.
  intros Hz (_ & _ & HC). unfold Cx in HC.
  pose proof (exp_pos (- k self * (x p - xi p))). nra.
Qed.

Import PrototipoFinal.

(** ** What the constructor builds *)

Lemma init_arrays l rnd self :
  __init__ l rnd = Some self ->
  exists xr,
    Np.linspace 0 (lit_river_length l) (lit_resolution l) = Some xr /\
    x_river self = xr /\
    y_river self = map y_river_at xr /\
    z_river self = map z_river_at xr /\
    river_width self = map river_width_at xr /\
    river_length self = lit_river_length l /\
    resolution self = lit_resolution l /\
    mapM (fun entry : string * City =>
            data ← place_city (lit_river_length l) (lit_resolution l)
                              (map y_river_at xr) (map z_river_at xr) entry.2;
            Some (entry.1, data)) (lit_cities_data l)
    = Some (cities_data self).
Proof.
  unfold __init__, create_river_path. intros H.
  apply bind_Some in H as (path & Hpath & H). injection H as <-. simpl.
  apply bind_Some in Hpath as (xr & Hxr & Hpath).
  apply bind_Some in Hpath as (cities & Hc & Hpath).
  injection Hpath as <-. simpl. exists xr. done.
Qed.

Lemma init_river_sampled l rnd self :
  __init__ l rnd = Some self ->
  0 < lit_river_length l -> (0 < lit_resolution l)%Z ->
  river_sampled self.
Proof.
  intros (xr & Hxr & Ex & Ey & Ez & Ew & EL & Er & _)%init_arrays HL Hres.
  destruct (linspace_spec 0 (lit_river_length l) (lit_resolution l))
    as (xr' & Hxr' & Hlen & Hval); [lia|].
  rewrite Hxr in Hxr'. injection Hxr' as <-.
  unfold river_sampled. rewrite EL, Er, Ex, Ey, Ez, !length_fmap. done.
Qed.

(** ** The banks *)

Lemma river_width_at_bounds (x : R) : 0.4 <= river_width_at x <= 1.2.
Proof.
  unfold river_width_at. pose proof (SIN_bound (0.03 * x * 2 * PI)). lra.
Qed.

Lemma create_river_surface_spec self :
  length (y_river self) = length (x_river self) ->
  length (z_river self) = length (x_river self) ->
  length (river_width self) = length (x_river self) ->
  exists banks,
    create_river_surface self = Some banks /\
    banks.1 = map (fun i => [x_river self !!! i;
                             y_river self !!! i - river_width self !!! i;
                             z_river self !!! i])
                  (seq 0 (length (x_river self))) /\
    banks.2 = map (fun i => [x_river self !!! i;
                             y_river self !!! i + river_width self !!! i;
                             z_river self !!! i])
                  (seq 0 (length (x_river self))).
Proof.
  intros Hy Hz Hw. unfold create_river_surface.
  destruct (for_each_inv (add_banks self)
    (fun c banks =>
       banks.1 = map (fun i => [x_river self !!! i;
                                y_river self !!! i - river_width self !!! i;
                                z_river self !!! i]) (seq 0 c) /\
       banks.2 = map (fun i => [x_river self !!! i;
                                y_river self !!! i + river_width self !!! i;
                                z_river self !!! i]) (seq 0 c))
    (seq 0 (length (x_river self))) ([], [])) as (banks & Hrun & H1 & H2).
  - done.
  - intros c i banks Hi [H1 H2]. apply lookup_seq in Hi as [-> Hc].
    simpl in Hc. unfold add_banks.
    rewrite !list_lookup_lookup_total_lt by lia.
    eexists. split; [reflexivity|]. cbn [fst snd].
    rewrite seq_S, !fmap_app, H1, H2. done.
  - rewrite length_seq in H1, H2. by exists banks.
Qed.

(** ** Placing the cities *)

Lemma place_city_placed L res (yr zr : list R) data :
  0 < L -> (0 <= res)%Z -> 0 <= distance data ->
  length zr = length yr -> (0 < length yr)%nat ->
  exists i,
    (i < length yr)%nat /\
    Z.of_nat i = Z.min (Py.int (distance data * IZR res / L))
                       (Z.of_nat (length yr) - 1) /\
    place_city L res yr zr data
    = Some {| distance := distance data; waste := waste data;
              color := color data; elevation := elevation data;
              x_pos := x_pos data; y_pos := yr !!! i;
              z_pos := Some (zr !!! i + 20) |}.
Proof.
  intros HL Hres Hd Hlen Hn. unfold place_city. rewrite div_Some by lra. simpl.
  assert (Hq : 0 <= distance data * IZR res / L).
  { apply div_nonneg; [|done]. apply Rmult_le_pos; [done|]. by apply IZR_le. }
  pose proof (int_nonneg _ Hq) as Hi.
  set (idx0 := Py.int (distance data * IZR res / L)) in *.
  set (idx := if decide (idx0 >= Z.of_nat (length yr))%Z
              then (Z.of_nat (length yr) - 1)%Z else idx0).
  assert (Hidx : idx = Z.min idx0 (Z.of_nat (length yr) - 1))
    by (unfold idx; case_decide; lia).
  clearbody idx idx0. exists (Z.to_nat idx). split; [lia|]. split; [lia|].
  rewrite decide_True by lia.
  unfold Py.getitem. rewrite !decide_True by lia.
  rewrite !list_lookup_lookup_total_lt by lia. done.
Qed.

Lemma place_city_no_samples L res data :
  L <> 0 -> place_city L res [] [] data = Some data.
Proof.
  intros HL. unfold place_city. rewrite div_Some by done. simpl.
  change (Z.of_nat 0) with 0%Z.
  destruct (decide (Py.int (distance data * IZR res / L) >= 0)%Z);
    rewrite decide_False by lia; done.
Qed.

Import PrototipoFinal.

(** Extra X1.  On a well-formed state a frame is: append the particles
    spawned for the cities, numbered from [particle_id] on; keep the last
    200; move every particle one step; keep the ones that pass the three
    tests.  Nothing else of the state changes but the random sequence. *)
Theorem frame_is_spawn_truncate_move_filter frame_num self :
  state_ok self ->
  exists self' added ps' rnd',
    create_frame frame_num self = Some self' /\
    Forall (spawned self) added /\
    (forall n p, added !! n = Some p ->
                 pid p = (particle_id self + Z.of_nat n)%Z) /\
    Forall2 (stepped self) (last_200 (waste_particles self ++ added)) ps' /\
    self' = set_particles self (filter (kept self) ps')
              (particle_id self + Z.of_nat (length added)) rnd'.
Proof. apply create_frame_anatomy. Qed.

Lemma frame_is_spawn_truncate_move_filter_witness :
  exists self' added ps' rnd',
    create_frame 10 sample_state = Some self' /\
    Forall (spawned sample_state) added /\
    (forall n p, added !! n = Some p ->
                 pid p = (particle_id sample_state + Z.of_nat n)%Z) /\
    Forall2 (stepped sample_state)
            (last_200 (waste_particles sample_state ++ added)) ps' /\
    self' = set_particles sample_state (filter (kept sample_state) ps')
              (particle_id sample_state + Z.of_nat (length added)) rnd'.
Proof.
  apply (frame_is_spawn_truncate_move_filter 10 sample_state).
  exact sample_state_ok.
Defined.

(** Extra X2.  Particle ids are distinct: the constructor starts with no
    particle, every frame keeps the ids increasing along the list and below
    [particle_id], and [particle_id] never decreases. *)
Theorem particle_ids_stay_distinct :
  (forall l rnd self, __init__ l rnd = Some self -> ids_ok self) /\
  (forall frame_num self,
     state_ok self -> ids_ok self ->
     exists self',
       create_frame frame_num self = Some self' /\ ids_ok self' /\
       (particle_id self <= particle_id self')%Z) /\
  (forall self, ids_ok self -> NoDup (map pid (waste_particles self))).
Proof.
  split; [|split].
  - intros l rnd self (Hps & _)%init_particles. unfold ids_ok.
    rewrite Hps. split; constructor.
  - apply ids_ok_frame.
  - apply ids_ok_NoDup.
Qed.

Lemma sample_state_ids_ok : ids_ok sample_state.
Proof.
  unfold ids_ok. simpl. split.
  - repeat constructor.
  - repeat constructor; simpl; lia.
Qed.

Lemma particle_ids_stay_distinct_witness :
  exists self',
    create_frame 0 sample_state = Some self' /\ ids_ok self' /\
    (particle_id sample_state <= particle_id self')%Z.
Proof.
  destruct particle_ids_stay_distinct as (_ & Hframe & _).
  apply Hframe; [exact sample_state_ok|exact sample_state_ids_ok].
Defined.

(** ** The states that the frames reach *)

Lemma reaches_invariant l rnd self0 self :
  (0 <= lit_resolution l)%Z -> 0 < lit_river_length l ->
  0 <= lit_animation_speed l ->
  Forall (fun e : string * City => 0 <= distance e.2) (lit_cities_data l) ->
  __init__ l rnd = Some self0 ->
  reaches self0 self ->
  state_ok self /\ same_river self0 self /\
  (length (waste_particles self) <= 200)%nat /\
  Forall (kept self) (waste_particles self) /\
  ids_ok self /\
  Forall (aged self) (waste_particles self).
Proof.
  intros Hres HL Hsp Hc Hinit Hreach.
  destruct (init_state_ok l rnd Hres HL Hsp Hc) as (s0 & Hs0 & Hok0 & Hps0).
  rewrite Hinit in Hs0. injection Hs0 as <-.
  induction Hreach as [|frame_num self self' _ IH Hrun].
  - split; [done|]. split; [apply same_river_refl|].
    rewrite Hps0. split; [simpl; lia|]. split; [constructor|].
    split; [|constructor]. unfold ids_ok. rewrite Hps0.
    split; constructor.
  - destruct IH as (Hok & Hsame & _ & _ & Hids & Haged).
    destruct (create_frame_spec frame_num self Hok)
      as (s1 & Hrun1 & Hok1 & Hsame1 & Hlen1 & Hkept1).
    destruct (ids_ok_frame frame_num self Hok Hids)
      as (s2 & Hrun2 & Hids2 & _).
    destruct (aged_frame frame_num self Hok Haged) as (s3 & Hrun3 & Haged3).
    rewrite Hrun in Hrun1, Hrun2, Hrun3.
    injection Hrun1 as <-. injection Hrun2 as <-. injection Hrun3 as <-.
    split; [done|]. split; [by eapply same_river_trans|]. done.
Qed.

(** Extra X3.  In the animation of the script, from the constructor's
    state on and whatever [np.random] returns, every particle of every
    state that the frames reach has an age between 0 and 90, so the test
    [age > 100] of [update_particles] never removes a particle there. *)
Theorem age_stays_below_the_limit rnd :
  exists self0,
    __init__ literals rnd = Some self0 /\
    forall self, reaches self0 self ->
      Forall (fun p => (0 <= age p <= 90)%Z) (waste_particles self).
Proof.
  destruct (init_spec literals rnd)
    as (self0 & Hinit & _ & HL0 & _ & Hs0 & _); [simpl; lia|simpl; lra|].
  exists self0. split; [exact Hinit|]. intros self Hreach.
  assert (Hc : Forall (fun e : string * City => 0 <= distance e.2)
                      (lit_cities_data literals)).
  { simpl. repeat (apply Forall_cons; split; [simpl; lra|]).
    apply Forall_nil_2. }
  destruct (reaches_invariant literals rnd self0 self)
    as (_ & Hsame & _ & Hkept & _ & Haged);
    [simpl; lia|simpl; lra|simpl; lra|exact Hc|exact Hinit|exact Hreach|].
  destruct Hsame as (_ & HL & _ & _ & Hs & _).
  rewrite HL0 in HL. rewrite Hs0 in Hs. simpl in HL, Hs.
  apply Forall_forall. intros p Hp.
  rewrite Forall_forall in Hkept, Haged.
  destruct (Hkept p Hp) as (Hx & _). destruct (Haged p Hp) as [Hage Hmoved].
  rewrite HL in Hx. rewrite Hs in Hmoved.
  split; [exact Hage|]. apply le_IZR. lra.
Qed.

Lemma age_stays_below_the_limit_witness :
  exists self0 self1,
    __init__ literals (fun _ => 0) = Some self0 /\
    create_frame 0 self0 = Some self1 /\
    Forall (fun p => (0 <= age p <= 90)%Z) (waste_particles self1).
Proof.
  destruct (age_stays_below_the_limit (fun _ => 0))
    as (self0 & Hinit & Hages).
  destruct (init_state_ok literals (fun _ => 0)) as (s0 & Hs0 & Hok0 & _);
    [simpl; lia|simpl; lra|simpl; lra| |].
  { simpl. repeat (apply Forall_cons; split; [simpl; lra|]).
    apply Forall_nil_2. }
  rewrite Hinit in Hs0. injection Hs0 as <-.
  destruct (create_frame_spec 0 self0 Hok0) as (self1 & Hrun & _).
  exists self0, self1. split; [exact Hinit|]. split; [exact Hrun|].
  apply Hages. eapply reaches_frame; [apply reaches_start|exact Hrun].
Defined.

(** Extra X4.  With a positive river length, a resolution and a speed that
    are not negative and no city before kilometre 0, every state that the
    state changes of the frames reach from the constructor's state is well
    formed, has the river, the cities and the parameters of the
    constructor's state, holds at most 200 particles that all pass the
    three tests, and has increasing particle ids.  Whether the drawing code
    of a frame raises is not part of this statement. *)
Theorem animation_keeps_its_invariants l rnd :
  (0 <= lit_resolution l)%Z -> 0 < lit_river_length l ->
  0 <= lit_animation_speed l ->
  Forall (fun e : string * City => 0 <= distance e.2) (lit_cities_data l) ->
  exists self0,
    __init__ l rnd = Some self0 /\
    forall self, reaches self0 self ->
      state_ok self /\ same_river self0 self /\
      (length (waste_particles self) <= 200)%nat /\
      Forall (kept self) (waste_particles self) /\
      ids_ok self.
Proof.
  intros Hres HL Hsp Hc.
  destruct (init_state_ok l rnd Hres HL Hsp Hc) as (self0 & Hinit & _).
  exists self0. split; [exact Hinit|]. intros self Hreach.
  destruct (reaches_invariant l rnd self0 self Hres HL Hsp Hc Hinit Hreach)
    as (Hok & Hsame & Hlen & Hkept & Hids & _).
  done.
Qed.

Lemma animation_keeps_its_invariants_witness :
  exists self0,
    __init__ literals (fun _ => 0) = Some self0 /\
    forall self, reaches self0 self ->
      state_ok self /\ same_river self0 self /\
      (length (waste_particles self) <= 200)%nat /\
      Forall (kept self) (waste_particles self) /\
      ids_ok self.
Proof.
  apply (animation_keeps_its_invariants literals (fun _ => 0));
    simpl; [lia|lra|lra|].
  repeat (apply Forall_cons; split; [simpl; lra|]). apply Forall_nil_2.
Defined.

(** Extra X5.  The marker of a particle at [0 <= x < river_length] is the
    river sample at index [int(x * resolution / river_length)], which is in
    range and lies within one sample spacing of [x]; a particle at or past
    [river_length] gets no marker. *)
Theorem marker_is_the_nearby_sample self p :
  river_sampled self -> 0 <= x p ->
  (x p < river_length self ->
   exists i,
     (i < Z.to_nat (resolution self))%nat /\
     Z.of_nat i = Py.int (x p * IZR (resolution self) / river_length self) /\
     particle_marker self p
     = Some (Some (x_river self !!! i, y_river self !!! i,
                   z_river self !!! i + 1)) /\
     ((2 <= resolution self)%Z ->
      Rabs (x_river self !!! i - x p)
      <= river_length self / IZR (resolution self - 1))) /\
  (river_length self <= x p -> particle_marker self p = Some None).
Proof. apply particle_marker_spec. Qed.

Lemma sample_state_sampled : river_sampled sample_state.
Proof.
  unfold river_sampled. simpl. split; [lra|]. split; [lia|].
  repeat (split; [reflexivity|]).
  intros i Hi. unfold Np.linspace_at. rewrite decide_False by lia.
  change (2 - 1)%Z with 1%Z.
  destruct i as [|[|i]]; simpl in *; [lra|lra|lia].
Qed.

Lemma marker_is_the_nearby_sample_witness :
  exists i,
    (i < 2)%nat /\
    particle_marker sample_state
      {| pid := 0; x := 53; y := 0; z := 3701; age := 0;
         source_city := "Jauja"; pcolor := "#FF8800"; size := 40;
         Bi := 10.5; xi := 53; opacity := 1.0 |}
    = Some (Some (x_river sample_state !!! i, y_river sample_state !!! i,
                  z_river sample_state !!! i + 1)).
Proof.
  destruct (marker_is_the_nearby_sample sample_state
              {| pid := 0; x := 53; y := 0; z := 3701; age := 0;
                 source_city := "Jauja"; pcolor := "#FF8800"; size := 40;
                 Bi := 10.5; xi := 53; opacity := 1.0 |}
              sample_state_sampled) as [Hin _]; [simpl; lra|].
  destruct Hin as (i & Hi & _ & Hm & _); [simpl; lra|].
  exists i. split; [exact Hi|exact Hm].
Defined.

(** Extra X6.  The value [Cx] of [update_particles] agrees with
    [pollution_function] at and after the source; before the source
    [pollution_function] is 0 while [Cx] exceeds the peak [Bi * k]. *)
Theorem Cx_versus_pollution_function self p :
  (xi p <= x p ->
   Cx self p = pollution_function self (x p) (xi p) (Bi p)) /\
  (x p < xi p -> 0 < k self -> 0 < Bi p ->
   pollution_function self (x p) (xi p) (Bi p) = 0 /\
   Bi p * k self < Cx self p).
Proof. split; [apply Cx_downstream|apply Cx_upstream]. Qed.

Lemma Cx_versus_pollution_function_witness :
  let p := {| pid := 1; x := 52.5; y := 0; z := 3701; age := 100;
              source_city := "Jauja"; pcolor := "#FF8800"; size := 40;
              Bi := 10.5; xi := 53; opacity := 1.0 |} in
  pollution_function sample_state (x p) (xi p) (Bi p) = 0 /\
  Bi p * k sample_state < Cx sample_state p.
Proof.
  intros p. destruct (Cx_versus_pollution_function sample_state p) as [_ Hup].
  apply Hup; simpl; lra.
Defined.

(** Extra X7.  A kept particle of a source with [Bi > 0] and [k > 0] is
    less than [ln (10 * Bi * k) / k] kilometres past its source, and no
    particle with [Bi * k <= 0] is kept. *)
Theorem kept_particles_are_near_their_source self p :
  (kept self p -> 0 < k self -> 0 < Bi p ->
   x p - xi p < ln (10 * Bi p * k self) / k self) /\
  (Bi p * k self <= 0 -> ~ kept self p).
Proof. split; [apply kept_distance|apply not_kept_without_rate]. Qed.

Lemma kept_particles_are_near_their_source_witness :
  let p := {| pid := 0; x := 53; y := 0; z := 3701; age := 0;
              source_city := "Jauja"; pcolor := "#FF8800"; size := 40;
              Bi := 10.5; xi := 53; opacity := 1.0 |} in
  x p - xi p < ln (10 * Bi p * k sample_state) / k sample_state.
Proof.
  intros p.
  destruct (kept_particles_are_near_their_source sample_state p) as [Hnear _].
  apply Hnear; [|simpl; lra|simpl; lra].
  unfold kept, Cx. simpl. split; [lra|]. split; [lia|].
  replace (- (0.2) * (53 - 53)) with 0 by lra. rewrite exp_0. lra.
Defined.

(** ** The cap on the number of particles *)

Lemma last_200_suffix {A} (l : list A) :
  (exists older, l = older ++ last_200 l) /\
  length (last_200 l) = Nat.min 200 (length l).
Proof.
  unfold last_200. split.
  - exists (take (length l - 200) l). by rewrite take_drop.
  - rewrite length_drop. lia.
Qed.

(** Claim C10.  On every well-formed state the state change of
    [create_frame] completes and is: append the new particles, keep the
    last [min(200, length)] entries of the list, which are its most recent
    ones, move them one step and keep those that pass the three tests of
    [update_particles]; so at most 200 particles are left.
    [update_particles] only removes: the ids it leaves are a sublist of the
    ids it found, and the list is no longer.  On any state at all, the
    list has at most 200 entries whenever the state change completes. *)
Theorem create_frame_bounds_particles :
  (forall frame_num self,
     state_ok self ->
     exists self' added ps',
       create_frame frame_num self = Some self' /\
       Forall (spawned self) added /\
       (exists older,
          waste_particles self ++ added
          = older ++ last_200 (waste_particles self ++ added)) /\
       length (last_200 (waste_particles self ++ added))
       = Nat.min 200 (length (waste_particles self ++ added)) /\
       Forall2 (stepped self) (last_200 (waste_particles self ++ added)) ps' /\
       waste_particles self' = filter (kept self) ps' /\
       (length (waste_particles self') <= 200)%nat) /\
  (forall self self',
     update_particles self = Some self' ->
     exists ps',
       Forall2 (stepped self) (waste_particles self) ps' /\
       waste_particles self' = filter (kept self) ps' /\
       sublist (map pid (waste_particles self'))
               (map pid (waste_particles self)) /\
       (length (waste_particles self') <= length (waste_particles self))%nat) /\
  (forall frame_num self self',
     create_frame frame_num self = Some self' ->
     (length (waste_particles self') <= 200)%nat).
Proof.
  split; [|split].
  - intros frame_num self Hok.
    destruct (create_frame_anatomy frame_num self Hok)
      as (self' & added & ps' & rnd' & Hrun & Hsp & _ & Hsteps & ->).
    destruct (last_200_suffix (waste_particles self ++ added))
      as [Holder Hlen].
    eexists _, added, ps'. split; [exact Hrun|]. split; [exact Hsp|].
    split; [exact Holder|]. split; [exact Hlen|]. split; [exact Hsteps|].
    split; [reflexivity|]. simpl.
    pose proof (length_filter (kept self) ps').
    apply Forall2_length in Hsteps. lia.
  - intros self self' Hrun.
    pose proof (update_particles_length self self' Hrun) as Hlen.
    apply update_particles_spec in Hrun as (ps' & rnd' & Hsteps & ->).
    exists ps'. split; [exact Hsteps|]. split; [reflexivity|].
    split; [|exact Hlen]. simpl.
    rewrite <- (stepped_pids self _ _ Hsteps).
    apply (fmap_sublist pid), sublist_filter.
  - intros frame_num self self' Hrun. unfold create_frame in Hrun.
    apply bind_Some in Hrun as (s1 & _ & Hrun).
    apply bind_Some in Hrun as (s2 & _ & Hrun).
    apply update_particles_length in Hrun.
    destruct (decide (length (waste_particles s2) > 200)%nat) as [Hgt|Hle];
      simpl in Hrun.
    + rewrite length_last_200 in Hrun by lia. exact Hrun.
    + lia.
Qed.

Lemma sample_state_full_ok : state_ok sample_state_full.
Proof.
  unfold state_ok. split; [simpl; lra|]. split; [simpl; lia|].
  split; [simpl; lra|]. split; [reflexivity|]. split.
  - apply Forall_cons. split; [simpl; lra|apply Forall_nil_2].
  - apply Forall_forall. intros p Hp.
    apply list_elem_of_In, in_map_iff in Hp as (n & <- & _). simpl. lra.
Qed.

Lemma create_frame_bounds_particles_witness :
  length (waste_particles sample_state_full) = 201%nat /\
  exists self' added ps',
    create_frame 1 sample_state_full = Some self' /\
    Forall (spawned sample_state_full) added /\
    (exists older,
       waste_particles sample_state_full ++ added
       = older ++ last_200 (waste_particles sample_state_full ++ added)) /\
    length (last_200 (waste_particles sample_state_full ++ added))
    = Nat.min 200 (length (waste_particles sample_state_full ++ added)) /\
    Forall2 (stepped sample_state_full)
            (last_200 (waste_particles sample_state_full ++ added)) ps' /\
    waste_particles self' = filter (kept sample_state_full) ps' /\
    (length (waste_particles self') <= 200)%nat.
Proof.
  split; [reflexivity|].
  destruct create_frame_bounds_particles as (Hframe & _).
  apply (Hframe 1%Z sample_state_full). exact sample_state_full_ok.
Defined.

Import PrototipoFinal.

(** Extra X8.  [create_river_surface] of a constructed animation returns
    one row per river sample for each bank; the two rows of a sample share
    [x] and [z] and lie a width between 0.4 and 1.2 below and above the
    centre line. *)
Theorem banks_follow_the_river l rnd :
  (0 <= lit_resolution l)%Z -> lit_river_length l <> 0 ->
  exists self banks,
    __init__ l rnd = Some self /\
    create_river_surface self = Some banks /\
    length banks.1 = Z.to_nat (lit_resolution l) /\
    length banks.2 = Z.to_nat (lit_resolution l) /\
    forall i, (i < Z.to_nat (lit_resolution l))%nat ->
      exists w,
        0.4 <= w <= 1.2 /\
        banks.1 !! i = Some [x_river self !!! i; y_river self !!! i - w;
                             z_river self !!! i] /\
        banks.2 !! i = Some [x_river self !!! i; y_river self !!! i + w;
                             z_river self !!! i].
Proof.
  intros Hres HL.
  destruct (init_spec l rnd Hres HL) as (self & Hself & _ & _ & _ & _ & Hxl & _).
  pose proof (init_arrays _ _ _ Hself) as (xr & _ & Ex & Ey & Ez & Ew & _).
  destruct (create_river_surface_spec self) as (banks & Hrun & H1 & H2);
    [by rewrite Ey, Ex, length_fmap
    |by rewrite Ez, Ex, length_fmap
    |by rewrite Ew, Ex, length_fmap|].
  exists self, banks. split; [exact Hself|]. split; [exact Hrun|].
  rewrite H1, H2, !length_fmap, length_seq, Hxl.
  split; [done|]. split; [done|].
  intros i Hi. exists (river_width self !!! i). split.
  - assert (Hxi : xr !! i = Some (xr !!! i))
      by (apply list_lookup_lookup_total_lt; rewrite <- Ex; lia).
    rewrite Ew.
    rewrite (list_lookup_total_correct _ i (river_width_at (xr !!! i)))
      by (by rewrite list_lookup_fmap, Hxi).
    apply river_width_at_bounds.
  - rewrite !list_lookup_fmap, !lookup_seq_lt by lia. done.
Qed.

Lemma banks_follow_the_river_witness :
  exists self banks,
    __init__ literals (fun _ => 0) = Some self /\
    create_river_surface self = Some banks /\
    length banks.1 = Z.to_nat (lit_resolution literals) /\
    length banks.2 = Z.to_nat (lit_resolution literals) /\
    forall i, (i < Z.to_nat (lit_resolution literals))%nat ->
      exists w,
        0.4 <= w <= 1.2 /\
        banks.1 !! i = Some [x_river self !!! i; y_river self !!! i - w;
                             z_river self !!! i] /\
        banks.2 !! i = Some [x_river self !!! i; y_river self !!! i + w;
                             z_river self !!! i].
Proof.
  apply (banks_follow_the_river literals (fun _ => 0)); simpl; [lia|lra].
Defined.

(** Extra X9.  The constructor places every city at the river sample of
    index [min(int(distance * resolution / river_length), resolution - 1)]:
    a city at or past the end of the river is put on the last sample, and
    with a resolution of 0 the cities are left as they are. *)
Theorem cities_are_placed_on_the_river l rnd :
  0 < lit_river_length l -> (0 <= lit_resolution l)%Z ->
  Forall (fun e : string * City => 0 <= distance e.2) (lit_cities_data l) ->
  exists self,
    __init__ l rnd = Some self /\
    Forall2
      (fun e e' : string * City =>
         e'.1 = e.1 /\
         ((0 < lit_resolution l)%Z ->
          exists i,
            (i < Z.to_nat (lit_resolution l))%nat /\
            Z.of_nat i
            = Z.min (Py.int (distance e.2 * IZR (lit_resolution l)
                             / lit_river_length l))
                    (lit_resolution l - 1) /\
            (lit_river_length l <= distance e.2 ->
             Z.of_nat i = (lit_resolution l - 1)%Z) /\
            y_pos e'.2 = y_river self !!! i /\
            z_pos e'.2 = Some (z_river self !!! i + 20)) /\
         (lit_resolution l = 0%Z -> e'.2 = e.2))
      (lit_cities_data l) (cities_data self).
Proof.
  intros HL Hres Hc.
  destruct (init_spec l rnd Hres) as (self & Hself & _ & _ & _ & _ & Hxl & _);
    [lra|].
  exists self. split; [exact Hself|].
  pose proof (init_arrays _ _ _ Hself) as (xr & _ & Ex & Ey & Ez & _ & _ & _ & Hm).
  rewrite Ex in Hxl. rewrite Ey, Ez.
  apply mapM_Some in Hm. revert Hc.
  induction Hm as [|e e' cs cs' He _ IH]; intros Hc; [constructor|].
  apply Forall_cons in Hc as [Hd Hc]. constructor; [|by apply IH].
  apply bind_Some in He as (data & Hdata & He). injection He as <-. simpl.
  split; [done|]. split.
  - intros Hpos.
    destruct (place_city_placed (lit_river_length l) (lit_resolution l)
                (map y_river_at xr) (map z_river_at xr) e.2)
      as (i & Hi & Hidx & Hplace); [done..|by rewrite !length_fmap
                                   |rewrite length_fmap; lia|].
    rewrite length_fmap, Hxl in Hi, Hidx. rewrite Z2Nat.id in Hidx by lia.
    rewrite Hplace in Hdata. injection Hdata as <-. simpl.
    exists i. split; [exact Hi|]. split; [exact Hidx|]. split; [|done].
    intros Hend. rewrite Hidx.
    pose proof (index_below (distance e.2) _ _ HL Hpos Hd) as Hb.
    assert (~ (Py.int (distance e.2 * IZR (lit_resolution l)
                       / lit_river_length l) < lit_resolution l)%Z)
      by (rewrite Hb; lra).
    lia.
  - intros Hzero. rewrite Hzero in Hxl. simpl in Hxl.
    destruct xr; [|done]. simpl in Hdata.
    rewrite place_city_no_samples in Hdata by lra. by injection Hdata as <-.
Qed.

Lemma cities_are_placed_on_the_river_witness :
  exists self,
    __init__ literals (fun _ => 0) = Some self /\
    Forall2
      (fun e e' : string * City =>
         e'.1 = e.1 /\
         ((0 < lit_resolution literals)%Z ->
          exists i,
            (i < Z.to_nat (lit_resolution literals))%nat /\
            Z.of_nat i
            = Z.min (Py.int (distance e.2 * IZR (lit_resolution literals)
                             / lit_river_length literals))
                    (lit_resolution literals - 1) /\
            (lit_river_length literals <= distance e.2 ->
             Z.of_nat i = (lit_resolution literals - 1)%Z) /\
            y_pos e'.2 = y_river self !!! i /\
            z_pos e'.2 = Some (z_river self !!! i + 20)) /\
         (lit_resolution literals = 0%Z -> e'.2 = e.2))
      (lit_cities_data literals) (cities_data self).
Proof.
  apply (cities_are_placed_on_the_river literals (fun _ => 0)); simpl; [lra|lia|].
  repeat (apply Forall_cons; split; [simpl; lra|]). apply Forall_nil_2.
Defined.

Import Prototipo1.

(** ** More on the field *)

Lemma filter_agree {A} (P Q : A -> Prop) `{forall a, Decision (P a)}
    `{forall a, Decision (Q a)} (l : list A) :
  (forall a, a ∈ l -> P a <-> Q a) -> filter P l = filter Q l.
Proof.
  induction l as [|a l IH]; intros Hpq; [done|].
  assert (Hl : filter P l = filter Q l).
  { apply IH. intros b Hb. apply Hpq. by right. }
  destruct (decide (P a)) as [Ha|Ha].
  - rewrite !filter_cons_True; [by rewrite Hl|by apply Hpq; [left|]|done].
  - rewrite !filter_cons_False; [done| |done].
    intros HQ. apply Ha. by apply Hpq; [left|].
Qed.

Lemma pollution_function_le_peak self x xi Bi :
  0 <= k self -> 0 <= Bi -> pollution_function self x xi Bi <= Bi * k self.
Proof.
  intros Hk HBi. unfold pollution_function.
  destruct (decide (x < xi)); [nra|].
  assert (exp (- k self * (x - xi)) <= 1) by (apply exp_nonpos_le_1; nra).
  assert (0 <= Bi * k self) by nra. nra.
Qed.

Lemma total_concentration_zero_upstream self sources x :
  Forall (fun entry : string * City => x < distance entry.2) sources ->
  total_concentration self sources x = 0.
Proof.
  unfold total_concentration, Py.sum.
  induction 1 as [|entry sources He _ IH]; [done|].
  simpl. rewrite IH. unfold pollution_function.
  rewrite decide_True by done. lra.
Qed.

Lemma total_concentration_le self sources x :
  0 <= k self ->
  Forall (fun entry : string * City => 0 <= waste entry.2) sources ->
  total_concentration self sources x
  <= k self * Py.sum (map (fun entry : string * City => waste entry.2) sources).
Proof.
  intros Hk. unfold total_concentration, Py.sum.
  induction 1 as [|entry sources He _ IH]; simpl; [lra|].
  pose proof (pollution_function_le_peak self x (distance entry.2)
                (waste entry.2) Hk He). lra.
Qed.

(** Extra X10.  A column of the field whose position lies before every
    active source is 0 in every row. *)
Theorem field_vanishes_upstream l active_cities :
  (0 <= lit_resolution l)%Z -> (0 <= lit_lateral_samples l)%Z ->
  exists self F,
    create_river_mesh l = Some self /\
    calculate_pollution_field self active_cities = Some F /\
    forall j i,
      (j < Z.to_nat (lit_lateral_samples l))%nat ->
      (i < Z.to_nat (lit_resolution l))%nat ->
      Forall (fun entry : string * City =>
                x_river self !!! i < distance entry.2)
             (active_sources (cities_data self) active_cities) ->
      Np.cell F j i = 0.
Proof.
  intros Hres Hlat.
  destruct (constructed_field l active_cities Hres Hlat)
    as (self & F & Hself & HF & _ & _ & _ & _ & _ & _ & _ & _ & _ & Hcells).
  exists self, F. split; [exact Hself|]. split; [exact HF|].
  intros j i Hj Hi Hup. rewrite Hcells by assumption.
  rewrite total_concentration_zero_upstream by assumption. lra.
Qed.

Lemma field_vanishes_upstream_witness :
  exists self F,
    create_river_mesh literals = Some self /\
    calculate_pollution_field self (Some ["Huancayo"%string]) = Some F /\
    forall j i,
      (j < Z.to_nat (lit_lateral_samples literals))%nat ->
      (i < Z.to_nat (lit_resolution literals))%nat ->
      Forall (fun entry : string * City =>
                x_river self !!! i < distance entry.2)
             (active_sources (cities_data self) (Some ["Huancayo"%string])) ->
      Np.cell F j i = 0.
Proof.
  apply (field_vanishes_upstream literals (Some ["Huancayo"%string]));
    simpl; lia.
Defined.

(** Extra X11.  [calculate_pollution_field] reads [active_cities] as a
    set of names: order, repetitions and names that are no city do not
    change the field. *)
Theorem active_cities_is_read_as_a_set self (active1 active2 : list string) :
  (forall entry : string * City,
     entry ∈ cities_data self -> entry.1 ∈ active1 <-> entry.1 ∈ active2) ->
  calculate_pollution_field self (Some active1)
  = calculate_pollution_field self (Some active2).
Proof.
  intros Hsame. rewrite !field_reads_sources. unfold active_sources.
  by rewrite (filter_agree _ (fun entry : string * City => entry.1 ∈ active2)).
Qed.

Lemma active_cities_is_read_as_a_set_witness :
  calculate_pollution_field sample_model
    (Some ["Jauja"; "Lima"; "Jauja"]%string)
  = calculate_pollution_field sample_model (Some ["Jauja"%string]).
Proof.
  apply active_cities_is_read_as_a_set.
  intros entry Hin. simpl in Hin.
  apply elem_of_cons in Hin as [->|Hin];
    [|apply elem_of_cons in Hin as [->|Hin]; [|by apply elem_of_nil in Hin]];
    simpl; rewrite !elem_of_cons, !elem_of_nil; split; intros H;
    repeat destruct H as [H|H]; try discriminate H; try done; by left.
Defined.

(** Extra X12.  For [k >= 0] and rates that are not negative, no cell of
    the field exceeds [k] times the sum of the rates of the active
    sources. *)
Theorem field_is_bounded_by_the_rates l active_cities :
  (0 <= lit_resolution l)%Z -> (0 <= lit_lateral_samples l)%Z ->
  0 <= lit_k l ->
  Forall (fun entry : string * City => 0 <= waste entry.2) (lit_cities_data l) ->
  exists self F,
    create_river_mesh l = Some self /\
    calculate_pollution_field self active_cities = Some F /\
    forall j i,
      (j < Z.to_nat (lit_lateral_samples l))%nat ->
      (i < Z.to_nat (lit_resolution l))%nat ->
      Np.cell F j i
      <= lit_k l
         * Py.sum (map (fun entry : string * City => waste entry.2)
                       (active_sources (lit_cities_data l) active_cities)).
Proof.
  intros Hres Hlat Hk Hw.
  destruct (constructed_field l active_cities Hres Hlat)
    as (self & F & Hself & HF & Hc & Hks & _ & _ & _ & _ & _ & _ & _ & Hcells).
  exists self, F. split; [exact Hself|]. split; [exact HF|].
  intros j i Hj Hi. rewrite Hcells by assumption. rewrite Hc.
  assert (Hact : Forall (fun entry : string * City => 0 <= waste entry.2)
                        (active_sources (lit_cities_data l) active_cities)).
  { unfold active_sources. apply Forall_forall.
    intros entry [_ Hin]%list_elem_of_filter.
    rewrite Forall_forall in Hw. by apply Hw. }
  pose proof (total_concentration_le self _ (x_river self !!! i)
                ltac:(rewrite Hks; exact Hk) Hact) as Hle.
  pose proof (total_concentration_nonneg self _ (x_river self !!! i)
                ltac:(rewrite Hks; exact Hk) Hact) as Hge.
  rewrite Hks in Hle.
  pose proof (lateral_factor_pos (Np.cell (Y_adjusted self) j i)).
  pose proof (lateral_factor_le_1 (Np.cell (Y_adjusted self) j i)).
  nra.
Qed.

Lemma field_is_bounded_by_the_rates_witness :
  exists self F,
    create_river_mesh literals = Some self /\
    calculate_pollution_field self None = Some F /\
    forall j i,
      (j < Z.to_nat (lit_lateral_samples literals))%nat ->
      (i < Z.to_nat (lit_resolution literals))%nat ->
      Np.cell F j i
      <= lit_k literals
         * Py.sum (map (fun entry : string * City => waste entry.2)
                       (active_sources (lit_cities_data literals) None)).
Proof.
  apply (field_is_bounded_by_the_rates literals None); simpl; [lia|lia|lra|].
  repeat (apply Forall_cons; split; [simpl; lra|]). apply Forall_nil_2.
Defined.

Import Prototipo1.

(** ** Elementwise arrays *)

Lemma zip2_spec (f : R -> R -> R) a b rows cols :
  Np.has_shape a rows cols -> Np.has_shape b rows cols ->
  Np.has_shape (Np.zip2 f a b) rows cols /\
  forall j i, (j < rows)%nat -> (i < cols)%nat ->
    Np.cell (Np.zip2 f a b) j i = f (Np.cell a j i) (Np.cell b j i).
Proof.
  intros [Hra Ha] [Hrb Hb]. unfold Np.zip2. split; [split|].
  - rewrite length_zip_with. lia.
  - apply Forall_forall. intros row Hrow.
    apply elem_of_lookup_zip_with in Hrow as (j & ra & rb & -> & Hja & Hjb).
    rewrite length_zip_with.
    eapply Forall_lookup_1 in Ha; [|exact Hja].
    eapply Forall_lookup_1 in Hb; [|exact Hjb]. simpl in *. lia.
  - intros j i Hj Hi. unfold Np.cell.
    destruct (lookup_lt_is_Some_2 a j) as [ra Hja]; [lia|].
    destruct (lookup_lt_is_Some_2 b j) as [rb Hjb]; [lia|].
    pose proof (Forall_lookup_1 _ _ _ _ Ha Hja) as Hla.
    pose proof (Forall_lookup_1 _ _ _ _ Hb Hjb) as Hlb. simpl in Hla, Hlb.
    destruct (lookup_lt_is_Some_2 ra i) as [va Hia]; [lia|].
    destruct (lookup_lt_is_Some_2 rb i) as [vb Hib]; [lia|].
    rewrite (list_lookup_total_correct _ j (zip_with f ra rb))
      by (by rewrite lookup_zip_with, Hja; simpl; rewrite Hjb).
    rewrite (list_lookup_total_correct _ _ _ Hja),
            (list_lookup_total_correct _ _ _ Hjb).
    rewrite (list_lookup_total_correct _ _ _ Hia),
            (list_lookup_total_correct _ _ _ Hib).
    apply list_lookup_total_correct.
    by rewrite lookup_zip_with, Hia; simpl; rewrite Hib.
Qed.

Lemma map2_spec (g : R -> R) a rows cols :
  Np.has_shape a rows cols ->
  Np.has_shape (map (map g) a) rows cols /\
  forall j i, (j < rows)%nat -> (i < cols)%nat ->
    Np.cell (map (map g) a) j i = g (Np.cell a j i).
Proof.
  intros [Hra Ha]. split; [split|].
  - by rewrite length_fmap.
  - apply Forall_fmap. eapply Forall_impl; [exact Ha|].
    intros row Hrow. simpl in *. by rewrite length_fmap.
  - intros j i Hj Hi. unfold Np.cell.
    destruct (lookup_lt_is_Some_2 a j) as [ra Hja]; [lia|].
    pose proof (Forall_lookup_1 _ _ _ _ Ha Hja) as Hla. simpl in Hla.
    destruct (lookup_lt_is_Some_2 ra i) as [va Hia]; [lia|].
    rewrite (list_lookup_total_correct _ j (map g ra))
      by (by rewrite list_lookup_fmap, Hja).
    rewrite (list_lookup_total_correct _ _ _ Hja).
    rewrite (list_lookup_total_correct _ _ _ Hia).
    apply list_lookup_total_correct. by rewrite list_lookup_fmap, Hia.
Qed.

Lemma abs_pow_3_2_nonneg (y : R) : 0 <= Np.abs_pow_3_2 y.
Proof.
  unfold Np.abs_pow_3_2. case_decide; [lra|]. left. apply exp_pos.
Qed.

Lemma river_depression_bounds (y : R) : 0 < river_depression_at y <= 2.
Proof.
  unfold river_depression_at.
  pose proof (exp_pos (- (y / 0.5) ^ 2)).
  assert (exp (- (y / 0.5) ^ 2) <= 1).
  { apply exp_nonpos_le_1. pose proof (pow2_ge_0 (y / 0.5)). lra. }
  lra.
Qed.

Lemma water_minus_bed_bounds (x y : R) :
  0.9 <= water_depth_at x + surface_waves_at x y <= 2.1.
Proof.
  unfold water_depth_at, surface_waves_at.
  pose proof (SIN_bound (x * 0.05)). pose proof (SIN_bound (x * 0.3)).
  pose proof (COS_bound (y * 0.5)).
  assert (-1 <= sin (x * 0.3) * cos (y * 0.5) <= 1) by nra.
  lra.
Qed.

Lemma terrain_minus_bed_bounds (x y : R) :
  -3 <= Z_terrain_at x y - Z_riverbed_at x y.
Proof.
  unfold Z_terrain_at, Z_riverbed_at, valley_slopes_at, roughness_at.
  pose proof (abs_pow_3_2_nonneg y).
  pose proof (SIN_bound (x * 0.1)). pose proof (COS_bound (y * 0.2)).
  assert (-1 <= sin (x * 0.1) * cos (y * 0.2) <= 1) by nra.
  lra.
Qed.

(** Extra X13.  The terrain, river bed and water arrays have the shape of
    the mesh; in every cell the water surface lies between 0.9 and 2.1
    above the river bed, the river bed between 4 and 2 below the base
    elevation, both ends included, and the terrain at most 3 below the
    river bed. *)
Theorem water_lies_above_the_bed self :
  mesh_shape self ->
  let terrain := create_terrain_elevation self in
  let Z_water := create_water_surface self terrain.2 in
  let rows := length (y_river self) in
  let cols := length (x_river self) in
  Np.has_shape terrain.1 rows cols /\
  Np.has_shape terrain.2 rows cols /\
  Np.has_shape Z_water rows cols /\
  forall j i, (j < rows)%nat -> (i < cols)%nat ->
    0.9 <= Np.cell Z_water j i - Np.cell terrain.2 j i <= 2.1 /\
    base_elevation_at (Np.cell (X self) j i) - 4
    <= Np.cell terrain.2 j i
    <= base_elevation_at (Np.cell (X self) j i) - 2 /\
    -3 <= Np.cell terrain.1 j i - Np.cell terrain.2 j i.
Proof.
  intros (_ & _ & HX & HY). cbv zeta.
  unfold create_terrain_elevation, create_water_surface. cbn [fst snd].
  destruct (zip2_spec Z_terrain_at _ _ _ _ HX HY) as [Hst Hct].
  destruct (zip2_spec Z_riverbed_at _ _ _ _ HX HY) as [Hsb Hcb].
  destruct (map2_spec water_depth_at _ _ _ HX) as [Hsd Hcd].
  destruct (zip2_spec surface_waves_at _ _ _ _ HX HY) as [Hsw Hcw].
  destruct (zip2_spec Rplus _ _ _ _ Hsb Hsd) as [Hs1 Hc1].
  destruct (zip2_spec Rplus _ _ _ _ Hs1 Hsw) as [Hs2 Hc2].
  split; [exact Hst|]. split; [exact Hsb|]. split; [exact Hs2|].
  intros j i Hj Hi.
  rewrite Hc2, Hc1, Hcd, Hcw, Hcb, Hct by assumption.
  set (x := Np.cell (X self) j i). set (y := Np.cell (Y_adjusted self) j i).
  pose proof (water_minus_bed_bounds x y).
  pose proof (river_depression_bounds y).
  pose proof (terrain_minus_bed_bounds x y).
  unfold Z_riverbed_at in *. repeat split; lra.
Qed.

Lemma sample_model_shape : mesh_shape sample_model.
Proof.
  unfold mesh_shape, Np.has_shape. simpl.
  repeat split; try reflexivity; repeat constructor.
Qed.

Lemma water_lies_above_the_bed_witness :
  let terrain := create_terrain_elevation sample_model in
  let Z_water := create_water_surface sample_model terrain.2 in
  0.9 <= Np.cell Z_water 0 1 - Np.cell terrain.2 0 1 <= 2.1.
Proof.
  intros terrain Z_water.
  destruct (water_lies_above_the_bed sample_model sample_model_shape)
    as (_ & _ & _ & Hcells).
  destruct (Hcells 0%nat 1%nat) as [Hdepth _]; [simpl; lia..|exact Hdepth].
Defined.

Import Prototipo1.

(** ** The analysis loop *)

Lemma foldl_Rmax_spec (l : list R) : forall v,
  Forall (fun a => a <= foldl Rmax v l) (v :: l) /\ foldl Rmax v l ∈ v :: l.
Proof.
  induction l as [|a l IH]; intros v; simpl.
  - split; [repeat constructor; lra|left].
  - destruct (IH (Rmax v a)) as [Hall Hin].
    apply Forall_cons in Hall as [Hm Hall]. split.
    + apply Forall_cons. split; [pose proof (Rmax_l v a); lra|].
      apply Forall_cons. split; [pose proof (Rmax_r v a); lra|done].
    + apply elem_of_cons in Hin as [->|Hin]; [|by right; right].
      unfold Rmax. destruct (Rle_dec v a); [right; left|left].
Qed.

Lemma max_spec (l : list R) :
  l <> [] ->
  exists mx, Np.max l = Some mx /\ Forall (fun a => a <= mx) l /\ mx ∈ l.
Proof.
  destruct l as [|v l]; [done|]. intros _. simpl.
  eexists. split; [done|]. apply foldl_Rmax_spec.
Qed.

Lemma column_spec (F : list (list R)) rows cols (idx : Z) :
  Np.has_shape F rows cols -> (0 <= idx < Z.of_nat cols)%Z ->
  mapM (fun row : list R => Py.getitem row idx) F
  = Some (map (fun row : list R => row !!! Z.to_nat idx) F).
Proof.
  intros [_ Hall] Hidx. apply mapM_Some, Forall2_fmap_r, Forall_Forall2_diag.
  eapply Forall_impl; [exact Hall|]. intros row Hrow. simpl in *.
  unfold Py.getitem. rewrite decide_True by lia.
  apply list_lookup_lookup_total_lt. lia.
Qed.

Lemma analyse_point_spec model F point report :
  mesh_shape model -> 0 < river_length model ->
  (0 < resolution model)%Z -> (0 < lateral_samples model)%Z ->
  Np.has_shape F (length (y_river model)) (length (x_river model)) ->
  0 <= point ->
  exists report',
    analyse_point model F point report = Some report' /\
    ((point < river_length model /\
      exists v (idx : nat),
        report' = report ++ [(point, v)] /\
        Z.of_nat idx
        = Py.int (point * IZR (resolution model) / river_length model) /\
        (idx < length (x_river model))%nat /\
        (forall j, (j < length (y_river model))%nat -> Np.cell F j idx <= v) /\
        (exists j, (j < length (y_river model))%nat /\ v = Np.cell F j idx))
     \/ (river_length model <= point /\ report' = report)).
Proof.
  intros (Hxl & Hyl & _ & _) HL Hres Hlat HF Hpt.
  pose proof (index_below point _ _ HL Hres Hpt) as Hb.
  assert (Hq : 0 <= point * IZR (resolution model) / river_length model).
  { apply div_nonneg; [|done]. apply Rmult_le_pos; [done|]. apply IZR_le. lia. }
  pose proof (int_nonneg _ Hq) as Hi.
  unfold analyse_point. rewrite div_Some by lra. simpl.
  set (idx := Py.int (point * IZR (resolution model) / river_length model)) in *.
  destruct (decide (idx < resolution model)%Z) as [Hlt|Hge].
  - rewrite (column_spec F _ _ idx HF) by lia. simpl.
    destruct (max_spec (map (fun row : list R => row !!! Z.to_nat idx) F))
      as (mx & -> & Hall & Hin).
    { destruct HF as [HFl _]. destruct F; [simpl in HFl; lia|done]. }
    simpl. eexists. split; [done|]. left. split; [by apply Hb|].
    exists mx, (Z.to_nat idx). split; [done|]. split; [lia|]. split; [lia|].
    split.
    + intros j Hj. destruct HF as [HFl _].
      destruct (lookup_lt_is_Some_2 F j) as [row Hrow]; [lia|].
      rewrite Forall_forall in Hall. apply Hall.
      unfold Np.cell. rewrite (list_lookup_total_correct _ _ _ Hrow).
      apply list_elem_of_fmap. exists row. split; [done|].
      by eapply list_elem_of_lookup_2.
    + apply list_elem_of_fmap in Hin as (row & -> & Hrow).
      apply list_elem_of_lookup in Hrow as [j Hj].
      exists j. split.
      * destruct HF as [<- _]. by eapply lookup_lt_Some.
      * unfold Np.cell. by rewrite (list_lookup_total_correct _ _ _ Hj).
  - exists report. split; [done|]. right. split; [|done].
    destruct (Rle_lt_dec (river_length model) point) as [?|Hlt]; [done|].
    apply Hb in Hlt. lia.
Qed.

(** Extra X14.  The analysis loop of the script reports exactly the points
    that lie before [river_length], in their order, each with the largest
    value of its column of the field; a point at the end of the river, as
    kilometre 114 of the script, is not reported. *)
Theorem analysis_reports_points_before_the_end model analysis_points :
  mesh_shape model -> 0 < river_length model ->
  (0 < resolution model)%Z -> (0 < lateral_samples model)%Z ->
  Forall (fun point => 0 <= point) analysis_points ->
  exists F report,
    calculate_pollution_field model None = Some F /\
    analysis model analysis_points = Some report /\
    map fst report
    = filter (fun point => point < river_length model) analysis_points /\
    forall point v, (point, v) ∈ report ->
      exists idx : nat,
        Z.of_nat idx
        = Py.int (point * IZR (resolution model) / river_length model) /\
        (idx < length (x_river model))%nat /\
        (forall j, (j < length (y_river model))%nat -> Np.cell F j idx <= v) /\
        (exists j, (j < length (y_river model))%nat /\ v = Np.cell F j idx).
Proof.
  intros Hmesh HL Hres Hlat Hpts.
  destruct (calculate_pollution_field_cells model Hmesh None)
    as (F & HF & HsF & _).
  exists F. unfold analysis. rewrite HF. simpl.
  destruct (for_each_inv (analyse_point model F)
    (fun c report =>
       map fst report
       = filter (fun point => point < river_length model)
                (take c analysis_points) /\
       forall point v, (point, v) ∈ report ->
         exists idx : nat,
           Z.of_nat idx
           = Py.int (point * IZR (resolution model) / river_length model) /\
           (idx < length (x_river model))%nat /\
           (forall j, (j < length (y_river model))%nat -> Np.cell F j idx <= v) /\
           (exists j, (j < length (y_river model))%nat /\ v = Np.cell F j idx))
    analysis_points []) as (report & Hrun & Hfst & Hval).
  - split; [done|]. intros point v Hin. by apply elem_of_nil in Hin.
  - intros c point report Hpoint [Hfst Hval].
    assert (Hpt : 0 <= point).
    { rewrite Forall_forall in Hpts. apply Hpts.
      by eapply list_elem_of_lookup_2. }
    destruct (analyse_point_spec model F point report Hmesh HL Hres Hlat HsF Hpt)
      as (report' & Hrun & [[Hlt (v & idx & -> & Hrest)]|[Hge ->]]).
    + eexists. split; [exact Hrun|]. split.
      * rewrite (take_S_r _ _ _ Hpoint), filter_app, filter_cons_True by done.
        rewrite map_app, Hfst. done.
      * intros pt w [Hin|Hin]%elem_of_app; [by apply Hval|].
        apply list_elem_of_singleton in Hin. injection Hin as -> ->.
        by exists idx.
    + eexists. split; [exact Hrun|]. split; [|done].
      rewrite (take_S_r _ _ _ Hpoint), filter_app, filter_cons_False by lra.
      rewrite filter_nil, app_nil_r. done.
  - rewrite firstn_all in Hfst. by exists report.
Qed.

Lemma analysis_reports_points_before_the_end_witness :
  exists F report,
    calculate_pollution_field sample_model None = Some F /\
    analysis sample_model [20; 50; 114] = Some report /\
    map fst report
    = filter (fun point => point < river_length sample_model) [20; 50; 114].
Proof.
  destruct (analysis_reports_points_before_the_end sample_model [20; 50; 114]
              sample_model_shape) as (F & report & HF & Hrun & Hfst & _).
  - simpl. lra.
  - simpl. lia.
  - simpl. lia.
  - repeat (apply Forall_cons; split; [lra|]). apply Forall_nil_2.
  - exists F, report. split; [exact HF|]. split; [exact Hrun|exact Hfst].
Defined.

(** ** The extent of the mesh *)

Lemma linspace_at_between (a b : R) (num : Z) (i : nat) :
  a <= b -> (i < Z.to_nat num)%nat ->
  a <= Np.linspace_at a b num i <= b.
Proof.
  intros Hab Hi. unfold Np.linspace_at. case_decide; [lra|].
  assert (Hn : (2 <= num)%Z) by lia.
  assert (H1 : 1 <= IZR (num - 1)) by (apply IZR_le; lia).
  assert (H2 : 0 <= INR i <= IZR (num - 1)).
  { split; [apply pos_INR|]. rewrite INR_IZR_INZ. apply IZR_le. lia. }
  set (n := IZR (num - 1)) in *. set (t := INR i) in *.
  assert (Hfrac : 0 <= t / n <= 1).
  { split; [apply div_nonneg; lra|].
    apply Rmult_le_reg_r with n; [lra|]. replace (t / n * n) with t by (field; lra).
    lra. }
  replace (a + t * ((b - a) / n)) with (a + (t / n) * (b - a)) by (field; lra).
  nra.
Qed.

Lemma width_factor_at_bounds (scale x : R) :
  scale <> 0 -> 5 <= width_factor_at scale x <= 25.
Proof.
  intros Hs. unfold width_factor_at, river_width_at.
  replace ((30 + 20 * sin (0.03 * x * 2 * PI)) * scale / (2 * scale))
    with (15 + 10 * sin (0.03 * x * 2 * PI)) by (field; done).
  pose proof (SIN_bound (0.03 * x * 2 * PI)). lra.
Qed.

Lemma y_center_at_bounds (x : R) : -0.5 <= y_center_at x <= 0.5.
Proof.
  unfold y_center_at. pose proof (SIN_bound (0.05 * x * 2 * PI)). lra.
Qed.

(** Extra X15.  The mesh of a constructed model: the longitudinal samples
    lie in [[0, river_length]] and start and end there, the lateral samples
    lie in [[-2, 2]], and every adjusted lateral coordinate is within 50 of
    the centre line offset and within 50.5 of 0. *)
Theorem mesh_extent l :
  (0 <= lit_resolution l)%Z -> (0 <= lit_lateral_samples l)%Z ->
  0 <= lit_river_length l -> lit_river_width_scale l <> 0 ->
  exists self,
    create_river_mesh l = Some self /\
    length (x_river self) = Z.to_nat (lit_resolution l) /\
    length (y_river self) = Z.to_nat (lit_lateral_samples l) /\
    (forall i, (i < Z.to_nat (lit_resolution l))%nat ->
       0 <= x_river self !!! i <= lit_river_length l) /\
    ((2 <= lit_resolution l)%Z ->
     x_river self !!! 0%nat = 0 /\
     x_river self !!! Z.to_nat (lit_resolution l - 1) = lit_river_length l) /\
    forall j i,
      (j < Z.to_nat (lit_lateral_samples l))%nat ->
      (i < Z.to_nat (lit_resolution l))%nat ->
      -2 <= y_river self !!! j <= 2 /\
      Rabs (Np.cell (Y_adjusted self) j i - y_center_at (x_river self !!! i))
      <= 50 /\
      Rabs (Np.cell (Y_adjusted self) j i) <= 50.5.
Proof.
  intros Hres Hlat HL Hsc.
  destruct (create_river_mesh_spec l Hres Hlat)
    as (self & Hself & _ & _ & EL & Es & Er & Ela
        & (Hxl & Hyl & _ & _) & (Hx & Hy & HYa)).
  rewrite Er in Hxl. rewrite Ela in Hyl.
  exists self. split; [exact Hself|]. split; [exact Hxl|]. split; [exact Hyl|].
  split; [|split].
  - intros i Hi. rewrite Hx by lia. rewrite EL, Er.
    by apply linspace_at_between.
  - intros Hres2. rewrite !Hx by lia. rewrite EL, Er.
    unfold Np.linspace_at. rewrite !decide_False by lia. split.
    + simpl. lra.
    + rewrite INR_IZR_INZ, Z2Nat.id by lia.
      assert (1 <= IZR (lit_resolution l - 1)) by (apply IZR_le; lia).
      field. lra.
  - intros j i Hj Hi.
    assert (Hyj : -2 <= y_river self !!! j <= 2).
    { rewrite Hy by lia. rewrite Ela. apply linspace_at_between; [lra|done]. }
    split; [exact Hyj|].
    rewrite HYa by lia. rewrite Es.
    pose proof (width_factor_at_bounds (lit_river_width_scale l)
                  (x_river self !!! i) Hsc) as Hwf.
    pose proof (y_center_at_bounds (x_river self !!! i)) as Hyc.
    set (w := width_factor_at _ _) in *. set (c := y_center_at _) in *.
    set (y := y_river self !!! j) in *.
    split; apply Rabs_le; split; nra.
Qed.

Lemma mesh_extent_witness :
  exists self,
    create_river_mesh literals = Some self /\
    length (x_river self) = Z.to_nat (lit_resolution literals) /\
    length (y_river self) = Z.to_nat (lit_lateral_samples literals) /\
    (forall i, (i < Z.to_nat (lit_resolution literals))%nat ->
       0 <= x_river self !!! i <= lit_river_length literals) /\
    ((2 <= lit_resolution literals)%Z ->
     x_river self !!! 0%nat = 0 /\
     x_river self !!! Z.to_nat (lit_resolution literals - 1)
     = lit_river_length literals) /\
    forall j i,
      (j < Z.to_nat (lit_lateral_samples literals))%nat ->
      (i < Z.to_nat (lit_resolution literals))%nat ->
      -2 <= y_river self !!! j <= 2 /\
      Rabs (Np.cell (Y_adjusted self) j i - y_center_at (x_river self !!! i))
      <= 50 /\
      Rabs (Np.cell (Y_adjusted self) j i) <= 50.5.
Proof.
  apply (mesh_extent literals); simpl; [lia|lia|lra|lra].
Defined.

(** ** More on funcion.py *)

Lemma C_i_at_decay k d x1 x2 :
  Funcion.x_i d <= x1 -> x1 <= x2 ->
  Funcion.C_i_at k d x2 = exp (- k * (x2 - x1)) * Funcion.C_i_at k d x1.
Proof.
  intros H1 H2. unfold Funcion.C_i_at. rewrite !H_nonneg by lra.
  replace (- k * (x2 - Funcion.x_i d))
    with (- k * (x2 - x1) + - k * (x1 - Funcion.x_i d)) by lra.
  rewrite exp_plus. lra.
Qed.

Lemma C_i_at_nonneg k d x :
  0 <= k -> 0 <= Funcion.B d -> 0 <= Funcion.C_i_at k d x.
Proof.
  intros Hk HB. unfold Funcion.C_i_at, Funcion.H.
  pose proof (exp_pos (- k * (x - Funcion.x_i d))).
  assert (0 <= Funcion.B d * k) by nra.
  case_decide; nra.
Qed.

Lemma length_C_total_of k xs pts :
  length (Funcion.C_total_of k xs pts) = length xs.
Proof.
  unfold Funcion.C_total_of.
  assert (Hgen : forall acc, length acc = length xs ->
    length (foldl (fun acc nd => zip_with Rplus acc (Funcion.C_i k xs nd.2))
                  acc pts) = length xs).
  { induction pts as [|nd pts IH]; intros acc Hacc; simpl; [done|].
    apply IH. unfold Funcion.C_i. rewrite length_zip_with, length_fmap. lia. }
  apply Hgen. unfold Np.zeros_like. by rewrite length_fmap.
Qed.

(** Extra X16.  Past the last source the total of funcion.py decays like
    a single source: between two samples [x1 <= x2] after every source the
    total is multiplied by [exp (- k * (x2 - x1))]. *)
Theorem total_decays_past_the_last_source k xs pts n1 n2 x1 x2 :
  xs !! n1 = Some x1 -> xs !! n2 = Some x2 ->
  Forall (fun nd : string * Funcion.Punto => Funcion.x_i nd.2 <= x1) pts ->
  x1 <= x2 ->
  exists v1,
    Funcion.C_total_of k xs pts !! n1 = Some v1 /\
    Funcion.C_total_of k xs pts !! n2 = Some (exp (- k * (x2 - x1)) * v1).
Proof.
  intros H1 H2 Hpts Hle. eexists. split; [by apply C_total_of_lookup|].
  rewrite (C_total_of_lookup _ _ _ _ _ H2). f_equal.
  unfold Py.sum. induction Hpts as [|nd pts Hnd _ IH]; simpl; [lra|].
  rewrite IH, (C_i_at_decay k nd.2 x1 x2) by assumption. lra.
Qed.

Lemma total_decays_past_the_last_source_witness :
  exists v1,
    Funcion.C_total_of Funcion.k [60; 70] Funcion.puntos !! 0%nat = Some v1 /\
    Funcion.C_total_of Funcion.k [60; 70] Funcion.puntos !! 1%nat
    = Some (exp (- Funcion.k * (70 - 60)) * v1).
Proof.
  apply (total_decays_past_the_last_source Funcion.k [60; 70] Funcion.puntos
           0 1 60 70); [reflexivity|reflexivity| |lra].
  repeat (apply Forall_cons; split; [simpl; lra|]). apply Forall_nil_2.
Defined.

(** Extra X17.  [C_total] has one entry per sample of [x] and no negative
    entry when [k] and the rates are not negative; the array of the script
    has 1000 entries, none negative. *)
Theorem C_total_has_one_sign_and_one_length :
  (forall k xs pts,
     0 <= k ->
     Forall (fun nd : string * Funcion.Punto => 0 <= Funcion.B nd.2) pts ->
     length (Funcion.C_total_of k xs pts) = length xs /\
     Forall (fun v => 0 <= v) (Funcion.C_total_of k xs pts)) /\
  exists C_total,
    Funcion.C_total = Some C_total /\
    length C_total = 1000%nat /\
    Forall (fun v => 0 <= v) C_total.
Proof.
  assert (Hgen : forall k xs pts,
     0 <= k ->
     Forall (fun nd : string * Funcion.Punto => 0 <= Funcion.B nd.2) pts ->
     length (Funcion.C_total_of k xs pts) = length xs /\
     Forall (fun v => 0 <= v) (Funcion.C_total_of k xs pts)).
  { intros k xs pts Hk HB. split; [apply length_C_total_of|].
    apply Forall_lookup. intros n v Hv.
    assert (Hn : (n < length xs)%nat).
    { rewrite <- (length_C_total_of k xs pts). by eapply lookup_lt_Some. }
    destruct (lookup_lt_is_Some_2 xs n Hn) as [x Hx].
    rewrite (C_total_of_lookup _ _ _ _ _ Hx) in Hv. injection Hv as <-.
    apply sum_nonneg, Forall_fmap.
    eapply Forall_impl; [exact HB|]. intros nd Hnd. simpl.
    by apply C_i_at_nonneg. }
  split; [exact Hgen|].
  unfold Funcion.C_total, Funcion.x.
  destruct (linspace_spec 0 100 1000) as (xs & -> & Hlen & _); [lia|].
  simpl. eexists. split; [reflexivity|].
  destruct (Hgen Funcion.k xs Funcion.puntos) as [Hl Hs].
  - unfold Funcion.k. lra.
  - repeat (apply Forall_cons; split; [simpl; lra|]). apply Forall_nil_2.
  - split; [|exact Hs]. rewrite Hl, Hlen. reflexivity.
Qed.

Lemma C_total_has_one_sign_and_one_length_witness :
  length (Funcion.C_total_of 0.1 [0; 50; 100] Funcion.puntos) = 3%nat /\
  Forall (fun v => 0 <= v) (Funcion.C_total_of 0.1 [0; 50; 100] Funcion.puntos).
Proof.
  destruct C_total_has_one_sign_and_one_length as [Hgen _].
  apply (Hgen 0.1 [0; 50; 100] Funcion.puntos); [lra|].
  repeat (apply Forall_cons; split; [simpl; lra|]). apply Forall_nil_2.
Defined.

Import Prototipo1.

(** ** Slices *)

Lemma omap_all_Some {A B} (f : A -> option B) (l : list A) :
  Forall (fun a => is_Some (f a)) l ->
  length (omap f l) = length l /\
  forall n a, l !! n = Some a -> omap f l !! n = f a.
Proof.
  induction 1 as [|a l [b Hb] _ [IHl IHn]]; [done|].
  simpl. rewrite Hb. simpl. split; [by f_equal|].
  intros [|n] c; simpl; [by intros [= <-]|apply IHn].
Qed.

Lemma omap_all_None {A B} (f : A -> option B) (l : list A) :
  Forall (fun a => f a = None) l -> omap f l = [].
Proof. induction 1 as [|a l Ha _ IH]; [done|]. simpl. by rewrite Ha. Qed.

Lemma slice_count (len step n : nat) :
  (0 < step)%nat ->
  (n < (len + step - 1) / step)%nat <-> (n * step < len)%nat.
Proof.
  intros Hstep. split.
  - intros Hn. destruct (decide (n * step < len)%nat) as [|Hge]; [done|].
    assert ((len + step - 1) / step < n + 1)%nat; [|lia].
    apply Nat.Div0.div_lt_upper_bound. nia.
  - intros Hn.
    assert (n + 1 <= (len + step - 1) / step)%nat; [|lia].
    apply Nat.div_le_lower_bound; [lia|nia].
Qed.

Lemma every_spec {A} (step : nat) (a : list A) :
  (0 < step)%nat ->
  length (Np.every step a) = ((length a + step - 1) / step)%nat /\
  forall n, Np.every step a !! n = a !! (n * step)%nat.
Proof.
  intros Hstep. unfold Np.every.
  set (len := length a). set (c := ((len + step - 1) / step)%nat).
  pose proof (fun n => slice_count len step n Hstep) as Hc. fold c in Hc.
  assert (Hcl : (c <= len)%nat).
  { destruct (decide (c <= len)%nat) as [|Hgt]; [done|].
    assert (len < c)%nat as Hlt%Hc by lia. nia. }
  assert (Hseq : seq 0 len = seq 0 c ++ seq (0 + c) (len - c))
    by (rewrite <- seq_app; f_equal; lia).
  rewrite Hseq, omap_app.
  rewrite (omap_all_None _ (seq (0 + c) (len - c))).
  2:{ apply Forall_forall. intros i [Hi1 Hi2]%elem_of_seq.
      apply lookup_ge_None. assert (~ (i < c)%nat) as Hn by lia.
      rewrite Hc in Hn. unfold len in *. lia. }
  rewrite app_nil_r.
  destruct (omap_all_Some (fun i => a !! (i * step)%nat) (seq 0 c))
    as [Hlen Hlook].
  { apply Forall_forall. intros i [_ Hi]%elem_of_seq.
    apply lookup_lt_is_Some_2. apply Hc. lia. }
  rewrite length_seq in Hlen. split; [exact Hlen|].
  intros n. destruct (decide (n < c)%nat) as [Hn|Hn].
  - apply Hlook. apply lookup_seq. lia.
  - rewrite lookup_ge_None_2 by lia. symmetry. apply lookup_ge_None.
    rewrite Hc in Hn. unfold len in *. lia.
Qed.

Lemma every2_spec (step : nat) (a : list (list R)) rows cols :
  (0 < step)%nat -> Np.has_shape a rows cols ->
  Np.has_shape (Np.every2 step a) ((rows + step - 1) / step)
               ((cols + step - 1) / step) /\
  forall j i,
    (j < (rows + step - 1) / step)%nat -> (i < (cols + step - 1) / step)%nat ->
    Np.cell (Np.every2 step a) j i = Np.cell a (j * step) (i * step).
Proof.
  intros Hstep [Hr Hall]. unfold Np.every2.
  destruct (every_spec step a Hstep) as [Hlen Hlook]. rewrite Hr in Hlen.
  split; [split|].
  - by rewrite length_fmap.
  - apply Forall_fmap, Forall_forall. intros row [j Hj]%list_elem_of_lookup.
    rewrite Hlook in Hj. simpl.
    destruct (every_spec step row Hstep) as [-> _].
    eapply Forall_lookup_1 in Hall; [|exact Hj]. simpl in Hall. by rewrite Hall.
  - intros j i Hj Hi. unfold Np.cell.
    assert (Hjs : (j * step < rows)%nat) by (by apply slice_count in Hj).
    assert (His : (i * step < cols)%nat) by (by apply slice_count in Hi).
    destruct (lookup_lt_is_Some_2 a (j * step)) as [row Hrow]; [lia|].
    pose proof (Forall_lookup_1 _ _ _ _ Hall Hrow) as Hrl. simpl in Hrl.
    destruct (lookup_lt_is_Some_2 row (i * step)) as [v Hv]; [lia|].
    destruct (every_spec step row Hstep) as [_ Hrlook].
    rewrite (list_lookup_total_correct _ j (Np.every step row))
      by (by rewrite list_lookup_fmap, Hlook, Hrow).
    rewrite (list_lookup_total_correct _ _ _ Hrow).
    rewrite (list_lookup_total_correct _ _ _ Hv).
    apply list_lookup_total_correct. by rewrite Hrlook.
Qed.

(** Extra X18.  The six grids of [create_flow_vectors] have one shape,
    [ceil(rows / 10)] by [ceil(columns / 10)]; entry [(j, i)] of the first
    three is entry [(10 j, 10 i)] of [X], [Y_adjusted] and [Z_water]; the
    downstream speed is 0.5 everywhere, the lateral speed at most 0.1 and
    the vertical speed at most 0.05 in absolute value. *)
Theorem flow_vectors_are_sampled_and_bounded self Z_water :
  mesh_shape self ->
  Np.has_shape Z_water (length (y_river self)) (length (x_river self)) ->
  let rows := ((length (y_river self) + 10 - 1) / 10)%nat in
  let cols := ((length (x_river self) + 10 - 1) / 10)%nat in
  let '(x_vec, y_vec, z_vec, u, v, w) := create_flow_vectors self Z_water in
  Np.has_shape x_vec rows cols /\ Np.has_shape y_vec rows cols /\
  Np.has_shape z_vec rows cols /\ Np.has_shape u rows cols /\
  Np.has_shape v rows cols /\ Np.has_shape w rows cols /\
  forall j i, (j < rows)%nat -> (i < cols)%nat ->
    Np.cell x_vec j i = Np.cell (X self) (j * 10) (i * 10) /\
    Np.cell y_vec j i = Np.cell (Y_adjusted self) (j * 10) (i * 10) /\
    Np.cell z_vec j i = Np.cell Z_water (j * 10) (i * 10) /\
    Np.cell u j i = 0.5 /\
    Rabs (Np.cell v j i) <= 0.1 /\
    Rabs (Np.cell w j i) <= 0.05.
Proof.
  intros (_ & _ & HX & HY) HZ. cbv zeta. unfold create_flow_vectors.
  destruct (every2_spec 10 (X self) _ _ ltac:(lia) HX) as [Hsx Hcx].
  destruct (every2_spec 10 (Y_adjusted self) _ _ ltac:(lia) HY) as [Hsy Hcy].
  destruct (every2_spec 10 Z_water _ _ ltac:(lia) HZ) as [Hsz Hcz].
  destruct (map2_spec (fun _ => 1 * 0.5) _ _ _ Hsx) as [Hsu Hcu].
  destruct (zip2_spec (fun x y => 0.1 * sin (x * 0.1) * cos (y * 0.5))
              _ _ _ _ Hsx Hsy) as [Hsv Hcv].
  destruct (zip2_spec (fun x y => 0.05 * sin (x * 0.2) * sin (y * 0.3))
              _ _ _ _ Hsx Hsy) as [Hsw Hcw].
  repeat (split; [assumption|]).
  intros j i Hj Hi.
  rewrite Hcx, Hcy, Hcz, Hcu, Hcv, Hcw by assumption.
  rewrite Hcx, Hcy by assumption.
  set (x := Np.cell (X self) (j * 10) (i * 10)).
  set (y := Np.cell (Y_adjusted self) (j * 10) (i * 10)).
  repeat (split; [done|]). split; [lra|].
  pose proof (SIN_bound (x * 0.1)). pose proof (COS_bound (y * 0.5)).
  pose proof (SIN_bound (x * 0.2)). pose proof (SIN_bound (y * 0.3)).
  split; apply Rabs_le; split; nra.
Qed.

Lemma flow_vectors_are_sampled_and_bounded_witness :
  let '(x_vec, y_vec, z_vec, u, v, w) :=
    create_flow_vectors sample_model [[1; 2]] in
  Np.cell x_vec 0 0 = Np.cell (X sample_model) 0 0 /\
  Np.cell u 0 0 = 0.5 /\ Rabs (Np.cell v 0 0) <= 0.1.
Proof.
  pose proof (flow_vectors_are_sampled_and_bounded sample_model [[1; 2]]
                sample_model_shape) as H.
  cbv zeta in H.
  destruct (create_flow_vectors sample_model [[1; 2]])
    as [[[[[x_vec y_vec] z_vec] u] v] w].
  destruct H as (_ & _ & _ & _ & _ & _ & Hcells).
  - split; [reflexivity|]. repeat constructor.
  - destruct (Hcells 0%nat 0%nat) as (Hx & _ & _ & Hu & Hv & _);
      [simpl; lia..|].
    split; [exact Hx|]. split; [exact Hu|exact Hv].
Defined.

Import Prototipo1.

(** ** The particles of [create_animation_frames] *)

Lemma move_flow_particle_in_river self p rnd :
  0 <= river_length self ->
  fp_x (move_flow_particle self p rnd).1 <= river_length self /\
  (in_river self p -> in_river self (move_flow_particle self p rnd).1).
Proof.
  intros HL. unfold move_flow_particle, in_river.
  destruct (decide (fp_x p + 2.0 > river_length self)); simpl.
  - split; [lra|]. intros _. split; [lra|]. split; [lia|lra].
  - split; [lra|]. intros (Hx & Hage & Hmov). rewrite plus_IZR.
    split; [lra|]. split; [lia|lra].
Qed.

Lemma move_flow_particles_spec self ps : forall rnd,
  0 <= river_length self ->
  length (move_flow_particles self ps rnd).1 = length ps /\
  Forall (fun p => fp_x p <= river_length self)
         (move_flow_particles self ps rnd).1 /\
  (Forall (in_river self) ps ->
   Forall (in_river self) (move_flow_particles self ps rnd).1).
Proof.
  induction ps as [|p ps IH]; intros rnd HL; simpl.
  - split; [done|]. split; [constructor|done].
  - destruct (IH (move_flow_particle self p rnd).2 HL) as (Hlen & Hx & Hin).
    destruct (move_flow_particle_in_river self p rnd HL) as [Hpx Hpin].
    split; [by rewrite Hlen|]. split; [by constructor|].
    intros [Hp Hps]%Forall_cons. constructor; [by apply Hpin|by apply Hin].
Qed.

(** Extra X19.  The particle loop of [create_animation_frames] keeps the
    number of particles; after at least one frame no particle lies beyond
    the end of the river; and particles that start on the river with an
    age consistent with their position stay so, with an age of at most
    [river_length / 2] frames. *)
Theorem flow_particles_stay_on_the_river self n_frames particles rnd :
  0 <= river_length self ->
  let after := (animate_flow_particles self n_frames particles rnd).1 in
  length after = length particles /\
  ((0 < n_frames)%nat ->
   Forall (fun p => fp_x p <= river_length self) after) /\
  (Forall (in_river self) particles ->
   Forall (fun p => in_river self p /\
                    IZR (fp_age p) <= river_length self / 2) after).
Proof.
  intros HL. cbv zeta. revert particles rnd.
  induction n_frames as [|n IH]; intros particles rnd; simpl.
  - split; [done|]. split; [lia|]. intros Hin.
    eapply Forall_impl; [exact Hin|]. intros p Hp. split; [done|].
    destruct Hp as (Hx & _ & Hmov). lra.
  - destruct (move_flow_particles_spec self particles rnd HL)
      as (Hlen & Hx & Hin).
    destruct (IH (move_flow_particles self particles rnd).1
                 (move_flow_particles self particles rnd).2)
      as (Hlen' & Hx' & Hin').
    split; [by rewrite Hlen'|]. split.
    + intros _. destruct n as [|n]; [exact Hx|apply Hx'; lia].
    + intros Hps. by apply Hin', Hin.
Qed.

Lemma flow_particles_stay_on_the_river_witness :
  let after :=
    (animate_flow_particles sample_model 20
       [ {| fp_x := 100; fp_y := 0; fp_z := 3000; fp_age := 3 |} ]
       (fun _ => 0)).1 in
  Forall (fun p => in_river sample_model p /\
                   IZR (fp_age p) <= river_length sample_model / 2) after.
Proof.
  intros after.
  destruct (flow_particles_stay_on_the_river sample_model 20
              [ {| fp_x := 100; fp_y := 0; fp_z := 3000; fp_age := 3 |} ]
              (fun _ => 0)) as (_ & _ & Hin); [simpl; lra|].
  apply Hin. apply Forall_cons. split; [|apply Forall_nil_2].
  unfold in_river. simpl. split; [lra|]. split; [lia|lra].
Defined.

Import Prototipo3.

(** ** prototipo3.py: the flow directions *)

Lemma unit_direction (dx dy dz : R) :
  let mag := sqrt (dx ^ 2 + dy ^ 2 + dz ^ 2) in
  mag > 0 ->
  (dx / mag) ^ 2 + (dy / mag) ^ 2 + (dz / mag) ^ 2 = 1.
Proof.
  intros mag Hmag.
  assert (Hsq : mag * mag = dx ^ 2 + dy ^ 2 + dz ^ 2).
  { apply sqrt_sqrt. pose proof (pow2_ge_0 dx). pose proof (pow2_ge_0 dy).
    pose proof (pow2_ge_0 dz). lra. }
  replace ((dx / mag) ^ 2 + (dy / mag) ^ 2 + (dz / mag) ^ 2)
    with ((dx ^ 2 + dy ^ 2 + dz ^ 2) / (mag * mag)) by (field; lra).
  rewrite <- Hsq. field. lra.
Qed.

Lemma unit_row_default : unit_row [1; 0; 0].
Proof. exists 1, 0, 0. split; [done|]. lra. Qed.

Lemma direccion_spec cx cy cz i ds :
  length cy = length cx -> length cz = length cx ->
  (i + 1 < length cx)%nat ->
  exists row, direccion cx cy cz i ds = Some (ds ++ [row]) /\ unit_row row.
Proof.
  intros Hy Hz Hi. unfold direccion.
  destruct (lookup_lt_is_Some_2 cx (i + 1)) as [x1 ->]; [lia|].
  destruct (lookup_lt_is_Some_2 cx i) as [x0 ->]; [lia|].
  destruct (lookup_lt_is_Some_2 cy (i + 1)) as [y1 ->]; [lia|].
  destruct (lookup_lt_is_Some_2 cy i) as [y0 ->]; [lia|].
  destruct (lookup_lt_is_Some_2 cz (i + 1)) as [z1 ->]; [lia|].
  destruct (lookup_lt_is_Some_2 cz i) as [z0 ->]; [lia|].
  cbn [mbind option_bind].
  destruct (decide _) as [Hmag|Hmag].
  - eexists. split; [reflexivity|].
    eexists _, _, _. split; [reflexivity|]. by apply unit_direction.
  - eexists. split; [reflexivity|]. apply unit_row_default.
Qed.

(** Extra X20.  For three river arrays of one length,
    [calcular_direcciones] raises when the river has fewer than two points
    and otherwise returns one row per river point, each a vector of
    Euclidean length 1, the last row repeating the one before it. *)
Theorem flow_directions_are_unit_vectors cx cy cz :
  length cy = length cx -> length cz = length cx ->
  ((length cx < 2)%nat -> calcular_direcciones cx cy cz = None) /\
  ((2 <= length cx)%nat ->
   exists ds, calcular_direcciones cx cy cz = Some ds /\
     length ds = length cx /\ Forall unit_row ds /\
     ds !! (length cx - 1)%nat = ds !! (length cx - 2)%nat).
Proof.
  intros Hy Hz. split.
  - intros Hn. unfold calcular_direcciones, Py.range.
    replace (Z.to_nat (Z.of_nat (length cx) - 1)) with 0%nat by lia.
    reflexivity.
  - intros Hn. unfold calcular_direcciones.
    destruct (for_each_inv (direccion cx cy cz)
                (fun k ds => length ds = k /\ Forall unit_row ds)
                (Py.range (Z.of_nat (length cx) - 1)) [])
      as (ds & -> & Hlen & Hunit).
    + split; [done|constructor].
    + intros k a ds [-> Hk]%lookup_range_inv [Hlen Hunit].
      destruct (direccion_spec cx cy cz k ds Hy Hz) as (row & -> & Hrow);
        [lia|].
      eexists. split; [reflexivity|]. split.
      * rewrite length_app. simpl. lia.
      * apply Forall_app. split; [done|]. by constructor.
    + rewrite length_range in Hlen. cbn [mbind option_bind].
      unfold Py.getitem. rewrite decide_False by lia.
      rewrite decide_True by lia.
      replace (Z.to_nat (Z.of_nat (length ds) + -1))
        with (length cx - 2)%nat by lia.
      destruct (lookup_lt_is_Some_2 ds (length cx - 2)) as [u Hu]; [lia|].
      rewrite Hu. cbn [mbind option_bind].
      eexists. split; [reflexivity|]. split; [|split].
      * rewrite length_app. simpl. lia.
      * apply Forall_app. split; [done|]. constructor; [|constructor].
        eapply Forall_lookup_1; eauto.
      * rewrite lookup_app_r by lia.
        replace (length cx - 1 - length ds)%nat with 0%nat by lia.
        rewrite lookup_app_l by lia. by rewrite Hu.
Qed.

Lemma flow_directions_are_unit_vectors_witness :
  exists ds,
    calcular_direcciones (cauce_x sample_rio) (cauce_y sample_rio)
                         (cauce_z sample_rio) = Some ds /\
    length ds = 3%nat /\ Forall unit_row ds /\ ds !! 2%nat = ds !! 1%nat.
Proof.
  destruct (flow_directions_are_unit_vectors
              (cauce_x sample_rio) (cauce_y sample_rio) (cauce_z sample_rio))
    as [_ H]; [reflexivity|reflexivity|].
  apply H. simpl. lia.
Defined.

Import Prototipo3.

(** ** prototipo3.py: moving the particles *)



Lemma unit_perp (px pz : R) :
  let mag := sqrt (px ^ 2 + pz ^ 2) in
  mag > 0 -> (px / mag) ^ 2 + (pz / mag) ^ 2 = 1.
Proof.
  intros mag Hmag.
  assert (Hsq : mag * mag = px ^ 2 + pz ^ 2).
  { apply sqrt_sqrt. pose proof (pow2_ge_0 px). pose proof (pow2_ge_0 pz).
    lra. }
  replace ((px / mag) ^ 2 + (pz / mag) ^ 2)
    with ((px ^ 2 + pz ^ 2) / (mag * mag)) by (field; lra).
  rewrite <- Hsq. field. lra.
Qed.

Lemma zero_perp (px pz : R) :
  ~ sqrt (px ^ 2 + pz ^ 2) > 0 -> px = 0 /\ pz = 0.
Proof.
  intros Hmag.
  pose proof (pow2_ge_0 px) as Hx. pose proof (pow2_ge_0 pz) as Hz.
  assert (Hs : px ^ 2 + pz ^ 2 = 0).
  { apply sqrt_eq_0; [lra|]. pose proof (sqrt_pos (px ^ 2 + pz ^ 2)).
    apply Rnot_gt_le in Hmag. lra. }
  split; nra.
Qed.

Lemma offset_small (a s : R) :
  0 <= a -> -1 <= s <= 1 -> (a * s) ^ 2 <= a ^ 2.
Proof.
  intros Ha Hs.
  assert (H1 : 0 <= 1 - s * s) by nra.
  assert (H2 : 0 <= a * a) by nra.
  pose proof (Rmult_le_pos _ _ H2 H1). simpl. nra.
Qed.





Import Prototipo3.

(** ** prototipo3.py: the river surface *)

Lemma length_range2 a b : length (Py.range2 a b) = Z.to_nat (b - a).
Proof. unfold Py.range2. by rewrite length_map, length_seq. Qed.

Lemma lookup_range2 a b (j : nat) :
  (Z.of_nat j < b - a)%Z -> Py.range2 a b !! j = Some (a + Z.of_nat j)%Z.
Proof.
  intros Hj. unfold Py.range2. rewrite list_lookup_fmap.
  rewrite lookup_seq_lt by lia. reflexivity.
Qed.

Lemma puntos_superficie_spec self i px pz cx cy cz js : forall s,
  cauce_x self !! i = Some cx -> cauce_y self !! i = Some cy ->
  cauce_z self !! i = Some cz ->
  Py.for_each (punto_superficie self i px pz) js s =
  Some (s.1.1 ++ map (fun j => cx + px * (IZR j / 10.0 * ancho_rio self)) js,
        s.1.2 ++ map (fun _ => cy) js,
        s.2 ++ map (fun j => cz + pz * (IZR j / 10.0 * ancho_rio self)) js).
Proof.
  induction js as [|j js IH]; intros [[sx sy] sz] Hx Hy Hz.
  - simpl. by rewrite !app_nil_r.
  - cbn [Py.for_each].
    assert (E : punto_superficie self i px pz j (sx, sy, sz) =
                Some (sx ++ [cx + px * (IZR j / 10.0 * ancho_rio self)],
                      sy ++ [cy],
                      sz ++ [cz + pz * (IZR j / 10.0 * ancho_rio self)])).
    { unfold punto_superficie. by rewrite Hx, Hy, Hz. }
    rewrite E. cbn [mbind option_bind].
    rewrite IH by done. cbn [fst snd map]. by rewrite <- !app_assoc.
Qed.

Lemma fila_superficie_spec self i cx cy cz :
  cauce_ok self ->
  cauce_x self !! i = Some cx -> cauce_y self !! i = Some cy ->
  cauce_z self !! i = Some cz ->
  exists px pz, px ^ 2 + pz ^ 2 <= 1 /\ forall s,
    fila_superficie self i s =
    Some (s.1.1 ++ map (fun j => cx + px * (IZR j / 10.0 * ancho_rio self))
                       (Py.range2 (-10) 11),
          s.1.2 ++ map (fun _ => cy) (Py.range2 (-10) 11),
          s.2 ++ map (fun j => cz + pz * (IZR j / 10.0 * ancho_rio self))
                     (Py.range2 (-10) 11)).
Proof.
  intros (_ & _ & Hd & Hrows) Hx Hy Hz.
  assert (Hi : (i < length (direcciones self))%nat)
    by (rewrite Hd; by eapply lookup_lt_Some).
  destruct (lookup_lt_is_Some_2 _ _ Hi) as [row Hrow].
  assert (Hlen : length row = 3%nat)
    by (eapply Forall_lookup_1 in Hrows; eauto).
  destruct row as [|a [|b [|c [|? ?]]]]; try discriminate Hlen.
  destruct (decide (sqrt ((- c) ^ 2 + a ^ 2) > 0)) as [Hmag|Hmag].
  - exists (- c / sqrt ((- c) ^ 2 + a ^ 2)), (a / sqrt ((- c) ^ 2 + a ^ 2)).
    split; [by rewrite unit_perp; [lra|]|].
    intros s. unfold fila_superficie. rewrite decide_True by done.
    rewrite Hrow. cbn [unpack3 mbind option_bind fst snd].
    rewrite decide_True by done. cbn [fst snd].
    by apply puntos_superficie_spec.
  - exists (- c), a. split.
    + destruct (zero_perp _ _ Hmag) as [-> ->]. lra.
    + intros s. unfold fila_superficie. rewrite decide_True by done.
      rewrite Hrow. cbn [unpack3 mbind option_bind fst snd].
      rewrite decide_False by done. cbn [fst snd].
      by apply puntos_superficie_spec.
Qed.

Lemma across_the_river (px pz cx cz w : R) (j : nat) :
  px ^ 2 + pz ^ 2 <= 1 -> (j < 21)%nat ->
  let f := IZR (-10 + Z.of_nat j) / 10.0 * w in
  (cx + px * f - cx) ^ 2 + (cz + pz * f - cz) ^ 2 <= w ^ 2 /\
  (j = 10%nat -> cx + px * f = cx /\ cz + pz * f = cz).
Proof.
  intros Hp Hj f. split.
  - replace ((cx + px * f - cx) ^ 2 + (cz + pz * f - cz) ^ 2)
      with ((px ^ 2 + pz ^ 2) * f ^ 2) by ring.
    assert (Hq : -1 <= IZR (-10 + Z.of_nat j) / 10.0 <= 1).
    { assert (-10 <= IZR (-10 + Z.of_nat j) <= 10)
        by (split; apply IZR_le; lia).
      lra. }
    set (q := IZR (-10 + Z.of_nat j) / 10.0) in *.
    assert (Hf : f ^ 2 <= w ^ 2).
    { unfold f. fold q. rewrite Rmult_comm.
      destruct (Rle_dec 0 w) as [Hw|Hw].
      - apply offset_small; lra.
      - replace ((w * q) ^ 2) with ((- w * q) ^ 2) by ring.
        replace (w ^ 2) with ((- w) ^ 2) by ring.
        apply offset_small; lra. }
    pose proof (pow2_ge_0 f). pose proof (pow2_ge_0 px).
    pose proof (pow2_ge_0 pz). nra.
  - intros ->. unfold f. change (-10 + Z.of_nat 10)%Z with 0%Z.
    split; lra.
Qed.

(** Extra X22.  On a river whose arrays have one length,
    [generar_superficie_rio] returns three lists of 21 entries per river
    point; entry [21 i + j] has the height of river point [i], lies within
    [ancho_rio] of it in the plan, and is the river point itself for
    [j = 10]. *)
Theorem river_surface_spans_the_river self :
  cauce_ok self ->
  exists sx sy sz,
    generar_superficie_rio self = Some (sx, sy, sz) /\
    length sx = (21 * length (cauce_x self))%nat /\
    length sy = (21 * length (cauce_x self))%nat /\
    length sz = (21 * length (cauce_x self))%nat /\
    forall i j cx cy cz, (j < 21)%nat ->
      cauce_x self !! i = Some cx -> cauce_y self !! i = Some cy ->
      cauce_z self !! i = Some cz ->
      exists X Z,
        sx !! (21 * i + j)%nat = Some X /\
        sy !! (21 * i + j)%nat = Some cy /\
        sz !! (21 * i + j)%nat = Some Z /\
        (X - cx) ^ 2 + (Z - cz) ^ 2 <= ancho_rio self ^ 2 /\
        (j = 10%nat -> X = cx /\ Z = cz).
Proof.
  intros Hok. unfold generar_superficie_rio. cbv zeta.
  destruct (for_each_inv (fila_superficie self)
    (fun k s =>
       length s.1.1 = (21 * k)%nat /\ length s.1.2 = (21 * k)%nat /\
       length s.2 = (21 * k)%nat /\
       forall i j cx cy cz, (i < k)%nat -> (j < 21)%nat ->
         cauce_x self !! i = Some cx -> cauce_y self !! i = Some cy ->
         cauce_z self !! i = Some cz ->
         exists X Z,
           s.1.1 !! (21 * i + j)%nat = Some X /\
           s.1.2 !! (21 * i + j)%nat = Some cy /\
           s.2 !! (21 * i + j)%nat = Some Z /\
           (X - cx) ^ 2 + (Z - cz) ^ 2 <= ancho_rio self ^ 2 /\
           (j = 10%nat -> X = cx /\ Z = cz))
    (Py.range (Z.of_nat (length (cauce_x self)))) ([], [], []))
    as ([[sx sy] sz] & Hrun & Hlx & Hly & Hlz & Hpts).
  - cbn [fst snd]. repeat split; try reflexivity. intros; lia.
  - intros k a [[sx sy] sz] [-> Hk]%lookup_range_inv.
    cbn [fst snd]. intros (Hlx & Hly & Hlz & Hpts).
    pose proof Hok as (Hy & Hz & _).
    destruct (lookup_lt_is_Some_2 (cauce_x self) k) as [kx Hkx]; [lia|].
    destruct (lookup_lt_is_Some_2 (cauce_y self) k) as [ky Hky]; [lia|].
    destruct (lookup_lt_is_Some_2 (cauce_z self) k) as [kz Hkz]; [lia|].
    destruct (fila_superficie_spec self k kx ky kz) as (px & pz & Hp & Hrun);
      [done..|].
    rewrite Hrun. cbn [fst snd]. eexists. split; [reflexivity|].
    cbn [fst snd]. rewrite !length_app, !length_map, length_range2.
    change (Z.to_nat (11 - -10)) with 21%nat.
    split; [lia|]. split; [lia|]. split; [lia|].
    intros i j cx cy cz Hi Hj Hcx Hcy Hcz.
    destruct (decide (i < k)%nat) as [Hlt|Hge].
    + destruct (Hpts i j cx cy cz Hlt Hj Hcx Hcy Hcz)
        as (X & Z & HX & HY & HZ & Hnear).
      exists X, Z. rewrite !lookup_app_l by lia. done.
    + assert (i = k) as -> by lia.
      assert (cx = kx) as -> by congruence.
      assert (cy = ky) as -> by congruence.
      assert (cz = kz) as -> by congruence.
      rewrite !lookup_app_r by lia.
      replace (21 * k + j - length sx)%nat with j by lia.
      replace (21 * k + j - length sy)%nat with j by lia.
      replace (21 * k + j - length sz)%nat with j by lia.
      change (map ?f ?l) with (f <$> l). rewrite !list_lookup_fmap.
      rewrite lookup_range2 by lia. cbn [fmap option_fmap option_map].
      eexists _, _. split; [reflexivity|]. split; [reflexivity|].
      split; [reflexivity|]. by apply across_the_river.
  - rewrite length_range, Nat2Z.id in *. cbn [fst snd] in *.
    exists sx, sy, sz. split; [done|]. split; [done|]. split; [done|].
    split; [done|]. intros i j cx cy cz Hj Hcx Hcy Hcz.
    apply Hpts; try done. by eapply lookup_lt_Some.
Qed.

Lemma river_surface_spans_the_river_witness :
  exists sx sy sz,
    generar_superficie_rio sample_rio = Some (sx, sy, sz) /\
    length sx = 63%nat /\ length sy = 63%nat /\ length sz = 63%nat /\
    sy !! 31%nat = Some 9.
Proof.
  destruct (river_surface_spans_the_river sample_rio)
    as (sx & sy & sz & Hrun & Hlx & Hly & Hlz & Hpts).
  - unfold cauce_ok. simpl. repeat split; try reflexivity.
    repeat (apply Forall_cons; split; [reflexivity|]). apply Forall_nil_2.
  - exists sx, sy, sz. repeat (split; [done|]).
    destruct (Hpts 1%nat 10%nat 1 9 0) as (X & Z & _ & HY & _);
      [lia|reflexivity..|]. exact HY.
Defined.

Import Prototipo3.

(** ** prototipo3.py: creating particles *)

Lemma getitem_nonneg {A} (a : list A) (i : Z) :
  (0 <= i)%Z -> Py.getitem a i = a !! Z.to_nat i.
Proof. intros Hi. unfold Py.getitem. by rewrite decide_True. Qed.

Lemma abs_product (p o w : R) :
  Rabs o <= w -> (p * o) ^ 2 <= p ^ 2 * w ^ 2.
Proof.
  intros Ho. pose proof (Rabs_pos o) as Hpos.
  assert (Ho2 : o ^ 2 <= w ^ 2).
  { rewrite <- (pow2_abs o). simpl. nra. }
  pose proof (pow2_ge_0 p).
  replace ((p * o) ^ 2) with (p ^ 2 * o ^ 2) by ring. nra.
Qed.

Lemma half_width (w : R) : (Rabs w / 2) ^ 2 = (w / 2) ^ 2.
Proof.
  replace ((Rabs w / 2) ^ 2) with ((Rabs w) ^ 2 / 4) by field.
  rewrite pow2_abs. field.
Qed.

(** What [crear_particula] returns for draws within their ranges. *)
Lemma crear_particula_spec self nombre kg d zi a b :
  cauce_ok self ->
  Py.dict_getitem (zonas self) nombre = Some zi ->
  indice_zona self (inicio zi) = Some a ->
  indice_zona self (fin zi) = Some b ->
  (0 <= a)%Z ->
  0 < factor_contaminacion zi ->
  draws_ok self a b d ->
  let n := Z.of_nat (length (cauce_x self)) in
  exists p, crear_particula self nombre kg d = Some p /\
    zona p = nombre /\
    idx_cauce p = IZR (randint_idx d) /\
    (a <= randint_idx d <= b)%Z /\
    (0 <= randint_idx d < n)%Z /\
    0.5 * factor_contaminacion zi <= velocidad p
      <= 1.5 * factor_contaminacion zi /\
    0.3 <= tamano p <= 0.8 /\
    exists cx cy cz,
      cauce_x self !! Z.to_nat (randint_idx d) = Some cx /\
      cauce_y self !! Z.to_nat (randint_idx d) = Some cy /\
      cauce_z self !! Z.to_nat (randint_idx d) = Some cz /\
      Rabs (y p - cy) <= 0.1 /\
      (x p - cx) ^ 2 + (z p - cz) ^ 2 <= (ancho_rio self / 2) ^ 2.
Proof.
  intros (Hy & Hz & Hd & Hrows) Hzona Ha Hb Ha0 Hfac Hdraw n.
  destruct Hdraw as ([Hlo Hhi] & Hoff & Hyd & Hvel & _ & _ & Htam).
  subst n. set (n := Z.of_nat (length (cauce_x self))) in *.
  set (idx := randint_idx d) in *.
  assert (Hidx : (0 <= idx < n)%Z) by lia.
  destruct (lookup_lt_is_Some_2 (cauce_x self) (Z.to_nat idx)) as [cx Hcx];
    [lia|].
  destruct (lookup_lt_is_Some_2 (cauce_y self) (Z.to_nat idx)) as [cy Hcy];
    [lia|].
  destruct (lookup_lt_is_Some_2 (cauce_z self) (Z.to_nat idx)) as [cz Hcz];
    [lia|].
  destruct (lookup_lt_is_Some_2 (direcciones self) (Z.to_nat idx))
    as [row Hrow]; [lia|].
  assert (Hlen : length row = 3%nat)
    by (eapply Forall_lookup_1 in Hrows; eauto).
  destruct row as [|r0 [|r1 [|r2 [|? ?]]]]; try discriminate Hlen.
  assert (Hw : (Rabs (ancho_rio self) / 2) ^ 2 = (ancho_rio self / 2) ^ 2)
    by apply half_width.
  pose proof abs_product as Hprod.
  assert (Hrun : crear_particula self nombre kg d =
    (perp ← (if decide (sqrt ((- r2) ^ 2 + r0 ^ 2) > 0)
             then Some (- r2 / sqrt ((- r2) ^ 2 + r0 ^ 2),
                        r0 / sqrt ((- r2) ^ 2 + r0 ^ 2))
             else Some (- r2, r0));
     Some {| x := cx + perp.1 * uniform_offset_lateral d;
             y := cy + uniform_y d;
             z := cz + perp.2 * uniform_offset_lateral d;
             idx_cauce := IZR idx;
             velocidad := uniform_velocidad d * factor_contaminacion zi;
             oscilacion_y := uniform_oscilacion_y d;
             oscilacion_z := uniform_oscilacion_z d;
             color := if decide (kg / 1000 > 0.8) then "red"
                      else if decide (kg / 1000 > 0.5) then "orange"
                      else if decide (kg / 1000 > 0.2) then "yellow"
                      else "lightgreen";
             tamano := uniform_tamano d; zona := nombre |})).
  { unfold crear_particula. rewrite Hzona. cbn [mbind option_bind].
    cbv zeta. rewrite Ha, Hb. cbn [mbind option_bind]. fold n.
    unfold randint.
    rewrite (decide_True (P := (_ <= _)%Z)) by lia.
    cbn [mbind option_bind]. fold idx.
    rewrite (decide_True (P := (_ < _)%Z)) by lia.
    rewrite !getitem_nonneg by lia.
    rewrite Hrow. cbn [unpack3 mbind option_bind fst snd].
    destruct (decide (sqrt ((- r2) ^ 2 + r0 ^ 2) > 0));
      cbn [mbind option_bind]; by rewrite Hcx, Hcy, Hcz. }
  rewrite Hrun. clear Hrun.
  destruct (decide (sqrt ((- r2) ^ 2 + r0 ^ 2) > 0)) as [Hmag|Hmag];
    cbn [mbind option_bind fst snd]; eexists; (split; [reflexivity|]);
    cbn [x y z idx_cauce velocidad tamano zona];
    (split; [reflexivity|]); (split; [reflexivity|]); (split; [lia|]);
    (split; [done|]); (split; [nra|]); (split; [done|]);
    exists cx, cy, cz; (split; [done|]); (split; [done|]); (split; [done|]).
  - split; [apply Rabs_le; lra|].
    pose proof (unit_perp (- r2) r0 Hmag) as Hu. cbv zeta in Hu.
    set (m := sqrt ((- r2) ^ 2 + r0 ^ 2)) in *.
    set (o := uniform_offset_lateral d) in *.
    pose proof (Hprod (- r2 / m) o _ Hoff) as H1.
    pose proof (Hprod (r0 / m) o _ Hoff) as H2.
    replace ((cx + - r2 / m * o - cx) ^ 2 + (cz + r0 / m * o - cz) ^ 2)
      with ((- r2 / m * o) ^ 2 + (r0 / m * o) ^ 2) by ring.
    rewrite <- Hw. nra.
  - split; [apply Rabs_le; lra|].
    destruct (zero_perp _ _ Hmag) as [Hc ->].
    assert (r2 = 0) as -> by lra.
    set (o := uniform_offset_lateral d) in *.
    replace ((cx + - 0 * o - cx) ^ 2 + (cz + 0 * o - cz) ^ 2) with 0 by ring.
    apply pow2_ge_0.
Qed.

(** Extra X23.  For a known zone whose bounds have the river indices [a]
    and [b], computed in binary64 as the code does, with [a] not negative:
    [crear_particula] raises when the range from [a] to
    [min(b, len(cauce_x) - 1)] is empty, whatever is drawn; and for draws
    within their ranges it returns a particle of that zone on a river
    point between [a] and [b], with a positive speed, a size between 0.3
    and 0.8, within 0.1 of the height of its river point and within half
    the river width of it in the plan.  With the 600 river points of the
    script the zone Huancayo begins at index 439. *)
Theorem created_particle_starts_in_its_zone self nombre kg zi a b :
  cauce_ok self ->
  Py.dict_getitem (zonas self) nombre = Some zi ->
  indice_zona self (inicio zi) = Some a ->
  indice_zona self (fin zi) = Some b ->
  (0 <= a)%Z ->
  0 < factor_contaminacion zi ->
  let n := Z.of_nat (length (cauce_x self)) in
  ((Z.min b (n - 1) < a)%Z ->
   forall d, crear_particula self nombre kg d = None) /\
  (forall d, draws_ok self a b d ->
   exists p, crear_particula self nombre kg d = Some p /\
     zona p = nombre /\
     idx_cauce p = IZR (randint_idx d) /\
     (a <= randint_idx d <= b)%Z /\
     0 <= idx_cauce p <= IZR n - 1 /\
     0 < velocidad p /\
     0.3 <= tamano p <= 0.8 /\
     exists cx cy cz,
       cauce_x self !! Z.to_nat (randint_idx d) = Some cx /\
       cauce_y self !! Z.to_nat (randint_idx d) = Some cy /\
       cauce_z self !! Z.to_nat (randint_idx d) = Some cz /\
       Rabs (y p - cy) <= 0.1 /\
       (x p - cx) ^ 2 + (z p - cz) ^ 2 <= (ancho_rio self / 2) ^ 2).
Proof.
  intros Hok Hzona Ha Hb Ha0 Hfac n. split.
  - intros Hempty d. unfold crear_particula.
    rewrite Hzona. cbn [mbind option_bind]. cbv zeta.
    rewrite Ha, Hb. cbn [mbind option_bind]. fold n. unfold randint.
    rewrite (decide_False (P := (_ <= _)%Z)); [reflexivity|]. lia.
  - intros d Hd.
    destruct (crear_particula_spec self nombre kg d zi a b
                Hok Hzona Ha Hb Ha0 Hfac Hd)
      as (p & Hp & Hz & Hidx & Hzone & Hrange & Hvel & Htam & Hpos).
    exists p. fold n in Hrange. repeat (split; [done|]).
    split; [|split; [|done]].
    + rewrite Hidx. destruct Hrange as [H0 Hn]. split; [by apply IZR_le|].
      assert (randint_idx d <= n - 1)%Z as Hle%IZR_le by lia.
      by rewrite minus_IZR in Hle.
    + nra.
Qed.

Lemma sample_rio_ok : cauce_ok sample_rio.
Proof.
  unfold cauce_ok. simpl. repeat split; try reflexivity.
  repeat (apply Forall_cons; split; [reflexivity|]). apply Forall_nil_2.
Qed.

Lemma sample_rio_600_ok : cauce_ok sample_rio_600.
Proof.
  unfold cauce_ok. split; [reflexivity|]. split; [reflexivity|].
  split; [reflexivity|]. by apply Forall_replicate.
Qed.

Lemma draws_in_range self a b (idx : Z) :
  (a <= idx <= Z.min b (Z.of_nat (length (cauce_x self)) - 1))%Z ->
  Rabs 0.5 <= Rabs (ancho_rio self) / 2 ->
  draws_ok self a b
    {| randint_idx := idx; uniform_offset_lateral := 0.5; uniform_y := 0;
       uniform_velocidad := 1; uniform_oscilacion_y := 0;
       uniform_oscilacion_z := 0; uniform_tamano := 0.5 |}.
Proof.
  intros Hidx Hw. unfold draws_ok.
  cbn [randint_idx uniform_offset_lateral uniform_y uniform_velocidad
       uniform_oscilacion_y uniform_oscilacion_z uniform_tamano].
  pose proof PI_RGT_0. split; [exact Hidx|]. split; [exact Hw|].
  repeat split; lra.
Qed.

Lemma sample_draws_ok : draws_ok sample_rio 0 0 sample_draws.
Proof.
  apply draws_in_range; [simpl; lia|].
  change (ancho_rio sample_rio) with 2.0. rewrite !Rabs_pos_eq by lra. lra.
Qed.

Lemma sample_draws_439_ok : draws_ok sample_rio_600 439 560 sample_draws_439.
Proof.
  apply draws_in_range; [simpl; lia|].
  change (ancho_rio sample_rio_600) with 2.0.
  rewrite !Rabs_pos_eq by lra. lra.
Qed.

Lemma created_particle_starts_in_its_zone_witness :
  indice_zona sample_rio_600 110 = Some 439%Z /\
  exists p,
    crear_particula sample_rio_600 "Huancayo" 25 sample_draws_439 = Some p /\
    zona p = "Huancayo" /\ idx_cauce p = 439 /\ 0 < velocidad p.
Proof.
  assert (Ha : indice_zona sample_rio_600 110 = Some 439%Z)
    by (vm_compute; reflexivity).
  assert (Hb : indice_zona sample_rio_600 140 = Some 560%Z)
    by (vm_compute; reflexivity).
  split; [exact Ha|].
  destruct (created_particle_starts_in_its_zone sample_rio_600 "Huancayo" 25
              {| inicio := 110; fin := 140; zcolor := "lightcoral";
                 factor_contaminacion := 1.3 |} 439 560) as [_ H].
  - apply sample_rio_600_ok.
  - reflexivity.
  - exact Ha.
  - exact Hb.
  - lia.
  - simpl. lra.
  - destruct (H sample_draws_439 sample_draws_439_ok)
      as (p & Hp & Hz & Hidx & _ & _ & Hvel & _).
    exists p. repeat split; done.
Defined.

(** ** prototipo3.py: adding waste *)

Lemma set_particulas_same self : set_particulas self (particulas self) = self.
Proof. by destruct self. Qed.

Lemma int_at_least_1 (r : R) : (1 <= Py.int r)%Z <-> 1 <= r.
Proof.
  destruct (decide (0 <= r)) as [Hr|Hr].
  - destruct (int_floor r Hr) as [Hlo Hhi]. split.
    + intros H%IZR_le. lra.
    + intros H. assert (0 < Py.int r + 1 - 1)%Z; [|lia].
      apply lt_IZR. rewrite minus_IZR, plus_IZR. lra.
  - unfold Py.int. rewrite decide_False by done.
    destruct (base_Int_part (- r)) as [Hle Hgt]. split; [|lra].
    intros H. assert (-1 < Int_part (- r))%Z by (apply lt_IZR; lra). lia.
Qed.

Lemma agregar_nothing nombre kg draws l : forall self,
  (max_particulas self <= Z.of_nat (length (particulas self)))%Z ->
  Py.for_each (agregar_particula nombre kg draws) l self = Some self.
Proof.
  induction l as [|k l IH]; intros self Hfull; [done|].
  cbn [Py.for_each].
  assert (E : agregar_particula nombre kg draws k self = Some self)
    by (unfold agregar_particula; by rewrite decide_False by lia).
  rewrite E. cbn [mbind option_bind]. by apply IH.
Qed.

(** Extra X24.  For a known zone whose bounds have the river indices [a]
    and [b], with [a] not negative, and draws within their ranges,
    [agregar_basura] appends to the particles
    [min(int(kg / 10), 200, max_particulas - len(particulas))] new ones,
    or none when that number is negative, and changes nothing else; every
    new particle belongs to the zone, lies on a river point between [a]
    and [b] and has a positive speed. *)
Theorem added_waste_is_capped self nombre kg draws zi a b :
  cauce_ok self ->
  Py.dict_getitem (zonas self) nombre = Some zi ->
  indice_zona self (inicio zi) = Some a ->
  indice_zona self (fin zi) = Some b ->
  (0 <= a)%Z ->
  0 < factor_contaminacion zi ->
  (forall k, draws_ok self a b (draws k)) ->
  exists nuevas,
    agregar_basura self nombre kg draws =
      Some (set_particulas self (particulas self ++ nuevas)) /\
    Z.of_nat (length nuevas) =
      Z.max 0 (Z.min (Z.min (Py.int (kg / 10)) 200)
                     (max_particulas self
                      - Z.of_nat (length (particulas self)))) /\
    Forall (fun p => zona p = nombre /\ 0 < velocidad p /\
                     (exists idx, idx_cauce p = IZR idx /\
                                  (a <= idx <= b)%Z) /\
                     0 <= idx_cauce p
                       <= IZR (Z.of_nat (length (cauce_x self))) - 1) nuevas.
Proof.
  intros Hok Hzona Ha Hb Ha0 Hfac Hdraws. unfold agregar_basura. cbv zeta.
  set (num := Z.min (Py.int (kg / 10)) 200).
  set (room := (max_particulas self
                - Z.of_nat (length (particulas self)))%Z).
  destruct (for_each_inv (agregar_particula nombre kg draws)
    (fun k s => exists nuevas,
       s = set_particulas self (particulas self ++ nuevas) /\
       Z.of_nat (length nuevas) = Z.max 0 (Z.min (Z.of_nat k) room) /\
       Forall (fun p => zona p = nombre /\ 0 < velocidad p /\
                        (exists idx, idx_cauce p = IZR idx /\
                                     (a <= idx <= b)%Z) /\
                        0 <= idx_cauce p
                          <= IZR (Z.of_nat (length (cauce_x self))) - 1)
              nuevas)
    (Py.range num) self) as (s & Hrun & nuevas & -> & Hlen & Hall).
  - exists []. rewrite app_nil_r, set_particulas_same.
    split; [done|]. split; [simpl; lia|constructor].
  - intros k i s _ (nuevas & -> & Hlen & Hall).
    unfold agregar_particula.
    cbn [particulas max_particulas set_particulas].
    destruct (decide (Z.of_nat (length (particulas self ++ nuevas))
                      < max_particulas self)%Z) as [Hroom|Hfull].
    + change (crear_particula (set_particulas self (particulas self ++ nuevas))
                nombre kg (draws i))
        with (crear_particula self nombre kg (draws i)).
      destruct (crear_particula_spec self nombre kg (draws i) zi a b
                  Hok Hzona Ha Hb Ha0 Hfac (Hdraws i))
        as (p & -> & Hz & Hidx & Hzone & Hrange & Hvel & _).
      cbn [mbind option_bind]. eexists. split; [reflexivity|].
      exists (nuevas ++ [p]). split; [by rewrite <- app_assoc|].
      rewrite length_app in Hroom. split.
      * rewrite length_app. simpl. unfold room. lia.
      * apply Forall_app. split; [done|].
        apply Forall_cons. split; [|apply Forall_nil_2].
        split; [done|]. split; [nra|]. split; [by eexists|]. rewrite Hidx.
        destruct Hrange as [H0 Hn]. split; [by apply IZR_le|].
        assert (randint_idx (draws i)
                <= Z.of_nat (length (cauce_x self)) - 1)%Z
          as Hle%IZR_le by lia.
        by rewrite minus_IZR in Hle.
    + eexists. split; [reflexivity|]. exists nuevas. split; [done|].
      rewrite length_app in Hfull. split; [unfold room; lia|done].
  - exists nuevas. split; [done|]. split; [|done].
    rewrite Hlen, length_range. lia.
Qed.

Lemma added_waste_is_capped_witness :
  exists nuevas,
    agregar_basura sample_rio "La Oroya" 25 (fun _ => sample_draws) =
      Some (set_particulas sample_rio (particulas sample_rio ++ nuevas)) /\
    Z.of_nat (length nuevas) =
      Z.max 0 (Z.min (Z.min (Py.int (25 / 10)) 200) (3 - 2)).
Proof.
  destruct (added_waste_is_capped sample_rio "La Oroya" 25
              (fun _ => sample_draws)
              {| inicio := 0; fin := 25; zcolor := "red";
                 factor_contaminacion := 1.5 |} 0 0)
    as (nuevas & Hrun & Hlen & _).
  - apply sample_rio_ok.
  - reflexivity.
  - vm_compute. reflexivity.
  - vm_compute. reflexivity.
  - lia.
  - simpl. lra.
  - intros _. apply sample_draws_ok.
  - exists nuevas. split; [exact Hrun|exact Hlen].
Defined.

(** Extra X25.  For a zone that is not in [zonas], [agregar_basura]
    raises exactly when it has a particle to create, that is when
    [kg_basura] is at least 10 and the population is below
    [max_particulas]; otherwise it returns with the simulator unchanged. *)
Theorem unknown_zone_is_noticed_only_when_adding self nombre kg draws :
  Py.dict_getitem (zonas self) nombre = None ->
  agregar_basura self nombre kg draws =
  if decide (10 <= kg /\
             (Z.of_nat (length (particulas self)) < max_particulas self)%Z)
  then None else Some self.
Proof.
  intros Hzona. unfold agregar_basura. cbv zeta.
  pose proof (int_at_least_1 (kg / 10)) as Hint.
  destruct (decide _) as [[Hkg Hroom]|Hno].
  - assert (1 <= Py.int (kg / 10))%Z by (apply Hint; lra).
    unfold Py.range.
    destruct (Z.to_nat (Z.min (Py.int (kg / 10)) 200)) as [|m] eqn:Hm; [lia|].
    cbn [seq Py.for_each].
    assert (E : agregar_particula nombre kg draws 0%nat self = None).
    { unfold agregar_particula. rewrite decide_True by done.
      unfold crear_particula. by rewrite Hzona. }
    by rewrite E.
  - destruct (decide (Z.of_nat (length (particulas self))
                      < max_particulas self)%Z) as [Hroom|Hfull].
    + assert (Hkg : ~ 10 <= kg) by tauto.
      assert (~ (1 <= Py.int (kg / 10))%Z) by (rewrite Hint; lra).
      unfold Py.range.
      replace (Z.to_nat (Z.min (Py.int (kg / 10)) 200)) with 0%nat by lia.
      reflexivity.
    + apply agregar_nothing. lia.
Qed.

Lemma unknown_zone_is_noticed_only_when_adding_witness :
  agregar_basura sample_rio "Lima" 25 (fun _ => sample_draws) =
  if decide (10 <= 25 /\
             (Z.of_nat (length (particulas sample_rio))
              < max_particulas sample_rio)%Z)
  then None else Some sample_rio.
Proof.
  apply (unknown_zone_is_noticed_only_when_adding sample_rio "Lima" 25).
  reflexivity.
Defined.

(** ** The peak value in binary64 *)

Section Binary64Facts.
Import PrimFloat.
#[local] Set Warnings "-inexact-float".

(** In binary64 the product [27.1 * 0.2] is 5.420000000000001, the
    neighbour of the number that the literal [5.42] denotes, and the factor
    [np.exp(-0.0)] is exactly 1: the comparison [== 5.42] of the concrete
    scenario is [False]. *)
Lemma peak_at_the_source_is_not_5_42 :
  Binary64.pollution_function 0.2 0 0 27.1 = Some 5.420000000000001%float /\
  (5.420000000000001 =? 5.42)%float = false.
Proof. split; reflexivity. Qed.

End Binary64Facts.
